(** * Meal-scan redemption core: embedding and properties

    A shallow embedding of the redemption pipeline of the mess backend
    (QR credential codec, meal-window resolver, settings cache, the
    several scan coordinators and the batch driver), followed by the
    properties established about it.

    Conventions of the embedding.
    - A JavaScript [Date] is a [Z]: milliseconds of local wall-clock time
      since the epoch (the server's fixed timezone offset is folded in).
    - A function that can throw returns [Exc A]; [try]/[catch] is
      [try_catch].
    - A MongoDB collection is a list of documents in natural (insertion)
      order; queries scan the list.
    - Every [new Date()] / [Date.now()] read inside one operation sees the
      instant that is passed to the operation as [now]. *)

From Stdlib Require Import ZArith List String Ascii Bool Lia Arith.
From Stdlib Require Import Permutation Sorted DecimalString.
Import ListNotations.

Set Warnings "-register-all".

Open Scope string_scope.
Open Scope Z_scope.

(* ================================================================== *)
(** ** JavaScript basics *)
(* ================================================================== *)

Module Js.

(** An exception carries the [message] and, for [ApiError] and driver
    errors, a [code]. *)
Record Error := mkError { message : string; code : string }.

Inductive Exc (A : Type) : Type :=
| Return (a : A)
| Throw (e : Error).
Arguments Return {A} a.
Arguments Throw {A} e.

Definition bind {A B} (m : Exc A) (k : A -> Exc B) : Exc B :=
  match m with
  | Return a => k a
  | Throw e => Throw e
  end.

Definition try_catch {A} (body : Exc A) (handler : Error -> Exc A) : Exc A :=
  match body with
  | Return a => Return a
  | Throw e => handler e
  end.

(** [x || y] on values that are either a string or [undefined]:
    the empty string is falsy. *)
Definition truthy_str (x : option string) : bool :=
  match x with
  | Some s => negb (String.eqb s "")
  | None => false
  end.

Definition or_str (x y : option string) : option string :=
  if truthy_str x then x else y.

(** [x || d] on a number or [undefined]: [0] is falsy. *)
Definition or_num (x : option Z) (d : Z) : Z :=
  match x with
  | Some 0 => d
  | Some n => n
  | None => d
  end.

(** Relational comparison of two strings ([a <= b], [a >= b]) is
    lexicographic on code units. *)
Definition str_le (a b : string) : bool := String.leb a b.
Definition str_ge (a b : string) : bool := String.leb b a.

(** [String(n)] for a non-negative integer. *)
Definition String_of_nat (n : nat) : string :=
  NilEmpty.string_of_uint (Nat.to_uint n).

Fixpoint repeat_char (c : ascii) (n : nat) : string :=
  match n with
  | O => EmptyString
  | S k => String c (repeat_char c k)
  end.

(** [s.includes(sub)] *)
Definition includes (s sub : string) : bool :=
  match String.index 0 sub s with
  | Some _ => true
  | None => false
  end.

(** [s.padStart(len, "0")] *)
Definition padStart0 (len : nat) (s : string) : string :=
  repeat_char "0"%char (len - String.length s) ++ s.

(** [Date] accessors on local wall-clock milliseconds. *)
Definition Date := Z.
Definition ms_per_day : Z := 86400000.
Definition getHours (t : Date) : Z := (t / 3600000) mod 24.
Definition getMinutes (t : Date) : Z := (t / 60000) mod 60.
(** [d.setHours(0, 0, 0, 0)] *)
Definition startOfDay (t : Date) : Date := t - t mod ms_per_day.
(** [d.setHours(h, m, s, ms)] *)
Definition setHours (t : Date) (h m s ms : Z) : Date :=
  startOfDay t + h * 3600000 + m * 60000 + s * 1000 + ms.

End Js.
Import Js.

Declare Scope exc_scope.
Delimit Scope exc_scope with exc.
Notation "x <- m ;; k" := (Js.bind m (fun x => k))
  (at level 61, m at next level, right associativity) : exc_scope.
Notation "m ;;; k" := (Js.bind m (fun _ => k))
  (at level 61, right associativity) : exc_scope.

Inductive MealType := Breakfast | Lunch | Dinner | Snack | UnknownMeal.

Definition MealType_eqb (a b : MealType) : bool :=
  match a, b with
  | Breakfast, Breakfast | Lunch, Lunch | Dinner, Dinner
  | Snack, Snack | UnknownMeal, UnknownMeal => true
  | _, _ => false
  end.

(* ================================================================== *)
(** ** Settings documents *)
(* ================================================================== *)

(** One entry of [mealWindows]; both the [start]/[end] and the legacy
    [from]/[to] spellings may be present. *)
Record MealWindow := mkWindow {
  w_start : option string;
  w_end : option string;
  w_from : option string;
  w_to : option string
}.

Record MealWindows := mkWindows {
  mw_breakfast : option MealWindow;
  mw_lunch : option MealWindow;
  mw_dinner : option MealWindow
}.

Record Settings := mkSettings {
  mealWindows : option MealWindows;
  doubleScanWindowSeconds : option Z;
  alertThresholdMealsRemaining : option Z;
  timezone : option string
}.

Definition window (s e : string) : MealWindow :=
  mkWindow (Some s) (Some e) None None.

(* ================================================================== *)
(** ** utils/mealTypeHelper.js : the configured meal-window resolver *)
(* ================================================================== *)

Module MealTypeHelper.

(** [function isTimeInWindow(currentTime, windowStart, windowEnd)] *)
Definition isTimeInWindow (currentTime : string)
           (windowStart windowEnd : option string) : bool :=
  if negb (truthy_str windowStart) || negb (truthy_str windowEnd)
  then false
  else
    match windowStart, windowEnd with
    | Some ws, Some we => str_ge currentTime ws && str_le currentTime we
    | _, _ => false
    end.

(** [`${String(hours).padStart(2, "0")}:${String(minutes).padStart(2, "0")}`] *)
Definition currentTime (now : Date) : string :=
  padStart0 2 (String_of_nat (Z.to_nat (getHours now))) ++ ":" ++
  padStart0 2 (String_of_nat (Z.to_nat (getMinutes now))).

(** [windows.X?.start || windows.X?.from] *)
Definition startOf (w : option MealWindow) : option string :=
  match w with
  | Some x => or_str (w_start x) (w_from x)
  | None => None
  end.

(** [windows.X?.end || windows.X?.to] *)
Definition endOf (w : option MealWindow) : option string :=
  match w with
  | Some x => or_str (w_end x) (w_to x)
  | None => None
  end.

(** [export function determineMealType(config)]; [now] is the value of
    [new Date()]. *)
Definition determineMealType (config : Settings) (now : Date)
  : option MealType :=
  let ct := currentTime now in
  let windows :=
    match mealWindows config with
    | Some w => w
    | None => mkWindows None None None
    end in
  if isTimeInWindow ct (startOf (mw_breakfast windows))
                       (endOf (mw_breakfast windows))
  then Some Breakfast
  else if isTimeInWindow ct (startOf (mw_lunch windows))
                            (endOf (mw_lunch windows))
  then Some Lunch
  else if isTimeInWindow ct (startOf (mw_dinner windows))
                            (endOf (mw_dinner windows))
  then Some Dinner
  else None.

End MealTypeHelper.

(* ================================================================== *)
(** ** utils/determineMealType.js : the hour-only resolver *)
(* ================================================================== *)

Module HourResolver.

(** [export const determineMealType = () => ...] *)
Definition determineMealType (now : Date) : option MealType :=
  let hour := getHours now in
  if (6 <=? hour) && (hour <? 11) then Some Breakfast
  else if (11 <=? hour) && (hour <? 16) then Some Lunch
  else if (16 <=? hour) && (hour <? 22) then Some Dinner
  else None.

End HourResolver.

(* ================================================================== *)
(** ** utils/settingsCache.js *)
(* ================================================================== *)

Module SettingsCache.

(** What [Settings.findOne({}).lean()] does when awaited. *)
Inductive ProviderResult :=
| Found (s : Settings)
| NotFound
| ProviderThrows (e : Error).

(** Module-level state: [cache], [loadedAt], and the number of
    provider queries issued so far (ghost counter). *)
Record State := mkState {
  cache : option Settings;
  loadedAt : Z;
  queries : nat
}.

Definition initial : State := mkState None 0 0.

Definition TTL : Z := 60000.

(** [function getDefaultSettings()] *)
Definition getDefaultSettings : Settings :=
  mkSettings
    (Some (mkWindows (Some (window "06:30" "10:00"))
                     (Some (window "12:00" "15:00"))
                     (Some (window "19:00" "22:00"))))
    (Some 30) (Some 5) (Some "UTC").

(** [await Settings.findOne({}).lean()]: the [k]-th query is answered
    by [provider k]. *)
Definition findOne (provider : nat -> ProviderResult) (st : State)
  : Exc (option Settings) * State :=
  let st' := mkState (cache st) (loadedAt st) (S (queries st)) in
  match provider (queries st) with
  | Found s => (Return (Some s), st')
  | NotFound => (Return None, st')
  | ProviderThrows e => (Throw e, st')
  end.

(** [cache || getDefaultSettings()] and [s || getDefaultSettings()] *)
Definition or_default (s : option Settings) : Settings :=
  match s with
  | Some x => x
  | None => getDefaultSettings
  end.

(** [export async function getSettings()].  [now] is [Date.now()] on
    entry and [now'] is [Date.now()] after the query has resolved. *)
Definition getSettings (provider : nat -> ProviderResult)
           (now now' : Z) (st : State) : Exc Settings * State :=
  let fresh :=
    match cache st with
    | Some _ => now - loadedAt st <? TTL
    | None => false
    end in
  if fresh then (Return (or_default (cache st)), st)
  else
    let (r, st1) := findOne provider st in
    match r with
    | Return s =>
        let c := or_default s in
        (Return c, mkState (Some c) now' (queries st1))
    | Throw err =>
        (* catch (err) { return cache || getDefaultSettings(); } *)
        (Return (or_default (cache st1)), st1)
    end.

(** [export function clearSettingsCache()] *)
Definition clearSettingsCache (st : State) : State :=
  mkState None 0 (queries st).

End SettingsCache.

(* ================================================================== *)
(** ** The resolver as the specification words it *)
(* ================================================================== *)

Module ResolverSpec.

(** An [HH:MM] boundary: hours and minutes. *)
Definition HHMM := (nat * nat)%type.

Definition wf_hhmm (t : HHMM) : bool :=
  (fst t <? 24)%nat && (snd t <? 60)%nat.

Definition minutes_of (t : HHMM) : Z :=
  Z.of_nat (fst t) * 60 + Z.of_nat (snd t).

(** The [HH:MM] text of a boundary, zero padded. *)
Definition render (t : HHMM) : string :=
  padStart0 2 (String_of_nat (fst t)) ++ ":" ++
  padStart0 2 (String_of_nat (snd t)).

(** A tenant's windows: for each of breakfast, lunch and dinner an
    optional inclusive [start, end] pair. *)
Record Windows := mkW {
  breakfastW : option (HHMM * HHMM);
  lunchW : option (HHMM * HHMM);
  dinnerW : option (HHMM * HHMM)
}.

Definition wf_window (w : option (HHMM * HHMM)) : bool :=
  match w with
  | Some (s, e) => wf_hhmm s && wf_hhmm e
  | None => true
  end.

Definition wf (ws : Windows) : bool :=
  wf_window (breakfastW ws) && wf_window (lunchW ws) && wf_window (dinnerW ws).

Definition windowOf (ws : Windows) (mt : MealType) : option (HHMM * HHMM) :=
  match mt with
  | Breakfast => breakfastW ws
  | Lunch => lunchW ws
  | Dinner => dinnerW ws
  | _ => None
  end.

(** Time of day of an instant, in minutes since local midnight. *)
Definition timeOfDay (now : Date) : Z := getHours now * 60 + getMinutes now.

(** A window contains a time of day when it lies between the two
    boundaries, both included. *)
Definition contains (w : option (HHMM * HHMM)) (tod : Z) : bool :=
  match w with
  | Some (s, e) => (minutes_of s <=? tod) && (tod <=? minutes_of e)
  | None => false
  end.

Definition priority : list MealType := [Breakfast; Lunch; Dinner].

(** [resolve(now, windows)]: the first candidate, in priority order,
    whose window contains the time of day; none otherwise. *)
Definition resolve (now : Date) (ws : Windows) : option MealType :=
  find (fun mt => contains (windowOf ws mt) (timeOfDay now)) priority.

(** The settings document that stores these windows. *)
Definition stored (w : option (HHMM * HHMM)) : option MealWindow :=
  match w with
  | Some (s, e) => Some (window (render s) (render e))
  | None => None
  end.

Definition config_of (ws : Windows) : Settings :=
  mkSettings
    (Some (mkWindows (stored (breakfastW ws)) (stored (lunchW ws))
                     (stored (dinnerW ws))))
    None None None.

Definition lunch_only : Windows :=
  mkW None (Some ((12, 0), (15, 0))%nat) None.

End ResolverSpec.

(** The instant [h]:[m] of day zero, and the fixed windows of the
    hour-only resolver written as inclusive minute windows. *)
Definition at_hm (h m : Z) : Date := h * 3600000 + m * 60000.

Definition hour_windows : ResolverSpec.Windows :=
  ResolverSpec.mkW (Some ((6, 0), (10, 59))%nat)
                   (Some ((11, 0), (15, 59))%nat)
                   (Some ((16, 0), (21, 59))%nat).


(* ================================================================== *)
(** ** Node's [crypto] and [Buffer] primitives used by the codec *)
(* ================================================================== *)

Module Crypto.
Local Open Scope list_scope.

(** Bytes are integers in [0, 256); a string is read as its bytes. *)
Definition bytes_of_string (s : string) : list Z :=
  List.map (fun c => Z.of_N (N_of_ascii c)) (list_ascii_of_string s).

(** *** SHA-256 (FIPS 180-4) on 32-bit words held in [Z] *)

Definition w32 : Z := 4294967296.
Definition add32 (a b : Z) : Z := (a + b) mod w32.
Definition rotr (x n : Z) : Z :=
  Z.lor (Z.shiftr x n) ((Z.shiftl x (32 - n)) mod w32).
Definition Ch (x y z : Z) : Z :=
  Z.lxor (Z.land x y) (Z.land (Z.lxor x (w32 - 1)) z).
Definition Maj (x y z : Z) : Z :=
  Z.lxor (Z.lxor (Z.land x y) (Z.land x z)) (Z.land y z).
Definition bsig0 (x : Z) : Z := Z.lxor (Z.lxor (rotr x 2) (rotr x 13)) (rotr x 22).
Definition bsig1 (x : Z) : Z := Z.lxor (Z.lxor (rotr x 6) (rotr x 11)) (rotr x 25).
Definition ssig0 (x : Z) : Z := Z.lxor (Z.lxor (rotr x 7) (rotr x 18)) (Z.shiftr x 3).
Definition ssig1 (x : Z) : Z := Z.lxor (Z.lxor (rotr x 17) (rotr x 19)) (Z.shiftr x 10).

Definition K256 : list Z :=
  [
   1116352408; 1899447441; 3049323471; 3921009573; 961987163;
   1508970993; 2453635748; 2870763221; 3624381080; 310598401;
   607225278; 1426881987; 1925078388; 2162078206; 2614888103;
   3248222580; 3835390401; 4022224774; 264347078; 604807628;
   770255983; 1249150122; 1555081692; 1996064986; 2554220882;
   2821834349; 2952996808; 3210313671; 3336571891; 3584528711;
   113926993; 338241895; 666307205; 773529912; 1294757372;
   1396182291; 1695183700; 1986661051; 2177026350; 2456956037;
   2730485921; 2820302411; 3259730800; 3345764771; 3516065817;
   3600352804; 4094571909; 275423344; 430227734; 506948616;
   659060556; 883997877; 958139571; 1322822218; 1537002063;
   1747873779; 1955562222; 2024104815; 2227730452; 2361852424;
   2428436474; 2756734187; 3204031479; 3329325298
  ].

Definition State8 := (Z * Z * Z * Z * Z * Z * Z * Z)%type.

Definition H0 : State8 :=
  (1779033703, 3144134277, 1013904242, 2773480762,
   1359893119, 2600822924, 528734635, 1541459225).

(** The message schedule, newest word first. *)
Fixpoint extend (n : nat) (rev_ws : list Z) : list Z :=
  match n with
  | O => rev_ws
  | S k =>
      let w := add32 (add32 (ssig1 (nth 1 rev_ws 0)) (nth 6 rev_ws 0))
                     (add32 (ssig0 (nth 14 rev_ws 0)) (nth 15 rev_ws 0)) in
      extend k (w :: rev_ws)
  end.

Definition round (s : State8) (kw : Z * Z) : State8 :=
  let '(a, b, c, d, e, f, g, h) := s in
  let '(k, w) := kw in
  let t1 := add32 (add32 (add32 (add32 h (bsig1 e)) (Ch e f g)) k) w in
  let t2 := add32 (bsig0 a) (Maj a b c) in
  (add32 t1 t2, a, b, c, add32 d t1, e, f, g).

Definition compress (s : State8) (block : list Z) : State8 :=
  let ws := rev (extend 48 (rev block)) in
  let '(a, b, c, d, e, f, g, h) := fold_left round (combine K256 ws) s in
  let '(a0, b0, c0, d0, e0, f0, g0, h0) := s in
  (add32 a0 a, add32 b0 b, add32 c0 c, add32 d0 d,
   add32 e0 e, add32 f0 f, add32 g0 g, add32 h0 h).

(** Big-endian words of a byte list (whole words only). *)
Fixpoint words_of_bytes (bs : list Z) : list Z :=
  match bs with
  | b0 :: b1 :: b2 :: b3 :: rest =>
      (b0 * 16777216 + b1 * 65536 + b2 * 256 + b3) :: words_of_bytes rest
  | _ => []
  end.

Definition bytes_of_word (w : Z) : list Z :=
  [(w / 16777216) mod 256; (w / 65536) mod 256; (w / 256) mod 256; w mod 256].

Definition pad (msg : list Z) : list Z :=
  let len := Z.of_nat (List.length msg) in
  let zeros := Z.to_nat ((55 - len) mod 64) in
  let bits := len * 8 in
  msg ++ [128] ++ repeat 0 zeros
      ++ bytes_of_word (bits / w32) ++ bytes_of_word (bits mod w32).

Fixpoint blocks (n : nat) (s : State8) (ws : list Z) : State8 :=
  match n with
  | O => s
  | S k => blocks k (compress s (firstn 16 ws)) (skipn 16 ws)
  end.

Definition sha256 (msg : list Z) : list Z :=
  let ws := words_of_bytes (pad msg) in
  let '(a, b, c, d, e, f, g, h) :=
    blocks (List.length ws / 16) H0 ws in
  bytes_of_word a ++ bytes_of_word b ++ bytes_of_word c ++ bytes_of_word d ++
  bytes_of_word e ++ bytes_of_word f ++ bytes_of_word g ++ bytes_of_word h.

(** *** HMAC (RFC 2104) with SHA-256 *)

Definition hmac_sha256 (key msg : list Z) : list Z :=
  let k0 := if (64 <? List.length key)%nat then sha256 key else key in
  let k := k0 ++ repeat 0 (64 - List.length k0) in
  let ipad := List.map (Z.lxor 54) k in
  let opad := List.map (Z.lxor 92) k in
  sha256 (opad ++ sha256 (ipad ++ msg)).

(** *** Hex text *)

Definition hex_digit (n : Z) : ascii :=
  if n <? 10 then ascii_of_N (Z.to_N (48 + n)) else ascii_of_N (Z.to_N (87 + n)).

(** [buf.toString('hex')] / [digest('hex')]: lower case. *)
Fixpoint hex_encode (bs : list Z) : string :=
  match bs with
  | [] => EmptyString
  | b :: rest => String (hex_digit (b / 16)) (String (hex_digit (b mod 16)) (hex_encode rest))
  end.

(** Value of a hex digit, upper or lower case. *)
Definition unhex (c : ascii) : option Z :=
  let n := Z.of_N (N_of_ascii c) in
  if (48 <=? n) && (n <=? 57) then Some (n - 48)
  else if (97 <=? n) && (n <=? 102) then Some (n - 87)
  else if (65 <=? n) && (n <=? 70) then Some (n - 55)
  else None.

(** [Buffer.from(s, 'hex')]: whole pairs are decoded until the first
    pair with a character that is not a hex digit; a trailing single
    character is dropped. *)
Fixpoint hex_decode (s : string) : list Z :=
  match s with
  | String c1 (String c2 rest) =>
      match unhex c1, unhex c2 with
      | Some a, Some b => (a * 16 + b) :: hex_decode rest
      | _, _ => []
      end
  | _ => []
  end.

(** [crypto.createHmac('sha256', secret).update(msg).digest('hex')] for
    a string secret. *)
Definition hmac_hex (secret msg : string) : string :=
  hex_encode (hmac_sha256 (bytes_of_string secret) (bytes_of_string msg)).

Fixpoint bytes_eqb (a b : list Z) : bool :=
  match a, b with
  | [], [] => true
  | x :: a', y :: b' => (x =? y) && bytes_eqb a' b'
  | _, _ => false
  end.

End Crypto.


(* ================================================================== *)
(** ** JavaScript values, and the library functions taken as given *)
(* ================================================================== *)

(** Values that cross the codec: what [JSON.parse] can produce, plus
    [undefined].  [JReal] keeps the text of a number that is not an
    integer literal. *)
Inductive JsValue :=
| JUndefined
| JNull
| JBool (b : bool)
| JNum (n : Z)
| JReal (lexeme : string)
| JStr (s : string)
| JArr (items : list JsValue)
| JObj (fields : list (string * JsValue)).

(** [!!v] *)
Definition truthy (v : JsValue) : bool :=
  match v with
  | JUndefined | JNull => false
  | JBool b => b
  | JNum n => negb (n =? 0)
  | JStr s => negb (String.eqb s "")
  | JReal _ | JArr _ | JObj _ => true
  end.

Fixpoint assoc_last (k : string) (fs : list (string * JsValue))
  : option JsValue :=
  match fs with
  | [] => None
  | (k', v) :: rest =>
      match assoc_last k rest with
      | Some w => Some w
      | None => if String.eqb k k' then Some v else None
      end
  end.

(** [v.k] for own data properties; reading a property of [null] or
    [undefined] throws a [TypeError]. *)
Definition get_field (v : JsValue) (k : string) : Exc JsValue :=
  match v with
  | JUndefined | JNull =>
      Throw (mkError "Cannot read properties of null or undefined" "TypeError")
  | JObj fs =>
      match assoc_last k fs with
      | Some w => Return w
      | None => Return JUndefined
      end
  | _ => Return JUndefined
  end.

(** [v?.k] *)
Definition get_field_opt (v : JsValue) (k : string) : JsValue :=
  match get_field v k with
  | Return w => w
  | Throw _ => JUndefined
  end.

(** Library functions that are not code of this repository.  The
    embedding is parametric in them; [Reference.platform] below gives
    executable stand-ins used to run the model on concrete tokens. *)
Record Platform := mkPlatform {
  (** [Buffer.from(s, 'base64').toString('utf8')]: never throws. *)
  base64_to_utf8 : string -> string;
  (** [JSON.parse(text)]: throws a [SyntaxError] on malformed text. *)
  JSON_parse : string -> Exc JsValue;
  (** [jwt.verify(token, secret)] of jsonwebtoken at instant [now]. *)
  jwt_verify : string -> string -> Date -> Exc JsValue
}.

Module Reference.
Local Open Scope list_scope.

(** *** Base64, decoded leniently as Node does: characters outside the
    alphabet are skipped and decoding stops at the first [=]. *)

Definition sextet (c : ascii) : option Z :=
  let n := Z.of_N (N_of_ascii c) in
  if (65 <=? n) && (n <=? 90) then Some (n - 65)
  else if (97 <=? n) && (n <=? 122) then Some (n - 71)
  else if (48 <=? n) && (n <=? 57) then Some (n + 4)
  else if (n =? 43) || (n =? 45) then Some 62
  else if (n =? 47) || (n =? 95) then Some 63
  else None.

Fixpoint sextets (s : string) : list Z :=
  match s with
  | EmptyString => []
  | String c rest =>
      if Ascii.eqb c "="%char then []
      else match sextet c with
           | Some v => v :: sextets rest
           | None => sextets rest
           end
  end.

Fixpoint group4 (n : nat) (vs : list Z) : list Z :=
  match n with
  | O => []
  | S k =>
      match vs with
      | a :: b :: c :: d :: rest =>
          (a * 4 + b / 16) :: ((b mod 16) * 16 + c / 4)
            :: ((c mod 4) * 64 + d) :: group4 k rest
      | [a; b; c] => [a * 4 + b / 16; (b mod 16) * 16 + c / 4]
      | [a; b] => [a * 4 + b / 16]
      | _ => []
      end
  end.

Definition string_of_bytes (bs : list Z) : string :=
  string_of_list_ascii (List.map (fun b => ascii_of_N (Z.to_N b)) bs).

Definition base64_decode (s : string) : string :=
  let vs := sextets s in
  string_of_bytes (group4 (S (List.length vs)) vs).

(** *** A JSON reader for objects, arrays, strings with the simple
    escapes, numbers, [true], [false] and [null]. *)

Definition syntax_error : Error :=
  mkError "Unexpected token in JSON" "SyntaxError".

Definition is_ws (c : ascii) : bool :=
  let n := N_of_ascii c in
  (n =? 32)%N || (n =? 10)%N || (n =? 13)%N || (n =? 9)%N.

Fixpoint skip_ws (s : string) : string :=
  match s with
  | String c rest => if is_ws c then skip_ws rest else s
  | EmptyString => s
  end.

Definition dquote : ascii := ascii_of_N 34.

Definition is_digit (c : ascii) : bool :=
  let n := N_of_ascii c in (48 <=? n)%N && (n <=? 57)%N.

(** Characters of a string literal up to the closing quote. *)
Fixpoint read_string (s : string) : option (string * string) :=
  match s with
  | EmptyString => None
  | String c rest =>
      if Ascii.eqb c dquote then Some (EmptyString, rest)
      else if (N_of_ascii c <? 32)%N then None
      else if Ascii.eqb c "\"%char then
        match rest with
        | String e rest' =>
            let out :=
              if Ascii.eqb e dquote then Some dquote
              else if Ascii.eqb e "\"%char then Some "\"%char
              else if Ascii.eqb e "/"%char then Some "/"%char
              else if Ascii.eqb e "n"%char then Some (ascii_of_N 10)
              else if Ascii.eqb e "r"%char then Some (ascii_of_N 13)
              else if Ascii.eqb e "t"%char then Some (ascii_of_N 9)
              else if Ascii.eqb e "b"%char then Some (ascii_of_N 8)
              else if Ascii.eqb e "f"%char then Some (ascii_of_N 12)
              else None in
            match out, read_string rest' with
            | Some x, Some (str, tail) => Some (String x str, tail)
            | _, _ => None
            end
        | EmptyString => None
        end
      else
        match read_string rest with
        | Some (str, tail) => Some (String c str, tail)
        | None => None
        end
  end.

Fixpoint take_digits (s : string) : string * string :=
  match s with
  | String c rest =>
      if is_digit c then
        let (ds, tail) := take_digits rest in (String c ds, tail)
      else (EmptyString, s)
  | EmptyString => (EmptyString, s)
  end.

Fixpoint digits_value (acc : Z) (ds : string) : Z :=
  match ds with
  | String c rest => digits_value (acc * 10 + (Z.of_N (N_of_ascii c) - 48)) rest
  | EmptyString => acc
  end.

(** An optional minus sign and an integer part without leading zero;
    a fraction or exponent that follows is kept as text in [JReal]. *)
Definition read_number (s : string) : option (JsValue * string) :=
  let (neg, s1) :=
    match s with
    | String "-"%char r => (true, r)
    | _ => (false, s)
    end in
  let (ds, tail) := take_digits s1 in
  match ds with
  | EmptyString => None
  | String "0"%char (String _ _) => None
  | _ =>
      let frac :=
        match tail with
        | String "."%char r =>
            let (fs, t2) := take_digits r in
            match fs with
            | EmptyString => None
            | _ => Some (String "."%char fs, t2)
            end
        | _ => Some (EmptyString, tail)
        end in
      match frac with
      | None => None
      | Some (ftxt, t2) =>
          let expo :=
            match t2 with
            | String c r =>
                if Ascii.eqb c "e"%char || Ascii.eqb c "E"%char then
                  let (sgn, r1) :=
                    match r with
                    | String "+"%char r' => ("+", r')
                    | String "-"%char r' => ("-", r')
                    | _ => ("", r)
                    end in
                  let (es, t3) := take_digits r1 in
                  match es with
                  | EmptyString => None
                  | _ => Some (String c (sgn ++ es), t3)
                  end
                else Some (EmptyString, t2)
            | EmptyString => Some (EmptyString, t2)
            end in
          match expo with
          | None => None
          | Some (etxt, t3) =>
              match ftxt, etxt with
              | EmptyString, EmptyString =>
                  let v := digits_value 0 ds in
                  Some (JNum (if neg then - v else v), t3)
              | _, _ =>
                  Some (JReal ((if neg then "-" else "") ++ ds ++ ftxt ++ etxt), t3)
              end
          end
      end
  end.

Fixpoint strip_prefix (pre s : string) : option string :=
  match pre, s with
  | EmptyString, _ => Some s
  | String a pre', String b s' =>
      if Ascii.eqb a b then strip_prefix pre' s' else None
  | _, EmptyString => None
  end.

Fixpoint read_value (fuel : nat) (s : string) : option (JsValue * string) :=
  match fuel with
  | O => None
  | S f =>
      match skip_ws s with
      | EmptyString => None
      | String c r as s' =>
          if Ascii.eqb c "{"%char then
            match skip_ws r with
            | String "}"%char r' => Some (JObj [], r')
            | _ => read_members f r []
            end
          else if Ascii.eqb c "["%char then
            match skip_ws r with
            | String "]"%char r' => Some (JArr [], r')
            | _ => read_items f r []
            end
          else if Ascii.eqb c dquote then
            match read_string r with
            | Some (str, tail) => Some (JStr str, tail)
            | None => None
            end
          else
            match strip_prefix "true" s', strip_prefix "false" s',
                  strip_prefix "null" s' with
            | Some r', _, _ => Some (JBool true, r')
            | _, Some r', _ => Some (JBool false, r')
            | _, _, Some r' => Some (JNull, r')
            | _, _, _ => read_number s'
            end
      end
  end
with read_members (fuel : nat) (s : string) (acc : list (string * JsValue))
  : option (JsValue * string) :=
  match fuel with
  | O => None
  | S f =>
      match skip_ws s with
      | EmptyString => None
      | String c r =>
          if Ascii.eqb c dquote then
            match read_string r with
            | Some (key, tail) =>
                match skip_ws tail with
                | String ":"%char r2 =>
                    match read_value f r2 with
                    | Some (v, r3) =>
                        match skip_ws r3 with
                        | String ","%char r4 =>
                            read_members f r4 (acc ++ [(key, v)])
                        | String "}"%char r4 =>
                            Some (JObj (acc ++ [(key, v)]), r4)
                        | _ => None
                        end
                    | None => None
                    end
                | _ => None
                end
            | None => None
            end
          else None
      end
  end
with read_items (fuel : nat) (s : string) (acc : list JsValue)
  : option (JsValue * string) :=
  match fuel with
  | O => None
  | S f =>
      match read_value f s with
      | Some (v, r) =>
          match skip_ws r with
          | String ","%char r2 => read_items f r2 (acc ++ [v])
          | String "]"%char r2 => Some (JArr (acc ++ [v]), r2)
          | _ => None
          end
      | None => None
      end
  end.

(** A reader for the JSON texts of the worked examples, not
    [JSON.parse] itself: it knows no [\u] escapes and keeps integers
    exact where [JSON.parse] gives doubles.  The general statements
    take the platform as a parameter; this reader only serves the
    sample runs. *)
Definition json_parse (text : string) : Exc JsValue :=
  match read_value (S (String.length text)) text with
  | Some (v, rest) =>
      match skip_ws rest with
      | EmptyString => Return v
      | _ => Throw syntax_error
      end
  | None => Throw syntax_error
  end.

(** A table-driven stand-in for jsonwebtoken: the listed tokens verify
    to the listed payloads, every other token is rejected. *)
Definition jwt_table (table : list (string * JsValue))
  (token secret : string) (now : Date) : Exc JsValue :=
  match List.find (fun kv => String.eqb (fst kv) token) table with
  | Some kv => Return (snd kv)
  | None => Throw (mkError "invalid token" "JsonWebTokenError")
  end.

Definition platform (table : list (string * JsValue)) : Platform :=
  mkPlatform base64_decode json_parse (jwt_table table).

End Reference.


(* ================================================================== *)
(** ** utils/qr.js : the signed QR credential *)
(* ================================================================== *)

Module Qr.
Local Open Scope list_scope.

(** Calls into [crypto] and [JSON] are recorded, in order, in a ghost
    trace, so that "the MAC is checked before anything is parsed" can be
    stated. *)
Inductive Event :=
| EvHmac (msg : string)
| EvTimingSafeEqual (a b : list Z) (equal : bool)
| EvTimingSafeEqualThrows (a b : list Z)
| EvJsonParse (text : string).

Definition M (A : Type) : Type := list Event -> Exc A * list Event.

Definition ret {A} (a : A) : M A := fun tr => (Return a, tr).
Definition throw {A} (e : Error) : M A := fun tr => (Throw e, tr).
Definition emit (ev : Event) : M unit := fun tr => (Return tt, tr ++ [ev]).

Definition mbind {A B} (m : M A) (k : A -> M B) : M B :=
  fun tr =>
    match m tr with
    | (Return a, tr') => k a tr'
    | (Throw e, tr') => (Throw e, tr')
    end.

Definition mcatch {A} (body : M A) (handler : Error -> M A) : M A :=
  fun tr =>
    match body tr with
    | (Return a, tr') => (Return a, tr')
    | (Throw e, tr') => handler e tr'
    end.

Definition lift {A} (x : Exc A) : M A := fun tr => (x, tr).

Notation "x <-- m ;; k" := (mbind m (fun x => k))
  (at level 61, m at next level, right associativity).

Inductive VerifyResult :=
| Valid (payload : JsValue)      (* { valid: true, payload } *)
| Invalid (error : string).      (* { valid: false, error } *)

(** [s.split('.')]: the segments between dots, at least one. *)
Fixpoint split_dot_aux (cur : string -> string) (s : string) : list string :=
  match s with
  | EmptyString => [cur EmptyString]
  | String c rest =>
      if Ascii.eqb c "."%char
      then cur EmptyString :: split_dot_aux (fun x => x) rest
      else split_dot_aux (fun x => cur (String c x)) rest
  end.

Definition split_dot (s : string) : list string :=
  split_dot_aux (fun x => x) s.

(** [crypto.createHmac('sha256', secret).update(msg).digest('hex')]:
    a missing secret is a [TypeError]. *)
Definition createHmac_digest_hex (secret : option string) (msg : string)
  : M string :=
  match secret with
  | None =>
      throw (mkError "The key argument must be of type string" "ERR_INVALID_ARG_TYPE")
  | Some k =>
      _ <-- emit (EvHmac msg) ;;
      ret (Crypto.hmac_hex k msg)
  end.

Definition length_error : Error :=
  mkError "Input buffers must have the same byte length"
          "ERR_CRYPTO_TIMING_SAFE_EQUAL_LENGTH".

(** [crypto.timingSafeEqual(a, b)]: a [RangeError] when the two buffers
    differ in length. *)
Definition timingSafeEqual (a b : list Z) : M bool :=
  if Nat.eqb (List.length a) (List.length b)
  then _ <-- emit (EvTimingSafeEqual a b (Crypto.bytes_eqb a b)) ;;
       ret (Crypto.bytes_eqb a b)
  else _ <-- emit (EvTimingSafeEqualThrows a b) ;;
       throw length_error.

Definition parse_json (P : Platform) (text : string) : M JsValue :=
  _ <-- emit (EvJsonParse text) ;;
  lift (JSON_parse P text).

Definition nth_segment (n : nat) (parts : list string) : option string :=
  nth_error parts n.

(** The [try] block of [verifyQrToken]. *)
Definition verifyQrToken_try (P : Platform) (token : JsValue)
           (secret : option string) : M VerifyResult :=
  match token with
  | JStr t =>
      if negb (truthy token) then ret (Invalid "Invalid token type")
      else
        (* const [payloadB64, signature] = token.split('.') *)
        let parts := split_dot t in
        let payloadB64 := nth_segment 0 parts in
        let signature := nth_segment 1 parts in
        if negb (truthy_str payloadB64) || negb (truthy_str signature)
        then ret (Invalid "Missing payload or signature")
        else
          match payloadB64, signature with
          | Some payloadB64, Some signature =>
              expected <-- createHmac_digest_hex secret payloadB64 ;;
              same <-- timingSafeEqual (Crypto.hex_decode expected)
                                       (Crypto.hex_decode signature) ;;
              if negb same then ret (Invalid "Signature mismatch")
              else
                payload <-- parse_json P (base64_to_utf8 P payloadB64) ;;
                ret (Valid payload)
          | _, _ => ret (Invalid "Missing payload or signature")
          end
  | _ => ret (Invalid "Invalid token type")
  end.

(** [export function verifyQrToken(token, secret)] *)
Definition verifyQrToken (P : Platform) (token : JsValue)
           (secret : option string) : M VerifyResult :=
  mcatch (verifyQrToken_try P token secret)
         (fun err => ret (Invalid (message err))).

(** The result alone, on an empty trace. *)
Definition verify (P : Platform) (token : string) (secret : string)
  : Exc VerifyResult :=
  fst (verifyQrToken P (JStr token) (Some secret) []).

(** Flipping bit [i mod 8] of character [i / 8]. *)
Definition flip_in_char (c : ascii) (bit : nat) : ascii :=
  ascii_of_N (N.lxor (N_of_ascii c) (N.shiftl 1 (N.of_nat bit))).

Fixpoint flip_bit (s : string) (i : nat) : string :=
  match s with
  | EmptyString => EmptyString
  | String c rest =>
      if (i <? 8)%nat then String (flip_in_char c i) rest
      else String c (flip_bit rest (i - 8))
  end.

Fixpoint has_dot (s : string) : bool :=
  match s with
  | EmptyString => false
  | String c rest => Ascii.eqb c "."%char || has_dot rest
  end.

(** The trace holds no parse. *)
Definition never_parsed (tr : list Event) : Prop :=
  forall text, ~ In (EvJsonParse text) tr.

End Qr.


(** The credential used in the worked examples: payload
    [{"qrCodeId":"abc???"}] signed with the secret [s3cret]. *)
Definition sample_payloadB64 : string := "eyJxckNvZGVJZCI6ImFiYz8/PyJ9".
Definition sample_secret : string := "s3cret".
Definition sample_signature : string :=
  "a9f969f44b4a4d0b947b9ef6be606a7e51418c0af99ce6f67f74570683fca04d".
Definition sample_token : string :=
  sample_payloadB64 ++ "." ++ sample_signature.
Definition ref_platform : Platform := Reference.platform [].


(* ================================================================== *)
(** ** The document store *)
(* ================================================================== *)

(** State-and-exception monad for code that awaits the store: effects
    made before a throw stay made. *)
Module SE.

Definition SE (S A : Type) : Type := S -> Exc A * S.

Definition ret {S A} (a : A) : SE S A := fun s => (Return a, s).
Definition throw {S A} (e : Error) : SE S A := fun s => (Throw e, s).
Definition get {S} : SE S S := fun s => (Return s, s).
Definition put {S} (s' : S) : SE S unit := fun _ => (Return tt, s').

Definition bind {S A B} (m : SE S A) (k : A -> SE S B) : SE S B :=
  fun s =>
    match m s with
    | (Return a, s') => k a s'
    | (Throw e, s') => (Throw e, s')
    end.

(** [try { body } catch (e) { handler e }] *)
Definition catch {S A} (body : SE S A) (handler : Error -> SE S A) : SE S A :=
  fun s =>
    match body s with
    | (Return a, s') => (Return a, s')
    | (Throw e, s') => handler e s'
    end.

Definition lift {S A} (x : Exc A) : SE S A := fun s => (x, s).

(** [return promise] in an [async] function: the function settles as
    the promise it returns does.  The promise is not awaited, so its
    rejection is outside every [try] of the function. *)
Definition join {S A} (m : SE S (SE S A)) : SE S A := bind m (fun k => k).

End SE.

Notation "x <~ m ;; k" := (SE.bind m (fun x => k))
  (at level 61, m at next level, right associativity).
Notation "m ;;> k" := (SE.bind m (fun _ => k))
  (at level 61, right associativity).

Definition Id := nat.

Definition mealName (m : MealType) : string :=
  match m with
  | Breakfast => "breakfast"
  | Lunch => "lunch"
  | Dinner => "dinner"
  | Snack => "snack"
  | UnknownMeal => "unknown"
  end.

Module Db.
Local Open Scope list_scope.

(** *** models/Customer.js *)
Record Customer := mkCustomer {
  c_id : Id;
  c_messId : Id;
  c_qrCodeId : string;
  c_active : bool;
  c_autoRenew : bool;
  c_preferredPaymentMethod : string;
  c_upiId : option string;
  c_billingAmount : Z;
  c_billingCycleMeals : Z;
  c_ledger : list (Z * string);
  c_lastPaymentAt : option Date
}.

(** *** models/Plan.js, as populated into a subscription *)
Record Plan := mkPlan {
  p_mealTypes : option (list string)
}.

(** *** models/Subscription.js *)
Record MealBalances := mkBalances {
  b_breakfast : Z;
  b_lunch : Z;
  b_dinner : Z;
  b_snack : Z
}.

Record Subscription := mkSubscription {
  s_id : Id;
  s_messId : Id;
  s_customerId : Id;
  s_planId : option Plan;
  s_mealsTotal : Z;
  s_mealsRemaining : Z;
  s_mealBalances : option MealBalances;
  s_startDate : Date;
  s_endDate : Date;
  s_active : bool;
  s_needsRenewal : bool;
  s_pausedAt : option Date;
  s_createdAt : Date;
  s_updatedAt : Date
}.

(** *** models/MealTransaction.js *)
Inductive TxStatus := TxSuccess | TxBlocked | TxFailed | TxDuplicate.

Definition TxStatus_eqb (a b : TxStatus) : bool :=
  match a, b with
  | TxSuccess, TxSuccess | TxBlocked, TxBlocked
  | TxFailed, TxFailed | TxDuplicate, TxDuplicate => true
  | _, _ => false
  end.

Record Tx := mkTx {
  t_id : Id;
  t_messId : option Id;
  t_customerId : option Id;
  t_subscriptionId : option Id;
  t_scannedByUserId : option Id;
  t_staffId : option Id;
  t_mealType : MealType;
  t_status : TxStatus;
  t_timestamp : Date;
  t_qrCodeId : option string;
  t_mealsRemainingBefore : option Z;
  t_mealsRemainingAfter : option Z;
  t_failureReason : option string;
  t_duplicateOfTransaction : option Id;
  t_clientTimestamp : option Date;
  t_clientId : option string;
  t_syncedAt : option Date
}.

(** *** models/AuditLog.js (only the fields the scan code sets) *)
Record Audit := mkAudit {
  a_messId : option Id;
  a_action : string;
  a_userId : option Id;
  a_targetId : option Id
}.

Record DB := mkDB {
  customers : list Customer;
  subscriptions : list Subscription;
  transactions : list Tx;
  auditLogs : list Audit;
  next_id : Id
}.

Definition M (A : Type) : Type := SE.SE DB A.

Definition present {A} (x : option A) : bool :=
  match x with Some _ => true | None => false end.

Definition opt_id_eqb (x : option Id) (y : Id) : bool :=
  match x with Some a => Nat.eqb a y | None => false end.

Definition validation_error (model : string) : Error :=
  mkError (model ++ " validation failed") "ValidationError".

Definition duplicate_key_error : Error :=
  mkError "E11000 duplicate key error collection" "11000".

(** The [enum] of [failureReason] in the transaction schema. *)
Definition failureReason_enum : list string :=
  ["no_subscription"; "subscription_expired"; "no_meals_remaining";
   "duplicate_scan"; "invalid_meal_window"; "invalid_qr";
   "customer_inactive"; "subscription_paused"].

Definition in_enum (s : string) (l : list string) : bool :=
  existsb (String.eqb s) l.

(** The [required] and [enum] validators of the transaction schema. *)
Definition tx_valid (t : Tx) : bool :=
  present (t_messId t) && present (t_customerId t) &&
  present (t_subscriptionId t) && present (t_scannedByUserId t) &&
  present (t_staffId t) &&
  match t_mealType t with
  | Breakfast | Lunch | Dinner => true
  | _ => false
  end &&
  truthy_str (t_qrCodeId t) &&
  present (t_mealsRemainingBefore t) && present (t_mealsRemainingAfter t) &&
  match t_failureReason t with
  | Some r => in_enum r failureReason_enum
  | None => true
  end.

(** The unique partial index [idempotency_key] on
    [(customerId, mealType, status)] restricted to [status: 'success']. *)
Definition idempotency_clash (t : Tx) (txs : list Tx) : bool :=
  TxStatus_eqb (t_status t) TxSuccess &&
  existsb (fun u =>
             TxStatus_eqb (t_status u) TxSuccess &&
             MealType_eqb (t_mealType u) (t_mealType t) &&
             match t_customerId u, t_customerId t with
             | Some a, Some b => Nat.eqb a b
             | _, _ => false
             end) txs.

Definition with_id (t : Tx) (i : Id) : Tx :=
  mkTx i (t_messId t) (t_customerId t) (t_subscriptionId t)
       (t_scannedByUserId t) (t_staffId t) (t_mealType t) (t_status t)
       (t_timestamp t) (t_qrCodeId t) (t_mealsRemainingBefore t)
       (t_mealsRemainingAfter t) (t_failureReason t)
       (t_duplicateOfTransaction t) (t_clientTimestamp t) (t_clientId t)
       (t_syncedAt t).

Definition set_transactions (db : DB) (txs : list Tx) (n : Id) : DB :=
  mkDB (customers db) (subscriptions db) txs (auditLogs db) n.

Definition set_subscriptions (db : DB) (ss : list Subscription) : DB :=
  mkDB (customers db) ss (transactions db) (auditLogs db) (next_id db).

Definition set_customers (db : DB) (cs : list Customer) : DB :=
  mkDB cs (subscriptions db) (transactions db) (auditLogs db) (next_id db).

(** [MealTransaction.create(doc)] / [new MealTransaction(doc).save()].
    [idx] tells whether the unique index is built in the deployment. *)
Definition MealTransaction_create (idx : bool) (t : Tx) : M Tx :=
  fun db =>
    if negb (tx_valid t) then (Throw (validation_error "MealTransaction"), db)
    else if idx && idempotency_clash t (transactions db)
    then (Throw duplicate_key_error, db)
    else
      let t' := with_id t (next_id db) in
      (Return t', set_transactions db (transactions db ++ [t']) (S (next_id db))).

(** [AuditLog.create(doc)]: [messId] is required. *)
Definition AuditLog_create (a : Audit) : M unit :=
  fun db =>
    if present (a_messId a)
    then (Return tt,
          mkDB (customers db) (subscriptions db) (transactions db)
               (auditLogs db ++ [a]) (next_id db))
    else (Throw (validation_error "AuditLog"), db).

(** [findOne(filter)] in natural order. *)
Definition findOne {A} (filter : A -> bool) (coll : list A) : option A :=
  List.find filter coll.

(** [findOne(filter).sort({key: -1})]: a match with the greatest key,
    the earliest such in natural order. *)
Fixpoint findOne_desc {A} (key : A -> Z) (filter : A -> bool)
         (coll : list A) : option A :=
  match coll with
  | [] => None
  | x :: rest =>
      if filter x then
        match findOne_desc key filter rest with
        | Some y => if key x <? key y then Some y else Some x
        | None => Some x
        end
      else findOne_desc key filter rest
  end.

(** Apply [upd] to the first document passing [filter]; the updated
    document is returned ([{ new: true }]), [None] when nothing matches. *)
Fixpoint update_first {A} (filter : A -> bool) (upd : A -> A)
         (coll : list A) : option A * list A :=
  match coll with
  | [] => (None, [])
  | x :: rest =>
      if filter x then (Some (upd x), upd x :: rest)
      else let (r, rest') := update_first filter upd rest in (r, x :: rest')
  end.

(** [Subscription.findOneAndUpdate(filter, update, { new: true })] *)
Definition Subscription_findOneAndUpdate
           (filter : Subscription -> bool) (upd : Subscription -> Subscription)
  : M (option Subscription) :=
  fun db =>
    let (r, ss) := update_first filter upd (subscriptions db) in
    (Return r, set_subscriptions db ss).

Definition set_mealsRemaining (s : Subscription) (v : Z) (now : Date)
  : Subscription :=
  mkSubscription (s_id s) (s_messId s) (s_customerId s) (s_planId s)
    (s_mealsTotal s) v (s_mealBalances s) (s_startDate s) (s_endDate s)
    (s_active s) (s_needsRenewal s) (s_pausedAt s)
    (s_createdAt s) now.

Definition set_mealBalances (s : Subscription) (b : option MealBalances)
           (now : Date) : Subscription :=
  mkSubscription (s_id s) (s_messId s) (s_customerId s) (s_planId s)
    (s_mealsTotal s) (s_mealsRemaining s) b (s_startDate s) (s_endDate s)
    (s_active s) (s_needsRenewal s) (s_pausedAt s)
    (s_createdAt s) now.

Definition set_active (s : Subscription) (v : bool) (now : Date)
  : Subscription :=
  mkSubscription (s_id s) (s_messId s) (s_customerId s) (s_planId s)
    (s_mealsTotal s) (s_mealsRemaining s) (s_mealBalances s) (s_startDate s)
    (s_endDate s) v (s_needsRenewal s) (s_pausedAt s)
    (s_createdAt s) now.

Definition set_needsRenewal (s : Subscription) (v : bool) (now : Date)
  : Subscription :=
  mkSubscription (s_id s) (s_messId s) (s_customerId s) (s_planId s)
    (s_mealsTotal s) (s_mealsRemaining s) (s_mealBalances s) (s_startDate s)
    (s_endDate s) (s_active s) v (s_pausedAt s)
    (s_createdAt s) now.

(** [mealBalances[mealType]]; [undefined] for a key the schema lacks. *)
Definition balance_of (b : MealBalances) (m : MealType) : option Z :=
  match m with
  | Breakfast => Some (b_breakfast b)
  | Lunch => Some (b_lunch b)
  | Dinner => Some (b_dinner b)
  | Snack => Some (b_snack b)
  | UnknownMeal => None
  end.

Definition inc_balance (b : MealBalances) (m : MealType) (d : Z)
  : MealBalances :=
  match m with
  | Breakfast => mkBalances (b_breakfast b + d) (b_lunch b) (b_dinner b) (b_snack b)
  | Lunch => mkBalances (b_breakfast b) (b_lunch b + d) (b_dinner b) (b_snack b)
  | Dinner => mkBalances (b_breakfast b) (b_lunch b) (b_dinner b + d) (b_snack b)
  | Snack => mkBalances (b_breakfast b) (b_lunch b) (b_dinner b) (b_snack b + d)
  | UnknownMeal => b
  end.

(** [{ 'mealBalances.<type>': { $gt: 0 } }] against a stored document. *)
Definition balance_gt0 (s : Subscription) (m : MealType) : bool :=
  match s_mealBalances s with
  | Some b => match balance_of b m with
              | Some v => 0 <? v
              | None => false
              end
  | None => false
  end.

(** The [min: 0] validators of [mealsTotal] and [mealsRemaining], run
    by [save()]. *)
Definition subscription_valid (s : Subscription) : bool :=
  (0 <=? s_mealsTotal s) && (0 <=? s_mealsRemaining s).

(** [doc.save()] of an in-memory subscription after some fields were
    assigned: the document is validated, then the assigned fields are
    written with [updateOne({_id}, {$set: ...})], whatever the stored
    document holds by then.  [doc] is the in-memory document and [upd]
    writes the assigned fields. *)
Definition Subscription_save (doc : Subscription)
           (upd : Subscription -> Subscription) : M unit :=
  fun db =>
    if negb (subscription_valid doc)
    then (Throw (validation_error "Subscription"), db)
    else
      let (_, ss) := update_first (fun s => Nat.eqb (s_id s) (s_id doc)) upd
                                  (subscriptions db) in
      (Return tt, set_subscriptions db ss).

Definition lookup_subscription (db : DB) (id : Id) : option Subscription :=
  findOne (fun s => Nat.eqb (s_id s) id) (subscriptions db).

End Db.

(* ================================================================== *)
(** ** models/Subscription.js : methods *)
(* ================================================================== *)

Module SubscriptionModel.
Import Db.

(** [subscriptionSchema.methods.deductMeal = async function(mealType)].
    [this] is the in-memory document; the update runs against the
    store. *)
Definition deductMeal (this : Subscription) (mealType : option MealType)
           (now : Date) : M (option Subscription) :=
  match s_mealBalances this, mealType with
  | Some _, Some mt =>
      (* New system: deduct from mealBalances *)
      Subscription_findOneAndUpdate
        (fun s => Nat.eqb (s_id s) (s_id this) && balance_gt0 s mt && s_active s)
        (fun s => set_mealBalances s
                    (option_map (fun b => inc_balance b mt (-1)) (s_mealBalances s))
                    now)
  | _, _ =>
      (* Legacy system: deduct from mealsRemaining *)
      Subscription_findOneAndUpdate
        (fun s => Nat.eqb (s_id s) (s_id this) && (0 <? s_mealsRemaining s)
                  && s_active s)
        (fun s => set_mealsRemaining s (s_mealsRemaining s - 1) now)
  end.

End SubscriptionModel.


(* ================================================================== *)
(** ** services/scanCore.js *)
(* ================================================================== *)

Module ScanCore.
Import Db.
Local Open Scope list_scope.

Record Args := mkArgs {
  customerId : Id;
  staffId : option Id;
  mealType : option MealType;
  clientTime : option Date      (* defaults to [new Date()] *)
}.

Inductive Result :=
| Failure (status message : string)
| Success (transaction : Tx) (mealsRemaining : Z) (needsRenewal : bool)
          (mealType : MealType) (autoRenewed : bool).

(** The transaction documents this service builds: no [messId], and of
    the balance fields only what the success record sets. *)
Definition tx_doc (a : Args) (c : Customer) (sub : option Id) (mt : MealType)
           (st : TxStatus) (reason : option string) (dup : option Id)
           (before after : option Z) (qr : option string) (now : Date) : Tx :=
  mkTx 0%nat None (Some (c_id c)) sub (staffId a) (staffId a) mt st
       (match clientTime a with Some t => t | None => now end)
       qr before after reason dup None None None.

(** [Notification.create({title, body, level, customerId, data})]: the
    schema requires [messId], [type] and [message], none of which is
    passed. *)
Definition Notification_create : M unit :=
  SE.throw (validation_error "Notification").

(** [customer.save()] after the ledger push. *)
Definition Customer_save (c : Customer) : M unit :=
  fun db =>
    let (_, cs) := update_first (fun x => Nat.eqb (c_id x) (c_id c))
                                (fun _ => c) (customers db) in
    (Return tt, set_customers db cs).

(** [function hasPaymentInfo(customer)] *)
Definition hasPaymentInfo (c : Customer) : bool :=
  truthy_str (c_upiId c) || String.eqb (c_preferredPaymentMethod c) "CASH".

Definition renewed (s : Subscription) (newMeals : Z) (now : Date)
  : Subscription :=
  mkSubscription (s_id s) (s_messId s) (s_customerId s) (s_planId s)
    newMeals newMeals (s_mealBalances s) (s_startDate s)
    (now + 30 * 24 * 60 * 60 * 1000)
    (s_active s) false (s_pausedAt s)
    (s_createdAt s) now.

(** [async function createRenewalSubscription(customer, oldSubscription)] *)
Definition createRenewalSubscription (c : Customer) (old : Subscription)
           (now : Date) : M Subscription :=
  let newMeals := or_num (Some (c_billingCycleMeals c)) 30 in
  let doc := renewed old newMeals now in
  Subscription_save doc (fun s => renewed s newMeals now) ;;>
  SE.ret doc.

(** What the checks of [processScan] hand over to the deduction. *)
Inductive Checked :=
| Done (r : Result)
| Proceed (customer : Customer) (subscription : Subscription)
          (resolvedMealType : MealType).

(** [processScan] up to and including the "Check meals remaining" test.
    [settings] is what [getSettings()] resolved to. *)
Definition processScan_checks (idx : bool) (settings : Settings) (a : Args)
           (now : Date) : M Checked :=
  db <~ SE.get ;;
  match findOne (fun c => Nat.eqb (c_id c) (customerId a)) (customers db) with
  | None => SE.ret (Done (Failure "INVALID" "Customer not found"))
  | Some customer =>
      if negb (c_active customer)
      then SE.ret (Done (Failure "INVALID" "Customer inactive"))
      else
        match findOne_desc s_createdAt
                (fun s => Nat.eqb (s_customerId s) (c_id customer) && s_active s)
                (subscriptions db) with
        | None =>
            MealTransaction_create idx
              (tx_doc a customer None
                 (match mealType a with Some m => m | None => Lunch end)
                 TxFailed (Some "no_subscription") None None None None now) ;;>
            SE.ret (Done (Failure "INVALID" "No active subscription"))
        | Some subscription =>
            (* Determine meal type if not provided *)
            let resolvedMealType :=
              match mealType a with
              | Some m => Some m
              | None => MealTypeHelper.determineMealType settings now
              end in
            match resolvedMealType with
            | None =>
                MealTransaction_create idx
                  (tx_doc a customer (Some (s_id subscription)) Lunch TxFailed
                     (Some "invalid_meal_window") None None None None now) ;;>
                SE.ret (Done (Failure "WINDOW_CLOSED" "Outside meal window"))
            | Some mt =>
                (* Duplicate check *)
                let windowSec := or_num (doubleScanWindowSeconds settings) 30 in
                let windowStart := now - windowSec * 1000 in
                db1 <~ SE.get ;;
                match findOne
                        (fun t => opt_id_eqb (t_customerId t) (c_id customer)
                                  && MealType_eqb (t_mealType t) mt
                                  && (windowStart <=? t_timestamp t)
                                  && TxStatus_eqb (t_status t) TxSuccess)
                        (transactions db1) with
                | Some duplicate =>
                    MealTransaction_create idx
                      (tx_doc a customer (Some (s_id subscription)) mt
                         TxDuplicate None (Some (t_id duplicate))
                         None None None now) ;;>
                    SE.ret (Done (Failure "ALREADY_USED"
                                          "Already scanned for this meal"))
                | None =>
                    (* Check meals remaining *)
                    if s_mealsRemaining subscription <=? 0 then
                      MealTransaction_create idx
                        (tx_doc a customer (Some (s_id subscription)) mt
                           TxFailed (Some "no_meals_remaining") None
                           None None None now) ;;>
                      SE.ret (Done (Failure "EXPIRED" "No meals remaining"))
                    else SE.ret (Proceed customer subscription mt)
                end
            end
        end
  end.

(** [processScan] from the comment "Atomic deduction" on.  [customer]
    and [subscription] are the documents read by the checks. *)
Definition processScan_deduct (idx : bool) (a : Args) (customer : Customer)
           (subscription : Subscription) (mt : MealType) (now : Date)
  : M Result :=
  (* Atomic deduction *)
  let mealsRemainingBefore := s_mealsRemaining subscription in
  let remaining := Z.max 0 (s_mealsRemaining subscription - 1) in
  let subscription1 := set_mealsRemaining subscription remaining now in
  Subscription_save subscription1
    (fun s => set_mealsRemaining s remaining now) ;;>
  (* Create successful transaction *)
  mealTx <~ MealTransaction_create idx
              (tx_doc a customer (Some (s_id subscription)) mt TxSuccess None
                 None (Some mealsRemainingBefore) (Some remaining)
                 (Some (c_qrCodeId customer)) now) ;;
  (* Check renewal threshold *)
  let consumedCount :=
    or_num (Some (s_mealsTotal subscription1)) (c_billingCycleMeals customer)
    - remaining in
  let threshold := or_num (Some (c_billingCycleMeals customer)) 30 in
  if (threshold <=? consumedCount) || (remaining <=? 0) then
    if c_autoRenew customer
       && negb (String.eqb (c_preferredPaymentMethod customer) "NONE")
       && hasPaymentInfo customer
    then
      let customer1 :=
        mkCustomer (c_id customer) (c_messId customer) (c_qrCodeId customer)
          (c_active customer) (c_autoRenew customer)
          (c_preferredPaymentMethod customer) (c_upiId customer)
          (c_billingAmount customer) (c_billingCycleMeals customer)
          (c_ledger customer ++
             [(c_billingAmount customer, c_preferredPaymentMethod customer)])
          (Some now) in
      Customer_save customer1 ;;>
      subscription2 <~ createRenewalSubscription customer1 subscription1 now ;;
      Notification_create ;;>
      SE.ret (Success mealTx (s_mealsRemaining subscription2)
                      (s_needsRenewal subscription2) mt true)
    else
      Notification_create ;;>
      let subscription2 := set_needsRenewal subscription1 true now in
      Subscription_save subscription2
        (fun s => set_needsRenewal s true now) ;;>
      SE.ret (Success mealTx (s_mealsRemaining subscription2) true mt false)
  else
    SE.ret (Success mealTx remaining (s_needsRenewal subscription1) mt false).

(** [export async function processScan({...})] *)
Definition processScan (idx : bool) (settings : Settings) (a : Args)
           (now : Date) : M Result :=
  c <~ processScan_checks idx settings a now ;;
  match c with
  | Done r => SE.ret r
  | Proceed customer subscription mt =>
      processScan_deduct idx a customer subscription mt now
  end.

End ScanCore.


(* ================================================================== *)
(** ** services/qrTokenService.js *)
(* ================================================================== *)

Module QRTokenService.

Record Payload := mkPayload {
  customerId : JsValue;
  messId : JsValue;
  qrCodeId : JsValue
}.

Definition is_str (v : JsValue) (s : string) : bool :=
  match v with
  | JStr x => String.eqb x s
  | _ => false
  end.

Definition api_error (msg code : string) : Error := mkError msg code.

(** [verifyToken(token)].  [env_secret] is
    [process.env.QR_JWT_SECRET || process.env.JWT_SECRET]. *)
Definition verifyToken (P : Platform) (env_secret : option string)
           (token : string) (now : Date) : Exc Payload :=
  try_catch
    (secret <-
       (if truthy_str env_secret
        then match env_secret with
             | Some s => Return s
             | None => Throw (mkError "secret must be defined" "Error")
             end
        else Throw (mkError "QR_JWT_SECRET or JWT_SECRET must be defined in environment variables" "Error")) ;;
     decoded <- jwt_verify P token secret now ;;
     ty <- get_field decoded "type" ;;
     if negb (is_str ty "qr_scan")
     then Throw (api_error "Invalid QR token type" "INVALID_QR_TOKEN")
     else
       cid <- get_field decoded "customerId" ;;
       mid <- get_field decoded "messId" ;;
       if negb (truthy cid) || negb (truthy mid)
       then Throw (api_error "Invalid QR token payload" "INVALID_QR_TOKEN")
       else
         qid <- get_field decoded "qrCodeId" ;;
         Return (mkPayload cid mid qid))%exc
    (fun error =>
       (* error.name is carried in [code] for library errors *)
       if String.eqb (code error) "TokenExpiredError"
       then Throw (api_error "QR code expired" "QR_EXPIRED")
       else if String.eqb (code error) "JsonWebTokenError"
       then Throw (api_error "Invalid QR code" "INVALID_QR_TOKEN")
       else Throw error).

End QRTokenService.

(* ================================================================== *)
(** ** utils/mealScanner.js *)
(* ================================================================== *)

Module MealScanner.
Import Db.
Local Open Scope list_scope.

Record Metadata := mkMetadata {
  messId : option Id;
  adminOverride : bool;
  clientTimestamp : option Date;
  clientId : option string;
  qrCodeId : option string
}.

(** The object a scan resolves to. *)
Record Result := mkResult {
  success : bool;
  status : string;
  failureReason : option string;
  error : option string;
  transaction : option Tx;
  mealType : option MealType;
  mealsRemaining : option Z;
  alert : bool
}.

(** What the scanner needs from its surroundings: the library
    functions, the JWT secret of the environment, whether the unique
    transaction index is built, and [this.settings]. *)
Record Env := mkEnv {
  platform : Platform;
  env_secret : option string;
  idx : bool;
  settings : Settings
}.

Definition type_error : Error :=
  mkError "Cannot read properties of undefined" "TypeError".

(** [currentTime >= w.start && currentTime <= w.end]: a comparison with
    [undefined] is false. *)
Definition within (ct : string) (w : MealWindow) : bool :=
  match w_start w, w_end w with
  | Some s, Some e => str_ge ct s && str_le ct e
  | _, _ => false
  end.

(** [getCurrentMealType()].  The three windows are destructured from
    [this.settings.mealWindows]; a window is read only when the test
    before it did not match, and reading [start] of a missing window
    throws. *)
Definition getCurrentMealType (E : Env) (now : Date) : Exc (option MealType) :=
  let currentTime := MealTypeHelper.currentTime now in
  match mealWindows (settings E) with
  | None => Throw type_error
  | Some windows =>
      match mw_breakfast windows with
      | None => Throw type_error
      | Some breakfast =>
          if within currentTime breakfast then Return (Some Breakfast)
          else
            match mw_lunch windows with
            | None => Throw type_error
            | Some lunch =>
                if within currentTime lunch then Return (Some Lunch)
                else
                  match mw_dinner windows with
                  | None => Throw type_error
                  | Some dinner =>
                      if within currentTime dinner then Return (Some Dinner)
                      else Return None
                  end
            end
      end
  end.

Definition recent_filter (cid : Id) (mt : MealType) (windowStart : Date)
           (t : Tx) : bool :=
  opt_id_eqb (t_customerId t) cid && MealType_eqb (t_mealType t) mt
  && TxStatus_eqb (t_status t) TxSuccess && (windowStart <=? t_timestamp t).

(** [checkDuplicateScan(customerId, mealType)], through
    [MealTransaction.findRecentTransaction]. *)
Definition checkDuplicateScan (E : Env) (cid : Id) (mt : MealType)
           (now : Date) : M (option Tx) :=
  let windowSeconds := or_num (doubleScanWindowSeconds (settings E)) 30 in
  let windowStart := now - windowSeconds * 1000 in
  db <~ SE.get ;;
  SE.ret (findOne_desc t_timestamp (recent_filter cid mt windowStart)
                       (transactions db)).

(** [getErrorMessage(failureReason)] *)
Definition getErrorMessage (failureReason : string) : string :=
  if String.eqb failureReason "invalid_qr" then "Invalid or expired QR code"
  else if String.eqb failureReason "customer_not_found"
  then "Customer not found or inactive"
  else if String.eqb failureReason "invalid_meal_window"
  then "Outside meal serving hours"
  else if String.eqb failureReason "duplicate_scan"
  then "Meal already scanned recently"
  else if String.eqb failureReason "already_scanned_today"
  then "You have already scanned for this meal today"
  else if String.eqb failureReason "no_subscription"
  then "No active subscription found"
  else if String.eqb failureReason "subscription_paused"
  then "Subscription is currently paused"
  else if String.eqb failureReason "no_meals_remaining"
  then "No meals remaining in subscription"
  else if String.eqb failureReason "subscription_expired"
  then "Subscription has expired"
  else if String.eqb failureReason "meal_type_not_allowed"
  then "This meal type is not included in your plan"
  else "Scan failed".

Definition status_of (failureReason : string) : TxStatus :=
  if String.eqb failureReason "duplicate_scan" then TxBlocked else TxFailed.

Definition status_name (s : TxStatus) : string :=
  match s with
  | TxSuccess => "success"
  | TxBlocked => "blocked"
  | TxFailed => "failed"
  | TxDuplicate => "duplicate"
  end.

(** [createFailedTransaction(customerId, subscriptionId, scannedByUserId,
    failureReason, metadata, errorMessage, duplicateOfTransaction)] *)
Definition createFailedTransaction (E : Env) (customerId subscriptionId : option Id)
           (scannedByUserId : option Id) (failureReason : string)
           (metadata : Metadata) (duplicateOfTransaction : option Id)
           (now : Date) : M Result :=
  cur <~ SE.lift (getCurrentMealType E now) ;;
  let mealType := match cur with Some m => m | None => UnknownMeal end in
  (* Only create transaction if we have required fields *)
  transaction <~
    (if present customerId && present subscriptionId && present (messId metadata)
     then
       t <~ MealTransaction_create (idx E)
              (mkTx 0%nat (messId metadata) customerId subscriptionId
                    scannedByUserId scannedByUserId mealType
                    (status_of failureReason) now
                    (or_str (qrCodeId metadata) (Some "unknown"))
                    (Some 0) (Some 0) (Some failureReason)
                    duplicateOfTransaction (clientTimestamp metadata)
                    (clientId metadata) None) ;;
       SE.ret (Some t)
     else SE.ret None) ;;
  (* Create audit log for failed scan *)
  (if present customerId && present (messId metadata)
   then AuditLog_create (mkAudit (messId metadata) "scan_failed"
                                 scannedByUserId customerId)
   else SE.ret tt) ;;>
  SE.ret (mkResult false (status_name (status_of failureReason))
                   (Some failureReason) (Some (getErrorMessage failureReason))
                   transaction None None false).

(** An ObjectId read out of a token payload. *)
Definition id_of_js (v : JsValue) : Exc Id :=
  match v with
  | JNum n => if 0 <=? n then Return (Z.to_nat n)
              else Throw (mkError "Cast to ObjectId failed" "CastError")
  | _ => Throw (mkError "Cast to ObjectId failed" "CastError")
  end.

Definition js_str (v : JsValue) : option string :=
  match v with
  | JStr s => Some s
  | _ => None
  end.

Definition plan_mealTypes (s : Subscription) : option (list string) :=
  match s_planId s with
  | Some p => p_mealTypes p
  | None => None
  end.

(** [qrPayload.qrCodeId || customer.qrCodeId], as stored in the string
    field of the transaction. *)
Definition qr_of (payload_qr : JsValue) (customer : Customer) : option string :=
  match payload_qr with
  | JStr s => or_str (Some s) (Some (c_qrCodeId customer))
  | v => if truthy v then Some "[cast]" else Some (c_qrCodeId customer)
  end.

(** Steps 6 to 9 of [processScan]: the deduction and what follows.
    Like the [try] block they are part of, they return the promise the
    caller's promise is resolved with: a denial is
    [return this.createFailedTransaction(...)], a promise that is not
    awaited; the success result is a value. *)
Definition redeem (E : Env) (qrPayload : QRTokenService.Payload)
           (customer : Customer) (subscription : Subscription)
           (mealType : MealType) (scannedByUserId : option Id)
           (metadata : Metadata) (now : Date) : M (M Result) :=
  (* Step 6: Atomic meal deduction *)
  let mealsRemainingBefore := s_mealsRemaining subscription in
  updatedSubscription <~ SubscriptionModel.deductMeal subscription None now ;;
  match updatedSubscription with
  | None =>
      (* Race condition - another scan happened first *)
      SE.ret
        (createFailedTransaction E (Some (c_id customer))
           (Some (s_id subscription)) scannedByUserId "no_meals_remaining"
           metadata None now)
  | Some updated =>
      (* Auto-deactivate if no meals remaining *)
      (if s_mealsRemaining updated =? 0
       then Subscription_save (set_active updated false now)
                              (fun s => set_active s false now)
       else SE.ret tt) ;;>
      (* Step 7: Create successful transaction *)
      transaction <~ MealTransaction_create (idx E)
        (mkTx 0%nat (Some (c_messId customer)) (Some (c_id customer))
              (Some (s_id subscription)) scannedByUserId scannedByUserId
              mealType TxSuccess now
              (qr_of (QRTokenService.qrCodeId qrPayload) customer)
              (Some mealsRemainingBefore) (Some (s_mealsRemaining updated))
              None None (clientTimestamp metadata) (clientId metadata) None) ;;
      (* Step 8: Create audit log *)
      AuditLog_create (mkAudit (Some (c_messId customer)) "meal_scanned"
                               scannedByUserId (Some (c_id customer))) ;;>
      (* Step 9: Check for low meals alert *)
      let alertThreshold :=
        or_num (alertThresholdMealsRemaining (settings E)) 5 in
      let shouldAlert :=
        (s_mealsRemaining updated <=? alertThreshold)
        && (0 <? s_mealsRemaining updated) in
      SE.ret (SE.ret (mkResult true "success" None None (Some transaction)
                               (Some mealType)
                               (Some (s_mealsRemaining updated))
                               shouldAlert))
  end.

Definition today_filter (cid : Id) (mt : MealType) (now : Date) (t : Tx)
  : bool :=
  opt_id_eqb (t_customerId t) cid && MealType_eqb (t_mealType t) mt
  && TxStatus_eqb (t_status t) TxSuccess
  && (startOfDay now <=? t_timestamp t)
  && (t_timestamp t <? startOfDay now + ms_per_day).

Definition subscription_filter (cid : Id) (now : Date) (s : Subscription)
  : bool :=
  Nat.eqb (s_customerId s) cid && s_active s && (now <=? s_endDate s)
  && (0 <? s_mealsRemaining s).

Definition customer_filter (pcid pmid : Id) (c : Customer) : bool :=
  Nat.eqb (c_id c) pcid && Nat.eqb (c_messId c) pmid && c_active c.

(** Step 5.5: [!metadata.adminOverride && subscription.planId &&
    subscription.planId.mealTypes && !mealTypes.includes(mealType)] *)
Definition not_in_plan (metadata : Metadata) (subscription : Subscription)
           (mealType : MealType) : bool :=
  negb (adminOverride metadata) &&
  match plan_mealTypes subscription with
  | Some mts => negb (in_enum (mealName mealType) mts)
  | None => false
  end.

(** The [try] block of [processScan]. *)
Definition processScan_try (E : Env) (qrToken : string)
           (scannedByUserId : option Id) (metadata : Metadata) (now : Date)
  : M (M Result) :=
  (* Step 1: Verify QR token with mess isolation *)
  match QRTokenService.verifyToken (platform E) (env_secret E) qrToken now with
  | Throw _ =>
      SE.ret (createFailedTransaction E None None scannedByUserId "invalid_qr"
                                      metadata None now)
  | Return qrPayload =>
      (* Step 2: Find customer *)
      pcid <~ SE.lift (id_of_js (QRTokenService.customerId qrPayload)) ;;
      pmid <~ SE.lift (id_of_js (QRTokenService.messId qrPayload)) ;;
      db <~ SE.get ;;
      match findOne (customer_filter pcid pmid) (customers db) with
      | None =>
          SE.ret (createFailedTransaction E None None scannedByUserId
                                          "customer_not_found" metadata None now)
      | Some customer =>
          (* Step 3: Determine meal type *)
          cur <~ SE.lift (getCurrentMealType E now) ;;
          match (match cur with
                 | Some m => Some m
                 | None => if adminOverride metadata then Some Lunch else None
                 end) with
          | None =>
              SE.ret (createFailedTransaction E (Some (c_id customer)) None
                        scannedByUserId "invalid_meal_window" metadata None now)
          | Some mealType =>
              (* Step 4: Check for duplicate scan within window *)
              duplicateTransaction <~
                checkDuplicateScan E (c_id customer) mealType now ;;
              match duplicateTransaction with
              | Some d =>
                  SE.ret (createFailedTransaction E (Some (c_id customer)) None
                            scannedByUserId "duplicate_scan" metadata
                            (Some (t_id d)) now)
              | None =>
                  (* Step 4.5: already scanned for this meal type today *)
                  db1 <~ SE.get ;;
                  match findOne (today_filter (c_id customer) mealType now)
                                (transactions db1),
                        adminOverride metadata with
                  | Some todayTransaction, false =>
                      SE.ret (createFailedTransaction E (Some (c_id customer))
                                None scannedByUserId "already_scanned_today"
                                metadata (Some (t_id todayTransaction)) now)
                  | _, _ =>
                      (* Step 5: Find active subscription with plan details *)
                      match findOne (subscription_filter (c_id customer) now)
                                    (subscriptions db1) with
                      | None =>
                          SE.ret (createFailedTransaction E
                                    (Some (c_id customer)) None
                                    scannedByUserId "no_subscription" metadata
                                    None now)
                      | Some subscription =>
                          if present (s_pausedAt subscription) then
                            SE.ret (createFailedTransaction E
                                      (Some (c_id customer))
                                      (Some (s_id subscription)) scannedByUserId
                                      "subscription_paused" metadata None now)
                          else if s_mealsRemaining subscription <=? 0 then
                            SE.ret (createFailedTransaction E
                                      (Some (c_id customer))
                                      (Some (s_id subscription)) scannedByUserId
                                      "no_meals_remaining" metadata None now)
                          else if not_in_plan metadata subscription mealType
                          then
                            (* Step 5.5 *)
                            SE.ret (createFailedTransaction E
                                      (Some (c_id customer))
                                      (Some (s_id subscription)) scannedByUserId
                                      "meal_type_not_allowed" metadata None now)
                          else
                            redeem E qrPayload customer subscription mealType
                                   scannedByUserId metadata now
                      end
                  end
              end
          end
      end
  end.

Definition system_error : Result :=
  mkResult false "failed" None (Some "System error occurred") None None None
           false.

(** [async processScan(qrToken, scannedByUserId, metadata = {})].  What
    throws inside the [try] block is answered by the [catch]; a promise
    the block returns settles after the block was left, and when it
    rejects the call rejects. *)
Definition processScan (E : Env) (qrToken : string)
           (scannedByUserId : option Id) (metadata : Metadata) (now : Date)
  : M Result :=
  SE.join
    (SE.catch (processScan_try E qrToken scannedByUserId metadata now)
       (fun _ =>
          (* Create audit log for system error *)
          AuditLog_create (mkAudit (messId metadata) "scan_error"
                                   scannedByUserId None) ;;>
          SE.ret (SE.ret system_error))).

(** One element of a batch. *)
Record Scan := mkScan {
  scan_qrToken : string;
  scan_clientTimestamp : option Date;
  scan_clientId : option string
}.

(** [Array.prototype.sort(compare)]: a stable sort. *)
Fixpoint insert_sorted {A} (compare : A -> A -> Z) (x : A) (l : list A)
  : list A :=
  match l with
  | [] => [x]
  | y :: rest =>
      if compare x y <=? 0 then x :: l
      else y :: insert_sorted compare x rest
  end.

Definition js_sort {A} (compare : A -> A -> Z) (l : list A) : list A :=
  fold_right (insert_sorted compare) [] l.

(** [a.clientTimestamp ? new Date(a.clientTimestamp) : new Date()] *)
Definition batch_time (now : Date) (a : Scan) : Date :=
  match scan_clientTimestamp a with
  | Some 0 | None => now
  | Some t => t
  end.

Record BatchResult := mkBatchResult {
  totalScans : nat;
  successCount : nat;
  blockedCount : nat;
  failedCount : nat;
  results : list Result
}.

Definition stamp_synced (now : Date) (u : Tx) : Tx :=
  mkTx (t_id u) (t_messId u) (t_customerId u) (t_subscriptionId u)
       (t_scannedByUserId u) (t_staffId u) (t_mealType u) (t_status u)
       (t_timestamp u) (t_qrCodeId u) (t_mealsRemainingBefore u)
       (t_mealsRemainingAfter u) (t_failureReason u)
       (t_duplicateOfTransaction u) (t_clientTimestamp u) (t_clientId u)
       (Some now).

(** [result.transaction.syncedAt = new Date(); await result.transaction.save()] *)
Definition mark_synced (t : Tx) (now : Date) : M unit :=
  fun db =>
    let (_, txs) := update_first (fun u => Nat.eqb (t_id u) (t_id t))
                                 (stamp_synced now) (transactions db) in
    (Return tt, set_transactions db txs (next_id db)).

(** The result as the [results] array holds it once its transaction
    object was stamped. *)
Definition synced (r : Result) (now : Date) : Result :=
  mkResult (success r) (status r) (failureReason r) (error r)
           (option_map (stamp_synced now) (transaction r))
           (mealType r) (mealsRemaining r) (alert r).

Definition is_str_opt (x : option string) (s : string) : bool :=
  match x with
  | Some y => String.eqb y s
  | None => false
  end.

(** The body of the [for] loop of [processBatch], over the scans that
    remain; [clock k] is the instant at which the [k]-th scan of the
    sorted list is processed. *)
Fixpoint replay (E : Env) (scannedByUserId : option Id) (metadata : Metadata)
         (clock : nat -> Date) (k : nat) (sortedScans : list Scan)
         (acc : BatchResult) : M BatchResult :=
  match sortedScans with
  | [] => SE.ret acc
  | scan :: rest =>
      let scanMetadata :=
        mkMetadata (messId metadata) (adminOverride metadata)
                   (scan_clientTimestamp scan) (scan_clientId scan)
                   (qrCodeId metadata) in
      result <~ processScan E (scan_qrToken scan) scannedByUserId
                            scanMetadata (clock k) ;;
      let pushed := results acc ++ [synced result (clock k)] in
      let acc1 :=
        if success result && String.eqb (status result) "success"
        then mkBatchResult (totalScans acc) (S (successCount acc))
               (blockedCount acc) (failedCount acc) pushed
        else if String.eqb (status result) "blocked"
                || is_str_opt (failureReason result) "duplicate_scan"
        then mkBatchResult (totalScans acc) (successCount acc)
               (S (blockedCount acc)) (failedCount acc) pushed
        else mkBatchResult (totalScans acc) (successCount acc)
               (blockedCount acc) (S (failedCount acc)) pushed in
      (* Mark as synced *)
      (match transaction result with
       | Some t => mark_synced t (clock k)
       | None => SE.ret tt
       end) ;;>
      replay E scannedByUserId metadata clock (S k) rest acc1
  end.

(** [async processBatch(scans, scannedByUserId, metadata = {})].  [now]
    is the instant of the sort. *)
Definition processBatch (E : Env) (scans : list Scan)
           (scannedByUserId : option Id) (metadata : Metadata)
           (now : Date) (clock : nat -> Date) : M BatchResult :=
  (* Sort by client timestamp to maintain chronological order *)
  let sortedScans :=
    js_sort (fun a b => batch_time now a - batch_time now b) scans in
  r <~ replay E scannedByUserId metadata clock 0 sortedScans
              (mkBatchResult (List.length scans) 0 0 0 []) ;;
  (* Create batch audit log *)
  AuditLog_create (mkAudit (messId metadata) "batch_scan_processed"
                           scannedByUserId None) ;;>
  SE.ret r.

End MealScanner.


(* ================================================================== *)
(** ** services/scanService.js *)
(* ================================================================== *)

Module ScanService.
Import Db.
Local Open Scope list_scope.

Record Metadata := mkMetadata {
  messId : option Id;
  scannerRole : string;
  adminOverride : bool
}.

Record Result := mkResult {
  customer : Id;
  mealsRemaining : Z;
  mealType : MealType;
  transaction : Tx
}.

Definition ApiError (msg code : string) : Error := mkError msg code.

(** [getCurrentMealType()] *)
Definition getCurrentMealType (now : Date) : MealType :=
  let hour := getHours now in
  if (6 <=? hour) && (hour <? 11) then Breakfast
  else if (11 <=? hour) && (hour <? 16) then Lunch
  else if (16 <=? hour) && (hour <? 22) then Dinner
  else Snack.

Definition today_filter (cid : Id) (mt : MealType) (now : Date) (t : Tx)
  : bool :=
  opt_id_eqb (t_customerId t) cid && MealType_eqb (t_mealType t) mt
  && (startOfDay now <=? t_timestamp t)
  && (t_timestamp t <=? setHours now 23 59 59 999)
  && TxStatus_eqb (t_status t) TxSuccess.

(** The [try] block of [processScan]; it runs inside a session
    transaction. *)
Definition processScan_try (P : Platform) (env_secret : option string)
           (idx : bool) (qrToken : string) (scannedByUserId : option Id)
           (metadata : Metadata) (now : Date) : M Result :=
  (* 1. Verify JWT token *)
  tokenData <~ SE.lift (QRTokenService.verifyToken P env_secret qrToken now) ;;
  (* 2. Verify mess ownership *)
  mid <~ (match messId metadata with
          | Some m => SE.ret m
          | None => SE.throw (mkError "Cannot read properties of undefined"
                                      "TypeError")
          end) ;;
  if negb (match MealScanner.id_of_js (QRTokenService.messId tokenData) with
           | Return m => Nat.eqb m mid
           | Throw _ => false
           end)
  then SE.throw (ApiError "QR code belongs to different mess" "WRONG_MESS")
  else
  (* 3. Verify scanner role (STAFF or ADMIN only) *)
  if negb (in_enum (scannerRole metadata) ["admin"; "staff"])
  then SE.throw (ApiError "Only staff can scan QR codes" "UNAUTHORIZED_ROLE")
  else
  (* 4. Find customer *)
  cid <~ SE.lift (MealScanner.id_of_js (QRTokenService.customerId tokenData)) ;;
  db <~ SE.get ;;
  match findOne (fun c => Nat.eqb (c_id c) cid) (customers db) with
  | None => SE.throw (ApiError "Customer not found" "CUSTOMER_NOT_FOUND")
  | Some customer =>
      if negb (c_active customer)
      then SE.throw (ApiError "Customer account inactive" "CUSTOMER_INACTIVE")
      else
        (* 5. Determine meal type FIRST *)
        let mealType := getCurrentMealType now in
        (* 6. Check duplicate scan (meal-type based, same day) *)
        match findOne (today_filter (c_id customer) mealType now)
                      (transactions db), adminOverride metadata with
        | Some _, false =>
            SE.throw (ApiError "Already scanned today" "DUPLICATE_SCAN")
        | _, _ =>
            (* 7. Find active subscription *)
            match findOne (fun s => Nat.eqb (s_customerId s) (c_id customer)
                                    && s_active s && (now <=? s_endDate s))
                          (subscriptions db) with
            | None => SE.throw (ApiError "No active subscription" "NO_SUBSCRIPTION")
            | Some subscription =>
                (* 8. ATOMIC update - Decrement meals with condition *)
                updatedSubscription <~
                  Subscription_findOneAndUpdate
                    (fun s => Nat.eqb (s_id s) (s_id subscription)
                              && (0 <? s_mealsRemaining s) && s_active s)
                    (* [$set: { lastMealDate }] names no path of the
                       schema: in strict mode it is dropped *)
                    (fun s => set_mealsRemaining s (s_mealsRemaining s - 1) now) ;;
                match updatedSubscription with
                | None => SE.throw (ApiError "No meals remaining" "NO_MEALS")
                | Some updated =>
                    (* 9. Create transaction record *)
                    transaction <~ MealTransaction_create idx
                      (mkTx 0%nat (messId metadata) (Some (c_id customer))
                            (Some (s_id subscription)) scannedByUserId
                            scannedByUserId mealType TxSuccess now
                            (Some (c_qrCodeId customer))
                            (Some (s_mealsRemaining subscription + 1))
                            (Some (s_mealsRemaining updated))
                            None None None None None) ;;
                    SE.ret (mkResult (c_id customer) (s_mealsRemaining updated)
                                     mealType transaction)
                end
            end
        end
  end.

(** [async processScan(qrToken, scannedByUserId, metadata)]: on a throw
    the session transaction is aborted, which undoes its writes, and the
    error is rethrown. *)
Definition processScan (P : Platform) (env_secret : option string)
           (idx : bool) (qrToken : string) (scannedByUserId : option Id)
           (metadata : Metadata) (now : Date) : M Result :=
  fun db =>
    match processScan_try P env_secret idx qrToken scannedByUserId
                          metadata now db with
    | (Return r, db') => (Return r, db')
    | (Throw e, _) => (Throw e, db)
    end.

End ScanService.

(* ================================================================== *)
(** ** services/idempotentScanService.js *)
(* ================================================================== *)

Module IdempotentScanService.
Import Db.
Local Open Scope list_scope.

Record Metadata := mkMetadata {
  messId : option Id;
  staffId : option Id;
  qrCodeId : option string;
  clientTimestamp : option Date
}.

Record Result := mkResult {
  success : bool;
  idempotent : bool;
  transaction : Tx;
  subscription : option Subscription;
  message : string
}.

(** [getMealWindowBoundaries(mealType)] *)
Definition getMealWindowBoundaries (mealType : MealType) (now : Date)
  : Exc (Date * Date) :=
  let window :=
    match mealType with
    | Breakfast => Some (7, 10)
    | Lunch => Some (12, 15)
    | Dinner => Some (19, 22)
    | _ => None
    end in
  match window with
  | None => Throw (mkError "Invalid meal type" "Error")
  | Some (ws, we) =>
      Return (setHours now ws 0 0 0, setHours now we 59 59 999)
  end.

Definition existing_filter (customerId : Id) (mealType : MealType)
           (windowStart windowEnd : Date) (t : Tx) : bool :=
  opt_id_eqb (t_customerId t) customerId
  && MealType_eqb (t_mealType t) mealType
  && TxStatus_eqb (t_status t) TxSuccess
  && (windowStart <=? t_timestamp t) && (t_timestamp t <=? windowEnd).

(** [findExistingScan(customerId, mealType, windowStart, windowEnd)] *)
Definition findExistingScan (customerId : Id) (mealType : MealType)
           (windowStart windowEnd : Date) : M (option Tx) :=
  db <~ SE.get ;;
  SE.ret (findOne_desc t_timestamp
            (existing_filter customerId mealType windowStart windowEnd)
            (transactions db)).

(** [deductMealAtomic(subscriptionId, mealsRemainingBefore)]: of the two
    [mealsRemaining] keys of the filter literal the later one,
    [{ $gt: 0 }], is the one in force. *)
Definition deductMealAtomic (subscriptionId : Id) (mealsRemainingBefore : Z)
           (now : Date) : M (option Subscription) :=
  Subscription_findOneAndUpdate
    (fun s => Nat.eqb (s_id s) subscriptionId && (0 <? s_mealsRemaining s))
    (fun s => set_mealsRemaining s (s_mealsRemaining s - 1) now).

Definition idempotent_result (t : Tx) (msg : string) : Result :=
  mkResult true true t None msg.

(** [processScanIdempotent] from STEP 2 on: the deduction, the re-check
    when it fails, the record and the auto-deactivation. *)
Definition processScanIdempotent_deduct (idx : bool) (customerId : Id)
           (mealType : MealType) (subscription : Subscription)
           (metadata : Metadata) (windowStart windowEnd : Date) (now : Date)
  : M Result :=
  (* STEP 2: Atomic meal deduction with optimistic locking *)
  let mealsRemainingBefore := s_mealsRemaining subscription in
  updatedSubscription <~
    deductMealAtomic (s_id subscription) mealsRemainingBefore now ;;
  match updatedSubscription with
  | None =>
      (* Race condition check - another scan won *)
      recentScan <~ findExistingScan customerId mealType windowStart windowEnd ;;
      match recentScan with
      | Some t => SE.ret (idempotent_result t "Concurrent scan already processed")
      | None => SE.throw (mkError "No meals remaining" "NO_MEALS_REMAINING")
      end
  | Some updated =>
      (* STEP 3: Create transaction record *)
      transaction <~ MealTransaction_create idx
        (mkTx 0%nat (messId metadata) (Some customerId)
              (Some (s_id subscription)) (staffId metadata) (staffId metadata)
              mealType TxSuccess now (qrCodeId metadata)
              (Some mealsRemainingBefore) (Some (s_mealsRemaining updated))
              None None (clientTimestamp metadata) None None) ;;
      (* Auto-deactivate subscription if no meals left *)
      (if s_mealsRemaining updated =? 0
       then Subscription_save (set_active updated false now)
                              (fun s => set_active s false now)
       else SE.ret tt) ;;>
      SE.ret (mkResult true false transaction
                (Some (if s_mealsRemaining updated =? 0
                       then set_active updated false now else updated))
                "Scan processed successfully")
  end.

(** [async processScanIdempotent(customerId, mealType, subscription,
    metadata)] *)
Definition processScanIdempotent (idx : bool) (customerId : Id)
           (mealType : MealType) (subscription : Subscription)
           (metadata : Metadata) (now : Date) : M Result :=
  w <~ SE.lift (getMealWindowBoundaries mealType now) ;;
  let (windowStart, windowEnd) := w in
  (* STEP 1: Check for existing scan in meal window (idempotency check) *)
  existingScan <~ findExistingScan customerId mealType windowStart windowEnd ;;
  match existingScan with
  | Some t =>
      SE.ret (idempotent_result t "Scan already processed in this meal window")
  | None =>
      processScanIdempotent_deduct idx customerId mealType subscription
                                   metadata windowStart windowEnd now
  end.

(** [async getOrCreateScan(customerId, mealType, subscription, metadata)] *)
Definition getOrCreateScan (idx : bool) (customerId : Id)
           (mealType : MealType) (subscription : Subscription)
           (metadata : Metadata) (now : Date) : M Result :=
  SE.catch
    (processScanIdempotent idx customerId mealType subscription metadata now)
    (fun error =>
       (* If error is due to race condition, retry once *)
       if String.eqb (code error) "11000"
          || includes (Js.message error) "duplicate"
       then
         w <~ SE.lift (getMealWindowBoundaries mealType now) ;;
         let (windowStart, windowEnd) := w in
         existingScan <~
           findExistingScan customerId mealType windowStart windowEnd ;;
         match existingScan with
         | Some t => SE.ret (idempotent_result t "Scan already processed (retry)")
         | None => SE.throw error
         end
       else SE.throw error).

End IdempotentScanService.

(* ================================================================== *)
(** ** routes/scanBatch.js *)
(* ================================================================== *)

Module ScanBatch.
Import Db.
Local Open Scope list_scope.

(** The properties read from an element of [scans]: a string
    [qrToken], a numeric [clientTimestamp] and a string [clientId],
    each [None] when the element does not carry it. *)
Record ScanRequest := mkScanRequest {
  qrToken : option string;
  clientTimestamp : option Date;
  clientId : option string
}.

(** An element of the submitted array: [None] stands for [null], the
    one value of a JSON body whose properties cannot be read. *)
Definition Element : Type := option ScanRequest.

Definition nullish (x : Element) : bool :=
  match x with
  | None => true
  | Some _ => false
  end.

Definition type_error : Error :=
  mkError "Cannot read properties of null" "TypeError".

Record Result := mkResult {
  success : bool;
  status : string;
  reason : option string;
  mealsRemaining : option Z;
  mealType : option MealType;
  r_clientId : option string
}.

Definition blocked (reason : string) (cid : option string) : Result :=
  mkResult false "blocked" (Some reason) None None cid.

Definition failed (reason : string) (cid : option string) : Result :=
  mkResult false "failed" (Some reason) None None cid.

(** [clientTimestamp || Date.now()] *)
Definition ref_time (ts : option Date) (now : Date) : Date :=
  match ts with
  | Some 0 | None => now
  | Some t => t
  end.

(** The query value of [qrCodeId]: only a string finds a customer. *)
Definition customer_filter (qr : JsValue) (c : Customer) : bool :=
  match qr with
  | JStr s => String.eqb (c_qrCodeId c) s && c_active c
  | _ => false
  end.

Definition subscription_filter (cid : Id) (today : Date) (s : Subscription)
  : bool :=
  Nat.eqb (s_customerId s) cid && s_active s && (0 <? s_mealsRemaining s)
  && (s_startDate s <=? today) && (today <=? s_endDate s).

Definition last_scan_filter (sid : Id) (mt : MealType) (windowStart : Date)
           (t : Tx) : bool :=
  opt_id_eqb (t_subscriptionId t) sid && MealType_eqb (t_mealType t) mt
  && (windowStart <=? t_timestamp t) && TxStatus_eqb (t_status t) TxSuccess.

(** The [try] block of [processSingleScan], over the properties
    destructured from the element.  [logAudit] never has an effect
    here: no call passes [messId], the audit schema requires it, and
    [logAudit] swallows the rejection. *)
Definition processSingleScan_try (P : Platform) (idx : bool)
           (scanRequest : ScanRequest) (settings : Settings)
           (secret : string) (userId : option Id) (now : Date) : M Result :=
  let cid := clientId scanRequest in
  match qrToken scanRequest with
  | None | Some EmptyString => SE.ret (failed "missing_qrToken" cid)
  | Some token =>
      (* Verify QR signature *)
      match Qr.verify P token secret with
      | Throw e => SE.throw e
      | Return (Qr.Invalid _) => SE.ret (blocked "invalid_qr_signature" cid)
      | Return (Qr.Valid payload) =>
          qrCodeId <~ SE.lift (get_field payload "qrCodeId") ;;
          if negb (truthy qrCodeId)
          then SE.ret (failed "invalid_qr_payload" cid)
          else
            (* Find customer *)
            db <~ SE.get ;;
            match findOne (customer_filter qrCodeId) (customers db) with
            | None => SE.ret (blocked "unknown_customer" cid)
            | Some customer =>
                (* Find active subscription *)
                let refDate := ref_time (clientTimestamp scanRequest) now in
                let today := startOfDay refDate in
                match findOne_desc s_updatedAt
                        (subscription_filter (c_id customer) today)
                        (subscriptions db) with
                | None => SE.ret (blocked "no_active_subscription" cid)
                | Some subscription =>
                    (* Determine meal type *)
                    match MealTypeHelper.determineMealType settings now with
                    | None => SE.ret (blocked "outside_meal_window" cid)
                    | Some mealType =>
                        (* Duplicate scan check *)
                        let windowSec :=
                          or_num (doubleScanWindowSeconds settings) 30 in
                        let windowStart :=
                          ref_time (clientTimestamp scanRequest) now
                          - windowSec * 1000 in
                        match findOne_desc t_timestamp
                                (last_scan_filter (s_id subscription) mealType
                                                  windowStart)
                                (transactions db) with
                        | Some _ => SE.ret (blocked "duplicate_scan" cid)
                        | None =>
                            (* Atomic decrement *)
                            updatedSubscription <~
                              Subscription_findOneAndUpdate
                                (fun s => Nat.eqb (s_id s) (s_id subscription)
                                          && (0 <? s_mealsRemaining s))
                                (fun s => set_mealsRemaining s
                                            (s_mealsRemaining s - 1) now) ;;
                            match updatedSubscription with
                            | None => SE.ret (blocked "no_meals_remaining" cid)
                            | Some updated =>
                                (* Create meal transaction *)
                                MealTransaction_create idx
                                  (mkTx 0%nat None (Some (c_id customer))
                                        (Some (s_id subscription)) userId None
                                        mealType TxSuccess
                                        (ref_time (clientTimestamp scanRequest) now)
                                        None None None None None None None None) ;;>
                                SE.ret (mkResult true "success" None
                                          (Some (s_mealsRemaining updated))
                                          (Some mealType) cid)
                            end
                        end
                    end
                end
            end
      end
  end.

(** [async function processSingleScan(scanRequest, settings, secret,
    userId)].  The element is destructured before the [try]: for
    [null] that throws, and the call rejects. *)
Definition processSingleScan (P : Platform) (idx : bool)
           (scanRequest : Element) (settings : Settings)
           (secret : string) (userId : option Id) (now : Date) : M Result :=
  match scanRequest with
  | None => SE.throw type_error
  | Some request =>
      SE.catch
        (processSingleScan_try P idx request settings secret userId now)
        (fun _ => SE.ret (failed "server_error" (clientId request)))
  end.

(** [a.clientTimestamp || 0], the sort key of an element the comparator
    can read. *)
Definition sort_key (a : Element) : Z :=
  match a with
  | Some request => or_num (clientTimestamp request) 0
  | None => 0
  end.

(** [[...scans].sort((a, b) => (a.clientTimestamp || 0) -
    (b.clientTimestamp || 0))].  Sorting two or more elements hands
    each of them to the comparator, which throws when it reads
    [clientTimestamp] of [null]; a single element is not compared. *)
Definition sortScans (scans : list Element) : Exc (list Element) :=
  if (2 <=? List.length scans)%nat && existsb nullish scans
  then Throw type_error
  else Return (MealScanner.js_sort (fun a b => sort_key a - sort_key b) scans).

Fixpoint replay (P : Platform) (idx : bool) (settings : Settings)
         (secret : string) (userId : option Id) (clock : nat -> Date)
         (k : nat) (sortedScans : list Element) : M (list Result) :=
  match sortedScans with
  | [] => SE.ret []
  | scan :: rest =>
      result <~ processSingleScan P idx scan settings secret userId (clock k) ;;
      results <~ replay P idx settings secret userId clock (S k) rest ;;
      SE.ret (result :: results)
  end.

Record Response := mkResponse {
  totalScans : nat;
  successCount : nat;
  blockedCount : nat;
  failedCount : nat;
  results : list Result
}.

Definition count (f : Result -> bool) (l : list Result) : nat :=
  List.length (filter f l).

(** The [try] block of the handler of [POST /scan/batch]: sort,
    replay, aggregate. *)
Definition batch (P : Platform) (idx : bool) (settings : Settings)
           (secret : string) (userId : option Id) (clock : nat -> Date)
           (scans : list Element) : M Response :=
  (* Sort scans chronologically by clientTimestamp *)
  sortedScans <~ SE.lift (sortScans scans) ;;
  results <~ replay P idx settings secret userId clock 0 sortedScans ;;
  SE.ret (mkResponse
            (List.length results)
            (count (fun r => success r && String.eqb (status r) "success") results)
            (count (fun r => String.eqb (status r) "blocked") results)
            (count (fun r => negb (success r) || String.eqb (status r) "failed")
                   results)
            results).

End ScanBatch.


(* ================================================================== *)
(** ** Balance invariants and sample data *)
(* ================================================================== *)

Module Invariants.
Import Db.

Definition balances_nonneg (b : option MealBalances) : Prop :=
  match b with
  | Some x => 0 <= b_breakfast x /\ 0 <= b_lunch x /\ 0 <= b_dinner x
              /\ 0 <= b_snack x
  | None => True
  end.

(** [mealsRemaining] and each per-type balance are not negative. *)
Definition sub_nonneg (s : Subscription) : Prop :=
  0 <= s_mealsRemaining s /\ balances_nonneg (s_mealBalances s).

Definition db_nonneg (db : DB) : Prop :=
  Forall sub_nonneg (subscriptions db).

(** The operations that write a balance: the conditional update of
    [deductMeal], and the two halves of [services/scanCore.js]'s
    [processScan], which other requests may interleave with. *)
Inductive Op :=
| OpDeductMeal (this : Subscription) (mealType : option MealType) (now : Date)
| OpScanCoreChecks (idx : bool) (settings : Settings) (a : ScanCore.Args)
                   (now : Date)
| OpScanCoreDeduct (idx : bool) (a : ScanCore.Args) (customer : Customer)
                   (subscription : Subscription) (mt : MealType) (now : Date)
| OpScanCore (idx : bool) (settings : Settings) (a : ScanCore.Args)
             (now : Date).

Definition run_op (o : Op) (db : DB) : DB :=
  match o with
  | OpDeductMeal this mt now =>
      snd (SubscriptionModel.deductMeal this mt now db)
  | OpScanCoreChecks idx st a now =>
      snd (ScanCore.processScan_checks idx st a now db)
  | OpScanCoreDeduct idx a c s mt now =>
      snd (ScanCore.processScan_deduct idx a c s mt now db)
  | OpScanCore idx st a now =>
      snd (ScanCore.processScan idx st a now db)
  end.

Definition run_ops (ops : list Op) (db : DB) : DB :=
  fold_left (fun d o => run_op o d) ops db.

End Invariants.

Module Sample.
Import Db.
Local Open Scope list_scope.

Definition day : Z := 86400000.
(** Noon of day 19845 (local time). *)
Definition noon : Date := 19845 * day + 12 * 3600000.

Definition alice : Customer :=
  mkCustomer 1%nat 7%nat "qr-alice" true false "NONE" None 0 30 [] None.

Definition sub_of (remaining : Z) : Subscription :=
  mkSubscription 10%nat 7%nat 1%nat None 30 remaining None
                 (19800 * day) (19900 * day) true false None
                 (19800 * day) (19800 * day).

Definition db_with (remaining : Z) : DB :=
  mkDB [alice] [sub_of remaining] [] [] 100%nat.

Definition remaining_of (db : DB) : option Z :=
  option_map s_mealsRemaining (lookup_subscription db 10%nat).

Definition active_of (db : DB) : option bool :=
  option_map s_active (lookup_subscription db 10%nat).

End Sample.


Module SampleScanCore.
Import Db Sample.

(** Two requests for the same customer, for lunch and for dinner. *)
Definition reqA : ScanCore.Args :=
  ScanCore.mkArgs 1%nat (Some 50%nat) (Some Lunch) None.
Definition reqB : ScanCore.Args :=
  ScanCore.mkArgs 1%nat (Some 51%nat) (Some Dinner) None.

Definition defaults : Settings := SettingsCache.getDefaultSettings.

End SampleScanCore.


(* ================================================================== *)
(** ** The order of the eligibility checks, as lists *)
(* ================================================================== *)

Module EligibilityOrder.
Import Db.
Local Open Scope list_scope.

(** The first failing check of an ordered list of (reason, fails). *)
Definition first_failing (checks : list (string * bool)) : option string :=
  option_map fst (List.find snd checks).

(** The payload of a token that verifies. *)
Definition token_ok (E : MealScanner.Env) (qrToken : string) (now : Date)
  : option QRTokenService.Payload :=
  match QRTokenService.verifyToken (MealScanner.platform E)
          (MealScanner.env_secret E) qrToken now with
  | Return p => Some p
  | Throw _ => None
  end.

Definition customer_of (p : option QRTokenService.Payload) (db : DB)
  : option Customer :=
  match p with
  | Some p =>
      match MealScanner.id_of_js (QRTokenService.customerId p),
            MealScanner.id_of_js (QRTokenService.messId p) with
      | Return c, Return m =>
          findOne (MealScanner.customer_filter c m) (customers db)
      | _, _ => None
      end
  | None => None
  end.

(** The meal type in force: the current window's, or lunch under admin
    override outside every window. *)
Definition mealType_of (cur : option MealType) (md : MealScanner.Metadata)
  : option MealType :=
  match cur with
  | Some m => Some m
  | None => if MealScanner.adminOverride md then Some Lunch else None
  end.

Definition subscription_of (c : option Customer) (now : Date) (db : DB)
  : option Subscription :=
  match c with
  | Some c => findOne (MealScanner.subscription_filter (c_id c) now)
                      (subscriptions db)
  | None => None
  end.

(** The checks of [MealScanner.processScan] that can fail, in the
    order in which the code makes them; a check that cannot be
    evaluated, because an earlier one failed to resolve what it needs,
    does not fail.  The balance test that follows the pause test is not
    among them: the subscription lookup already requires a positive
    balance. *)
Definition mealScanner_checks (E : MealScanner.Env) (qrToken : string)
           (md : MealScanner.Metadata) (now : Date) (db : DB)
           (cur : option MealType) : list (string * bool) :=
  let payload := token_ok E qrToken now in
  let customer := customer_of payload db in
  let mealType := mealType_of cur md in
  let subscription := subscription_of customer now db in
  let windowStart :=
    now - or_num (doubleScanWindowSeconds (MealScanner.settings E)) 30 * 1000 in
  [ ("invalid_qr", negb (present payload));
    ("customer_not_found", present payload && negb (present customer));
    ("invalid_meal_window", negb (present mealType));
    ("duplicate_scan",
     match customer, mealType with
     | Some c, Some m =>
         present (findOne_desc t_timestamp
                    (MealScanner.recent_filter (c_id c) m windowStart)
                    (transactions db))
     | _, _ => false
     end);
    ("already_scanned_today",
     negb (MealScanner.adminOverride md) &&
     match customer, mealType with
     | Some c, Some m =>
         present (findOne (MealScanner.today_filter (c_id c) m now)
                          (transactions db))
     | _, _ => false
     end);
    ("no_subscription", present customer && negb (present subscription));
    ("subscription_paused",
     match subscription with
     | Some s => present (s_pausedAt s)
     | None => false
     end);
    ("meal_type_not_allowed",
     match subscription, mealType with
     | Some s, Some m => MealScanner.not_in_plan md s m
     | _, _ => false
     end) ].




End EligibilityOrder.

Module SampleScanner.
Import Db Sample.
Local Open Scope list_scope.

Definition alice_token : string := "jwt-alice".

Definition alice_payload : JsValue :=
  JObj [("type", JStr "qr_scan"); ("customerId", JNum 1); ("messId", JNum 7);
        ("qrCodeId", JStr "qr-alice")].

Definition env (idx : bool) : MealScanner.Env :=
  MealScanner.mkEnv (Reference.platform [(alice_token, alice_payload)])
                    (Some "jwt-secret") idx SettingsCache.getDefaultSettings.

(** A plan that allows breakfast and lunch only. *)
Definition two_meal_plan : Plan := mkPlan (Some ["breakfast"; "lunch"]).

Definition sub_planned (remaining : Z) : Subscription :=
  mkSubscription 10%nat 7%nat 1%nat (Some two_meal_plan) 30 remaining None
                 (19800 * day) (19900 * day) true false None
                 (19800 * day) (19800 * day).

Definition db_planned (remaining : Z) : DB :=
  mkDB [alice] [sub_planned remaining] [] [] 100%nat.


Definition staff : option Id := Some 50%nat.

Definition md_tenant : MealScanner.Metadata :=
  MealScanner.mkMetadata (Some 7%nat) false None None None.

Definition md_bare : MealScanner.Metadata :=
  MealScanner.mkMetadata None false None None None.

Definition at_hour (h : Z) : Date := 19845 * day + h * 3600000.





End SampleScanner.


Module ScanServiceOrder.
Import Db.
Local Open Scope list_scope.



End ScanServiceOrder.


Module SampleIdempotent.
Import Db Sample.

Definition md : IdempotentScanService.Metadata :=
  IdempotentScanService.mkMetadata (Some 7%nat) (Some 50%nat)
                                   (Some "qr-alice") None.

(** 11:30 and 11:31, before the hard-coded lunch window opens at noon;
    12:30 and 12:31, inside it. *)
Definition t1130 : Date := 19845 * day + 11 * 3600000 + 30 * 60000.
Definition t1131 : Date := 19845 * day + 11 * 3600000 + 31 * 60000.
Definition t1230 : Date := 19845 * day + 12 * 3600000 + 30 * 60000.
Definition t1231 : Date := 19845 * day + 12 * 3600000 + 31 * 60000.

Definition first_call (idx : bool) (remaining : Z) (now : Date)
  : Exc IdempotentScanService.Result * DB :=
  IdempotentScanService.processScanIdempotent idx 1%nat Lunch
    (sub_of remaining) md now (db_with remaining).

(** The same call again, on the store the first call left. *)
Definition replay (idx : bool) (remaining : Z) (now1 now2 : Date)
  : Exc IdempotentScanService.Result * DB :=
  IdempotentScanService.processScanIdempotent idx 1%nat Lunch
    (sub_of remaining) md now2 (snd (first_call idx remaining now1)).

Definition tx_id_of (r : Exc IdempotentScanService.Result) : option Id :=
  match r with
  | Return x => Some (t_id (IdempotentScanService.transaction x))
  | Throw _ => None
  end.

Definition idempotent_of (r : Exc IdempotentScanService.Result) : option bool :=
  match r with
  | Return x => Some (IdempotentScanService.idempotent x)
  | Throw _ => None
  end.

End SampleIdempotent.

Module SampleBatch.
Import Db Sample.
Local Open Scope list_scope.

Definition secret : string := "hmac-secret".

(** The signed credential of [{"qrCodeId":"qr-alice"}]. *)
Definition alice_payloadB64 : string := "eyJxckNvZGVJZCI6InFyLWFsaWNlIn0=".
Definition alice_qr : string :=
  alice_payloadB64 ++ "." ++ Crypto.hmac_hex secret alice_payloadB64.

Definition defaults : Settings := SettingsCache.getDefaultSettings.
Definition t1230 : Date := 19845 * day + 12 * 3600000 + 30 * 60000.

Definition scan_at (ts : Date) (cid : string) : ScanBatch.Element :=
  Some (ScanBatch.mkScanRequest (Some alice_qr) (Some ts) (Some cid)).

End SampleBatch.


Module SampleOffline.
Import Db Sample SampleScanner.
Local Open Scope list_scope.


Definition scan (ts : Date) (cid : string) : MealScanner.Scan :=
  MealScanner.mkScan alice_token (Some ts) (Some cid).


(** The batch is replayed at 13:00, one second per scan. *)
Definition clock (k : nat) : Date := at_hour 13 + Z.of_nat k * 1000.

Definition run (idx : bool) (scans : list MealScanner.Scan)
  : Exc MealScanner.BatchResult * DB :=
  MealScanner.processBatch (env idx) scans staff md_tenant (at_hour 13) clock
                           (db_planned 5).






Definition route_outcomes (x : Exc ScanBatch.Response * DB)
  : list (option string * option string) :=
  match fst x with
  | Return b => List.map (fun r => (ScanBatch.r_clientId r, ScanBatch.reason r))
                         (ScanBatch.results b)
  | Throw _ => []
  end.

Definition route (idx : bool) (remaining : Z)
           (scans : list ScanBatch.Element)
  : Exc ScanBatch.Response * DB :=
  ScanBatch.batch ref_platform idx SampleBatch.defaults SampleBatch.secret
                  (Some 50%nat) (fun _ => SampleBatch.t1230) scans
                  (db_with remaining).

End SampleOffline.


(* ================================================================== *)
(** ** Notions used to state the properties *)
(* ================================================================== *)

(** Two-digit rendering, as in [currentTime]. *)
Definition pad2 (n : nat) : string := padStart0 2 (String_of_nat n).

(** Hours and minutes of an instant. *)
Definition wall_clock (now : Date) : ResolverSpec.HHMM :=
  (Z.to_nat (getHours now), Z.to_nat (getMinutes now)).

(** A byte. *)
Definition byte_range (b : Z) : Prop := 0 <= b < 256.

(** Sorting by a numeric key: [(a, b) => key(a) - key(b)]. *)
Definition by_key {A} (key : A -> Z) (a b : A) : Z := key a - key b.

Module CodecSpec.
Import Qr Crypto.
Local Open Scope list_scope.

(** What [verifyQrToken] does once the first two segments are known. *)
Definition verify_outcome (P : Platform) (k p sig : string) (tr : list Event)
  : Exc VerifyResult * list Event :=
  let a := hex_decode (hmac_hex k p) in
  let b := hex_decode sig in
  if Nat.eqb (List.length a) (List.length b) then
    if bytes_eqb a b then
      let tr' := ((tr ++ [EvHmac p]) ++ [EvTimingSafeEqual a b true])
                   ++ [EvJsonParse (base64_to_utf8 P p)] in
      match JSON_parse P (base64_to_utf8 P p) with
      | Return v => (Return (Valid v), tr')
      | Throw e => (Return (Invalid (message e)), tr')
      end
    else (Return (Invalid "Signature mismatch"),
          (tr ++ [EvHmac p]) ++ [EvTimingSafeEqual a b false])
  else (Return (Invalid (message length_error)),
        (tr ++ [EvHmac p]) ++ [EvTimingSafeEqualThrows a b]).

(** The calls a run makes, in order: nothing; or the MAC of the payload
    segment and a comparison that throws or fails; or the MAC, a
    successful comparison, and then the parse. *)
Definition mac_before_parse (P : Platform) (token : JsValue)
           (secret : option string) (tr : list Event) : Prop :=
  tr = []
  \/ exists t k p sig more,
       token = JStr t /\ secret = Some k /\ split_dot t = p :: sig :: more /\
       let a := hex_decode (hmac_hex k p) in
       let b := hex_decode sig in
       tr = [EvHmac p; EvTimingSafeEqualThrows a b]
       \/ tr = [EvHmac p; EvTimingSafeEqual a b false]
       \/ (a = b /\
           tr = [EvHmac p; EvTimingSafeEqual a b true;
                 EvJsonParse (base64_to_utf8 P p)]).

End CodecSpec.

Module StoreSpec.
Import Db.

(** A computation keeps a property of the store. *)
Definition preserves {A} (I : DB -> Prop) (m : M A) : Prop :=
  forall db, I db -> I (snd (m db)).

(** A property that only reads the subscriptions. *)
Definition on_subscriptions (I : DB -> Prop) : Prop :=
  forall db db', subscriptions db' = subscriptions db -> I db -> I db'.

End StoreSpec.

Module ScannerSpec.
Import Db MealScanner EligibilityOrder.


(** A run that ends in a typed denial left the subscriptions as they
    were. *)
Definition denial_keeps (m : M Result) : Prop :=
  forall db res,
    fst (m db) = Return res -> failureReason res <> None ->
    subscriptions (snd (m db)) = subscriptions db.


End ScannerSpec.

(* ================================================================== *)
(** ** utils/qr.js : minting a credential *)
(* ================================================================== *)

Module QrMint.
Import Crypto.
Local Open Scope list_scope.

(** The base64 alphabet. *)
Definition base64_char (v : Z) : ascii :=
  if v <? 26 then ascii_of_N (Z.to_N (65 + v))
  else if v <? 52 then ascii_of_N (Z.to_N (71 + v))
  else if v <? 62 then ascii_of_N (Z.to_N (v - 4))
  else if v =? 62 then "+"%char
  else "/"%char.

(** [buf.toString('base64')]: three bytes give four characters, the
    last group is padded with [=]. *)
Fixpoint base64_encode (bs : list Z) : string :=
  match bs with
  | a :: b :: c :: rest =>
      String (base64_char (a / 4))
        (String (base64_char ((a mod 4) * 16 + b / 16))
           (String (base64_char ((b mod 16) * 4 + c / 64))
              (String (base64_char (c mod 64)) (base64_encode rest))))
  | [a; b] =>
      String (base64_char (a / 4))
        (String (base64_char ((a mod 4) * 16 + b / 16))
           (String (base64_char ((b mod 16) * 4)) "="))
  | [a] =>
      String (base64_char (a / 4))
        (String (base64_char ((a mod 4) * 16)) "==")
  | [] => EmptyString
  end.

(** [Buffer.from(s, 'utf8').toString('base64')] *)
Definition to_base64 (s : string) : string :=
  base64_encode (bytes_of_string s).

Definition invalid_arg : Error :=
  mkError "The first argument must be of type string or an instance of Buffer"
          "ERR_INVALID_ARG_TYPE".

Definition invalid_key : Error :=
  mkError "The key argument must be of type string" "ERR_INVALID_ARG_TYPE".

(** [export function createQrToken(payloadObj, secret)].
    [JSON_stringify] is the library's [JSON.stringify], which answers
    [undefined] ([None]) for a value that has no JSON text. *)
Definition createQrToken (JSON_stringify : JsValue -> option string)
           (payloadObj : JsValue) (secret : option string) : Exc string :=
  match JSON_stringify payloadObj with
  | None => Throw invalid_arg
  | Some payloadStr =>
      let payloadB64 := to_base64 payloadStr in
      match secret with
      | None => Throw invalid_key
      | Some k =>
          let sig := hmac_hex k payloadB64 in
          Return (payloadB64 ++ "." ++ sig)%string
      end
  end.

End QrMint.

(** The JSON text of the worked example. *)
Definition sample_text : string := Reference.base64_decode sample_payloadB64.

(** Runs of several [getSettings] calls. *)
Module SettingsRun.
Import SettingsCache.
Local Open Scope list_scope.

(** A call of [getSettings] whose cache is stale runs in two steps,
    with an [await] in between during which other calls may run. *)

(** Up to the [await]: a fresh cache is returned at once ([inl]);
    otherwise the query is issued and the call waits for its answer
    ([inr]). *)
Definition getSettings_enter (provider : nat -> ProviderResult) (now : Z)
           (st : State) : (Settings + ProviderResult) * State :=
  let fresh :=
    match cache st with
    | Some _ => now - loadedAt st <? TTL
    | None => false
    end in
  if fresh then (inl (or_default (cache st)), st)
  else (inr (provider (queries st)),
        mkState (cache st) (loadedAt st) (S (queries st))).

(** From the settlement of the query on; [now'] is [Date.now()] then. *)
Definition getSettings_resume (answer : ProviderResult) (now' : Z)
           (st : State) : Settings * State :=
  match answer with
  | Found s => (s, mkState (Some s) now' (queries st))
  | NotFound =>
      (getDefaultSettings, mkState (Some getDefaultSettings) now' (queries st))
  | ProviderThrows _ => (or_default (cache st), st)
  end.

(** Calls awaited one after the other: each pair is [Date.now()] on
    entry of a call and after its query has resolved, and a call
    returns before the next one starts. *)
Fixpoint getSettings_calls (provider : nat -> ProviderResult)
         (times : list (Z * Z)) (st : State) : State :=
  match times with
  | [] => st
  | (now, now') :: rest =>
      getSettings_calls provider rest (snd (getSettings provider now now' st))
  end.

(** Two calls that overlap: the second enters at [now2], before the
    query of the first has settled; the queries then settle at [now1']
    and [now2'], in that order. *)
Definition getSettings_overlapping (provider : nat -> ProviderResult)
           (now1 now2 now1' now2' : Z) (st : State) : State :=
  let (a1, st1) := getSettings_enter provider now1 st in
  let (a2, st2) := getSettings_enter provider now2 st1 in
  let st3 :=
    match a1 with
    | inl _ => st2
    | inr answer => snd (getSettings_resume answer now1' st2)
    end in
  match a2 with
  | inl _ => st3
  | inr answer => snd (getSettings_resume answer now2' st3)
  end.

(** The clock never runs backwards, from [prev] on. *)
Fixpoint chronological (prev : Z) (times : list (Z * Z)) : Prop :=
  match times with
  | [] => True
  | (now, now') :: rest => prev <= now /\ now <= now' /\ chronological now' rest
  end.

(** Entry time of the last call, [t0] when there is none. *)
Fixpoint last_entry (t0 : Z) (times : list (Z * Z)) : Z :=
  match times with
  | [] => t0
  | (now, _) :: rest => last_entry now rest
  end.

End SettingsRun.

(* ================================================================== *)
(** ** models/Settings.js : the stored meal windows *)
(* ================================================================== *)

Module SettingsModel.
Local Open Scope list_scope.

(** A window of the settings document.  The schema types both
    boundaries as [String] and gives each a default, so a document
    carries two strings per window. *)
Record Win := mkWin {
  win_start : string;
  win_end : string
}.

Record Wins := mkWins {
  ws_breakfast : Win;
  ws_lunch : Win;
  ws_dinner : Win
}.

(** [a > b] on strings. *)
Definition str_gt (a b : string) : bool := negb (String.leb a b).
(** [a < b] on strings. *)
Definition str_lt (a b : string) : bool := negb (String.leb b a).

(** [currentTime >= window.start && currentTime <= window.end] *)
Definition contains (w : Win) (currentTime : string) : bool :=
  str_ge currentTime (win_start w) && str_le currentTime (win_end w).

(** [settingsSchema.virtual('currentMealWindow')]; [currentTime] is
    [now.toTimeString().slice(0, 5)]. *)
Definition currentMealWindow (ws : Wins) (currentTime : string)
  : option MealType :=
  if contains (ws_breakfast ws) currentTime then Some Breakfast
  else if contains (ws_lunch ws) currentTime then Some Lunch
  else if contains (ws_dinner ws) currentTime then Some Dinner
  else None.

Definition window_of (ws : Wins) (mealType : MealType) : option Win :=
  match mealType with
  | Breakfast => Some (ws_breakfast ws)
  | Lunch => Some (ws_lunch ws)
  | Dinner => Some (ws_dinner ws)
  | _ => None
  end.

(** [settingsSchema.methods.isWithinMealWindow(mealType)] *)
Definition isWithinMealWindow (ws : Wins) (mealType : MealType)
           (currentTime : string) : bool :=
  match window_of ws mealType with
  | None => false
  | Some window => contains window currentTime
  end.

Record NextWindow := mkNext {
  next_type : MealType;
  startsAt : string;
  isToday : bool
}.

(** [settingsSchema.methods.getNextMealWindow()] *)
Definition getNextMealWindow (ws : Wins) (currentTime : string) : NextWindow :=
  let windows := [(Breakfast, ws_breakfast ws); (Lunch, ws_lunch ws);
                  (Dinner, ws_dinner ws)] in
  (* Find next window today *)
  match List.find (fun w => str_lt currentTime (win_start (snd w))) windows with
  | Some w => mkNext (fst w) (win_start (snd w)) true
  | None =>
      (* Next window is tomorrow's breakfast *)
      mkNext Breakfast (win_start (ws_breakfast ws)) false
  end.

(** The test of the pre-save hook on two windows. *)
Definition overlap (a b : Win) : bool :=
  (str_le (win_start a) (win_start b) && str_gt (win_end a) (win_start b))
  || (str_le (win_start b) (win_start a) && str_gt (win_end b) (win_start a)).

(** [settingsSchema.pre('save', ...)]: the error passed to [next], if
    any.  The pairs are visited in the order of the two loops. *)
Definition pre_save (ws : Wins) : option Error :=
  let times := [("breakfast", ws_breakfast ws); ("lunch", ws_lunch ws);
                ("dinner", ws_dinner ws)] in
  let pairs :=
    flat_map (fun i =>
                List.map (fun j => (nth i times ("", ws_breakfast ws),
                                    nth j times ("", ws_breakfast ws)))
                         (seq (S i) (List.length times - S i)))
             (seq 0 (List.length times)) in
  match List.find (fun p => overlap (snd (fst p)) (snd (snd p))) pairs with
  | Some p =>
      Some (mkError ("Meal windows overlap: " ++ fst (fst p) ++ " and "
                     ++ fst (snd p))%string "Error")
  | None => None
  end.

End SettingsModel.

(* ================================================================== *)
(** ** models/Subscription.js : eligibility of a document *)
(* ================================================================== *)

Module SubscriptionMethods.
Import Db.

(** The document Mongoose hands to a method.  [mealBalances] is a
    nested path of the schema: on a document it is always an object,
    and a balance the stored document lacks reads as its default, 0. *)
Definition hydrate (stored : Subscription) : Subscription :=
  match s_mealBalances stored with
  | Some _ => stored
  | None =>
      mkSubscription (s_id stored) (s_messId stored) (s_customerId stored)
        (s_planId stored) (s_mealsTotal stored) (s_mealsRemaining stored)
        (Some (mkBalances 0 0 0 0)) (s_startDate stored) (s_endDate stored)
        (s_active stored) (s_needsRenewal stored) (s_pausedAt stored)
        (s_createdAt stored) (s_updatedAt stored)
  end.

(** [subscriptionSchema.methods.isValidForMeal = function(mealType)],
    as a truth value, on the document loaded from [stored].
    [paymentStatus] is the one field the method reads that the record
    above does not carry; [mealType] is [None] for a missing
    argument. *)
Definition isValidForMeal (stored : Subscription) (paymentStatus : string)
           (mealType : option MealType) (now : Date) : bool :=
  let this := hydrate stored in
  let hasBalance :=
    match s_mealBalances this, mealType with
    | Some b, Some m =>
        match balance_of b m with
        | Some v => 0 <? v
        | None => false
        end
    | _, _ => false
    end in
  let hasLegacy :=
    negb (present (s_mealBalances this)) && (0 <? s_mealsRemaining this) in
  s_active this
  && (hasBalance || hasLegacy)
  && (now <=? s_endDate this)
  && String.eqb paymentStatus "paid"
  && negb (present (s_pausedAt this)).

End SubscriptionMethods.

Module SampleSubscription.
Import Db.
Local Open Scope list_scope.

(** A subscription kept in per-meal balances: five lunches, nothing
    else. *)
Definition five_lunches : Subscription :=
  mkSubscription 10%nat 7%nat 1%nat None 30 0 (Some (mkBalances 0 5 0 0))
                 (19800 * Sample.day) (19900 * Sample.day) true false None
                 (19800 * Sample.day) (19800 * Sample.day).

Definition db_lunches : DB := mkDB [Sample.alice] [five_lunches] [] [] 100%nat.

End SampleSubscription.

(** What a redemption leaves in the store. *)
Module LedgerSpec.
Import Db.
Local Open Scope list_scope.

(** Between [db] and [db'] exactly one stored subscription lost exactly
    one meal, exactly one transaction, the success record [t] of that
    deduction, was appended, and no customer changed. *)
Definition one_meal_deducted (db db' : DB) (t : Tx) : Prop :=
  exists l1 old new l2,
    subscriptions db = l1 ++ old :: l2 /\
    subscriptions db' = l1 ++ new :: l2 /\
    s_id new = s_id old /\
    s_active old = true /\
    0 < s_mealsRemaining old /\
    s_mealsRemaining new = s_mealsRemaining old - 1 /\
    s_mealBalances new = s_mealBalances old /\
    (s_active new = true \/ s_mealsRemaining new = 0) /\
    transactions db' = transactions db ++ [t] /\
    t_status t = TxSuccess /\
    t_subscriptionId t = Some (s_id old) /\
    t_mealsRemainingAfter t = Some (s_mealsRemaining new) /\
    customers db' = customers db.

(** [_id] is unique among the stored subscriptions. *)
Definition unique_ids (db : DB) : Prop :=
  NoDup (List.map s_id (subscriptions db)).

(** What a scan of the scanner that reports success has done. *)
Definition scanner_success (m : M MealScanner.Result) : Prop :=
  forall db res db',
    unique_ids db ->
    m db = (Return res, db') -> MealScanner.success res = true ->
    exists t,
      MealScanner.transaction res = Some t
      /\ one_meal_deducted db db' t
      /\ MealScanner.mealsRemaining res = t_mealsRemainingAfter t
      /\ (t_mealsRemainingAfter t = Some 0 ->
          exists sid stored,
            t_subscriptionId t = Some sid
            /\ lookup_subscription db' sid = Some stored
            /\ s_active stored = false).

End LedgerSpec.

(* ================================================================== *)
(** ** routes/scanBatch.js : the request handler *)
(* ================================================================== *)

Module ScanBatchHandler.
Import Db.
Local Open Scope list_scope.

Definition ApiError (msg code : string) : Error := mkError msg code.

(** The handler of [POST /scan/batch].  [body_scans] is [req.body.scans]
    when it is an array ([None] otherwise), whatever its elements;
    [QR_HMAC_SECRET] and [JWT_SECRET] are the two environment variables,
    [settings] is what [getSettings()] resolves to, and [is_ApiError] is
    [err instanceof ApiError].  [logAudit] has no effect (its documents
    carry no [messId]) and swallows its own failure. *)
Definition handler (P : Platform) (idx : bool)
           (is_ApiError : Error -> bool)
           (body_scans : option (list ScanBatch.Element))
           (QR_HMAC_SECRET JWT_SECRET : option string)
           (settings : Settings) (userId : option Id)
           (clock : nat -> Date) : M ScanBatch.Response :=
  let HMAC_SECRET := or_str QR_HMAC_SECRET JWT_SECRET in
  match body_scans with
  | None => SE.throw (ApiError "Scans must be an array" "INVALID_SCANS_ARRAY")
  | Some scans =>
      if Nat.eqb (List.length scans) 0
      then SE.throw (ApiError "Scans array cannot be empty" "EMPTY_SCANS_ARRAY")
      else
        match HMAC_SECRET with
        | Some secret =>
            if negb (truthy_str HMAC_SECRET)
            then SE.throw (ApiError "Server misconfigured" "SERVER_ERROR")
            else
              SE.catch
                (ScanBatch.batch P idx settings secret userId clock scans)
                (fun err =>
                   if is_ApiError err then SE.throw err
                   else SE.throw (ApiError "Batch scan processing failed"
                                           "BATCH_SCAN_ERROR"))
        | None => SE.throw (ApiError "Server misconfigured" "SERVER_ERROR")
        end
  end.

End ScanBatchHandler.

(* ================================================================== *)
(** ** What a call of the idempotent service has done *)
(* ================================================================== *)

Module IdempotentSpec.
Import Db IdempotentScanService.
Local Open Scope list_scope.

(** A recorded success of this customer and meal type. *)
Definition recorded (customerId : Id) (mealType : MealType) (t : Tx)
           (txs : list Tx) : Prop :=
  In t txs /\ t_status t = TxSuccess /\ t_customerId t = Some customerId
  /\ t_mealType t = mealType.

(** Exactly one stored document, the one with the [_id] of
    [subscription] and a positive balance, lost exactly one meal, and
    [t], the record of it, is the one transaction appended. *)
Definition redeemed_once (subscription : Subscription) (db db' : DB) (t : Tx)
  : Prop :=
  exists l1 old new l2,
    subscriptions db = l1 ++ old :: l2 /\
    subscriptions db' = l1 ++ new :: l2 /\
    s_id old = s_id subscription /\ s_id new = s_id old /\
    0 < s_mealsRemaining old /\
    s_mealsRemaining new = s_mealsRemaining old - 1 /\
    s_mealBalances new = s_mealBalances old /\
    transactions db' = transactions db ++ [t] /\
    t_subscriptionId t = Some (s_id subscription) /\
    t_mealsRemainingAfter t = Some (s_mealsRemaining new) /\
    customers db' = customers db.

(** No stored document with the [_id] of [subscription] has a meal
    left. *)
Definition balance_exhausted (subscription : Subscription) (db : DB) : Prop :=
  existsb (fun s => Nat.eqb (s_id s) (s_id subscription)
                    && (0 <? s_mealsRemaining s)) (subscriptions db) = false.

End IdempotentSpec.

(* ================================================================== *)
(** ** services/deepLinkService.js and the deep-link confirmation *)
(* ================================================================== *)

Module DeepLink.
Import Db.
Local Open Scope list_scope.

Record TokenData := mkTokenData {
  customerId : JsValue;
  messId : JsValue;
  nonce : JsValue;
  issuedAt : JsValue
}.

Definition ApiError (msg code : string) : Error := mkError msg code.

(** [jwt.verify(token, this.secret)].  [this.secret] is
    [process.env.JWT_SECRET] as read by the constructor; when the
    variable is not set the library is called with [undefined], and
    [verify_unkeyed] is what it then does. *)
Definition verify_link (P : Platform)
           (verify_unkeyed : string -> Date -> Exc JsValue)
           (secret : option string) (token : string) (now : Date)
  : Exc JsValue :=
  match secret with
  | Some s => jwt_verify P token s now
  | None => verify_unkeyed token now
  end.

(** [verifyDeepLink(token)] *)
Definition verifyDeepLink (P : Platform)
           (verify_unkeyed : string -> Date -> Exc JsValue)
           (secret : option string) (token : string) (now : Date)
  : Exc TokenData :=
  try_catch
    (decoded <- verify_link P verify_unkeyed secret token now ;;
     ty <- get_field decoded "type" ;;
     if negb (QRTokenService.is_str ty "deep_link_scan")
     then Throw (ApiError "Invalid token type" "INVALID_TOKEN_TYPE")
     else
       cid <- get_field decoded "customerId" ;;
       mid <- get_field decoded "messId" ;;
       n <- get_field decoded "nonce" ;;
       if negb (truthy cid) || negb (truthy mid) || negb (truthy n)
       then Throw (ApiError "Invalid token payload" "INVALID_TOKEN")
       else
         iat <- get_field decoded "iat" ;;
         Return (mkTokenData cid mid n iat))%exc
    (fun error =>
       if String.eqb (code error) "TokenExpiredError"
       then Throw (ApiError "Link expired" "LINK_EXPIRED")
       else if String.eqb (code error) "JsonWebTokenError"
       then Throw (ApiError "Invalid link" "INVALID_LINK")
       else Throw error).

(** [const usedNonces = new Map()]: nonce to the instant of its use.
    [same] is the key equality of [Map]. *)
Definition Nonces : Type := list (JsValue * Date).

Definition has (same : JsValue -> JsValue -> bool) (m : Nonces)
           (k : JsValue) : bool :=
  existsb (fun kv => same (fst kv) k) m.

Fixpoint set (same : JsValue -> JsValue -> bool) (m : Nonces) (k : JsValue)
         (v : Date) : Nonces :=
  match m with
  | [] => [(k, v)]
  | (k', v') :: rest =>
      if same k' k then (k', v) :: rest else (k', v') :: set same rest k v
  end.

(** The handler of [POST /confirm], behind [requireAuth] and
    [requireRole].  [body_token] is [req.body.token], [req_messId] is
    [req.messId], [user] is [req.user.sub || req.user.id] and [role] is
    [req.user.role]; the link is verified at [now0], the nonce is stamped
    at [now1] and the scan runs at [now2].  [env_secret] is
    [process.env.QR_JWT_SECRET || process.env.JWT_SECRET] as the scan
    service reads it. *)
Definition confirm (P : Platform)
           (verify_unkeyed : string -> Date -> Exc JsValue)
           (same : JsValue -> JsValue -> bool)
           (secret env_secret : option string) (idx : bool)
           (body_token : option string) (req_messId : option Id)
           (user : option Id) (role : string) (now0 now1 now2 : Date)
           (usedNonces : Nonces) (db : DB)
  : Exc ScanService.Result * (Nonces * DB) :=
  match body_token with
  | None | Some EmptyString =>
      (Throw (ApiError "Token required" "VALIDATION_ERROR"), (usedNonces, db))
  | Some token =>
      (* Verify token again *)
      match verifyDeepLink P verify_unkeyed secret token now0 with
      | Throw e => (Throw e, (usedNonces, db))
      | Return tokenData =>
          (* Check if nonce already used *)
          if has same usedNonces (nonce tokenData)
          then (Throw (ApiError "Link already used" "LINK_USED"),
                (usedNonces, db))
          else
            (* Mark nonce as used *)
            let usedNonces1 := set same usedNonces (nonce tokenData) now1 in
            (* Verify mess ownership *)
            match req_messId with
            | None =>
                (Throw (mkError "Cannot read properties of undefined"
                                "TypeError"), (usedNonces1, db))
            | Some m =>
                if negb (match MealScanner.id_of_js (messId tokenData) with
                         | Return x => Nat.eqb x m
                         | Throw _ => false
                         end)
                then (Throw (ApiError "Link belongs to different mess"
                                      "WRONG_MESS"), (usedNonces1, db))
                else
                  (* Process scan using existing service *)
                  let (result, db') :=
                    ScanService.processScan P env_secret idx token user
                      (ScanService.mkMetadata (Some m) role false) now2 db in
                  (result, (usedNonces1, db'))
            end
      end
  end.

(** What [jwt.verify] returns is the payload carried by the token: it
    depends neither on the key nor on the instant. *)
Definition payload_from_token (P : Platform)
           (verify_unkeyed : string -> Date -> Exc JsValue)
           (secret : option string) (token : string) : Prop :=
  forall (s : string) (t1 t2 : Date) (d1 d2 : JsValue),
    verify_link P verify_unkeyed secret token t1 = Return d1 ->
    jwt_verify P token s t2 = Return d2 ->
    d2 = d1.

End DeepLink.

(* ================================================================== *)
(** ** One settings document, three resolvers *)
(* ================================================================== *)

Module ResolverAgreement.
Import SettingsModel.

(** The settings object whose [mealWindows] are the windows of a stored
    document, with the [start]/[end] spelling. *)
Definition settings_of (ws : Wins) (doubleScan alert : option Z)
           (tz : option string) : Settings :=
  mkSettings
    (Some (mkWindows
             (Some (window (win_start (ws_breakfast ws))
                           (win_end (ws_breakfast ws))))
             (Some (window (win_start (ws_lunch ws))
                           (win_end (ws_lunch ws))))
             (Some (window (win_start (ws_dinner ws))
                           (win_end (ws_dinner ws))))))
    doubleScan alert tz.

(** No boundary is the empty string. *)
Definition boundaries_set (ws : Wins) : Prop :=
  win_start (ws_breakfast ws) <> "" /\ win_end (ws_breakfast ws) <> "" /\
  win_start (ws_lunch ws) <> "" /\ win_end (ws_lunch ws) <> "" /\
  win_start (ws_dinner ws) <> "" /\ win_end (ws_dinner ws) <> "".

End ResolverAgreement.

(* ================================================================== *)
(** * Properties *)
(* ================================================================== *)

(* ------------------------------------------------------------------ *)
(** ** Meal-window resolver *)
(* ------------------------------------------------------------------ *)

Section ResolverFacts.
Import ResolverSpec MealTypeHelper.


(** Two-digit rendering orders numbers below 60 as the numbers
    themselves are ordered; checked on all pairs. *)
Lemma pad2_compare_table :
  forallb (fun a => forallb (fun b =>
    match String.compare (pad2 a) (pad2 b), Nat.compare a b with
    | Eq, Eq | Lt, Lt | Gt, Gt => Nat.eqb (String.length (pad2 a)) 2
    | _, _ => false
    end) (seq 0 60)) (seq 0 60) = true.
Proof. vm_compute. reflexivity. Qed.

Lemma pad2_compare (a b : nat) :
  (a < 60)%nat -> (b < 60)%nat ->
  String.compare (pad2 a) (pad2 b) = Nat.compare a b /\
  String.length (pad2 a) = 2%nat.
Proof.
  intros Ha Hb.
  pose proof pad2_compare_table as T.
  rewrite forallb_forall in T.
  specialize (T a). rewrite in_seq in T.
  assert (Ta := T ltac:(lia)). clear T.
  rewrite forallb_forall in Ta.
  specialize (Ta b). rewrite in_seq in Ta.
  assert (Tb := Ta ltac:(lia)). clear Ta.
  destruct (String.compare (pad2 a) (pad2 b)), (Nat.compare a b);
    try discriminate; apply Nat.eqb_eq in Tb; auto.
Qed.

Lemma compare_refl (s : string) : String.compare s s = Eq.
Proof.
  induction s as [|c s IH]; simpl; [reflexivity|].
  unfold Ascii.compare. rewrite N.compare_refl. exact IH.
Qed.

(** Lexicographic comparison splits over equal-length prefixes. *)
Lemma compare_app (s1 s2 t1 t2 : string) :
  String.length s1 = String.length s2 ->
  String.compare (s1 ++ t1) (s2 ++ t2) =
  match String.compare s1 s2 with
  | Eq => String.compare t1 t2
  | c => c
  end.
Proof.
  revert s2. induction s1 as [|c1 s1 IH]; intros [|c2 s2] Hlen;
    simpl in *; try discriminate; [reflexivity|].
  destruct (Ascii.compare c1 c2); auto.
Qed.

Lemma render_compare (a b : HHMM) :
  wf_hhmm a = true -> wf_hhmm b = true ->
  String.compare (render a) (render b) =
  Z.compare (minutes_of a) (minutes_of b).
Proof.
  destruct a as [h m], b as [h' m']. unfold wf_hhmm, render, minutes_of.
  simpl fst; simpl snd. intros Ha Hb.
  apply andb_prop in Ha, Hb. destruct Ha as [Hh Hm], Hb as [Hh' Hm'].
  apply Nat.ltb_lt in Hh, Hm, Hh', Hm'.
  fold (pad2 h) (pad2 m) (pad2 h') (pad2 m').
  destruct (pad2_compare h h') as [Ch Lh]; try lia.
  destruct (pad2_compare h' h) as [_ Lh']; try lia.
  destruct (pad2_compare m m') as [Cm Lm]; try lia.
  destruct (pad2_compare m' m) as [_ Lm']; try lia.
  rewrite compare_app by congruence. rewrite Ch.
  destruct (Nat.compare_spec h h') as [E|L|G].
  - subst h'.
    rewrite (compare_app ":" ":" (pad2 m) (pad2 m')) by reflexivity.
    simpl String.compare at 1. rewrite Cm.
    destruct (Nat.compare_spec m m') as [E|L|G]; symmetry.
    + subst. apply Z.compare_refl.
    + apply Z.compare_lt_iff. lia.
    + apply Z.compare_gt_iff. lia.
  - symmetry. apply Z.compare_lt_iff. lia.
  - symmetry. apply Z.compare_gt_iff. lia.
Qed.

Lemma render_leb (a b : HHMM) :
  wf_hhmm a = true -> wf_hhmm b = true ->
  String.leb (render a) (render b) = (minutes_of a <=? minutes_of b).
Proof.
  intros Ha Hb. unfold String.leb. rewrite render_compare by assumption.
  unfold Z.leb. reflexivity.
Qed.


Lemma wall_clock_wf (now : Date) : wf_hhmm (wall_clock now) = true.
Proof.
  unfold wf_hhmm, wall_clock, getHours, getMinutes. simpl.
  pose proof (Z.mod_pos_bound (now / 3600000) 24 ltac:(lia)).
  pose proof (Z.mod_pos_bound (now / 60000) 60 ltac:(lia)).
  apply andb_true_intro; split; apply Nat.ltb_lt; lia.
Qed.

Lemma wall_clock_minutes (now : Date) : minutes_of (wall_clock now) = timeOfDay now.
Proof.
  unfold minutes_of, wall_clock, timeOfDay, getHours, getMinutes. simpl.
  pose proof (Z.mod_pos_bound (now / 3600000) 24 ltac:(lia)).
  pose proof (Z.mod_pos_bound (now / 60000) 60 ltac:(lia)).
  rewrite !Z2Nat.id by lia. reflexivity.
Qed.

Lemma currentTime_render (now : Date) : currentTime now = render (wall_clock now).
Proof. reflexivity. Qed.

Lemma render_truthy (t : HHMM) : truthy_str (Some (render t)) = true.
Proof.
  unfold truthy_str, render.
  destruct (padStart0 2 (String_of_nat (fst t))); reflexivity.
Qed.

(** The string test of the code agrees with inclusive containment of
    the time of day, for a stored well-formed window. *)
Lemma isTimeInWindow_contains (now : Date) (w : option (HHMM * HHMM)) :
  wf_window w = true ->
  isTimeInWindow (currentTime now) (startOf (stored w)) (endOf (stored w))
  = contains w (timeOfDay now).
Proof.
  destruct w as [[s e]|]; [|reflexivity].
  cbn [wf_window]. intros Hwf. apply andb_prop in Hwf. destruct Hwf as [Hs He].
  unfold isTimeInWindow, stored, startOf, endOf, window, or_str, contains.
  cbn [w_start w_end w_from w_to].
  rewrite !render_truthy. cbn [negb orb].
  unfold str_ge, str_le. rewrite currentTime_render.
  rewrite !render_leb by (auto using wall_clock_wf).
  rewrite wall_clock_minutes. reflexivity.
Qed.

Lemma determineMealType_refines (ws : Windows) (now : Date) :
  wf ws = true ->
  determineMealType (config_of ws) now = resolve now ws.
Proof.
  unfold wf. intros H.
  apply andb_prop in H. destruct H as [H Hd].
  apply andb_prop in H. destruct H as [Hb Hl].
  unfold determineMealType, resolve, config_of, priority. simpl.
  rewrite !isTimeInWindow_contains by assumption.
  destruct (contains (breakfastW ws) (timeOfDay now)); [reflexivity|].
  destruct (contains (lunchW ws) (timeOfDay now)); [reflexivity|].
  destruct (contains (dinnerW ws) (timeOfDay now)); reflexivity.
Qed.

End ResolverFacts.

Lemma HourResolver_refines (now : Date) :
  HourResolver.determineMealType now = ResolverSpec.resolve now hour_windows.
Proof.
  unfold HourResolver.determineMealType, ResolverSpec.resolve,
    ResolverSpec.priority, ResolverSpec.timeOfDay, getMinutes.
  pose proof (Z.mod_pos_bound (now / 60000) 60 ltac:(lia)) as Hm.
  set (h := getHours now). set (m := (now / 60000) mod 60) in *.
  cbn [find ResolverSpec.windowOf hour_windows ResolverSpec.breakfastW
       ResolverSpec.lunchW ResolverSpec.dinnerW ResolverSpec.contains].
  unfold ResolverSpec.minutes_of. cbn [fst snd].
  repeat match goal with
  | |- context [if ?b then _ else _] =>
      let E := fresh "E" in destruct b eqn:E
  end; try reflexivity; exfalso;
  repeat match goal with
  | H : (_ && _)%bool = true |- _ =>
      apply andb_prop in H; destruct H
  | H : (_ && _)%bool = false |- _ =>
      apply andb_false_iff in H; destruct H
  | H : (_ <=? _) = true |- _ => apply Z.leb_le in H
  | H : (_ <=? _) = false |- _ => apply Z.leb_gt in H
  | H : (_ <? _) = true |- _ => apply Z.ltb_lt in H
  | H : (_ <? _) = false |- _ => apply Z.ltb_ge in H
  end; lia.
Qed.

(** C8. The configured resolver tries breakfast, lunch, dinner in that
    order and returns the first whose stored [HH:MM] window contains the
    time of day, both boundaries included, and none when no window
    matches; the hour-only resolver does the same over its fixed
    windows.  With lunch stored as 12:00 to 15:00 the answer is lunch at
    12:00 and 15:00 and none at 11:59 and 15:01. *)
Theorem C8_resolver_first_match_inclusive :
  forall (ws : ResolverSpec.Windows) (now : Date),
    ResolverSpec.wf ws = true ->
    MealTypeHelper.determineMealType (ResolverSpec.config_of ws) now
      = ResolverSpec.resolve now ws
    /\ HourResolver.determineMealType now
      = ResolverSpec.resolve now hour_windows
    /\ (let cfg := ResolverSpec.config_of ResolverSpec.lunch_only in
        MealTypeHelper.determineMealType cfg (at_hm 12 0) = Some Lunch
        /\ MealTypeHelper.determineMealType cfg (at_hm 15 0) = Some Lunch
        /\ MealTypeHelper.determineMealType cfg (at_hm 11 59) = None
        /\ MealTypeHelper.determineMealType cfg (at_hm 15 1) = None)
    /\ (let cfg := SettingsCache.getDefaultSettings in
        MealTypeHelper.determineMealType cfg (at_hm 12 0) = Some Lunch
        /\ MealTypeHelper.determineMealType cfg (at_hm 15 0) = Some Lunch
        /\ MealTypeHelper.determineMealType cfg (at_hm 11 59) = None
        /\ MealTypeHelper.determineMealType cfg (at_hm 15 1) = None).
Proof.
  intros ws now Hwf. split; [|split; [|split]].
  - apply determineMealType_refines. exact Hwf.
  - apply HourResolver_refines.
  - cbv zeta. repeat split; vm_compute; reflexivity.
  - cbv zeta. repeat split; vm_compute; reflexivity.
Qed.

Lemma C8_resolver_witness :
  ResolverSpec.wf ResolverSpec.lunch_only = true /\
  MealTypeHelper.determineMealType
    (ResolverSpec.config_of ResolverSpec.lunch_only) (at_hm 12 0)
  = ResolverSpec.resolve (at_hm 12 0) ResolverSpec.lunch_only.
Proof.
  split; [reflexivity|].
  exact (proj1 (C8_resolver_first_match_inclusive
                  ResolverSpec.lunch_only (at_hm 12 0) eq_refl)).
Defined.

(** On any day, whatever the seconds, the boundary minutes of a
    lunch-only 12:00 to 15:00 configuration resolve as stated. *)
Lemma lunch_window_boundaries (now : Date) :
  let cfg := ResolverSpec.config_of ResolverSpec.lunch_only in
  let tod := ResolverSpec.timeOfDay now in
  (tod = 720 \/ tod = 900 ->
     MealTypeHelper.determineMealType cfg now = Some Lunch) /\
  (tod = 719 \/ tod = 901 ->
     MealTypeHelper.determineMealType cfg now = None).
Proof.
  cbv zeta. rewrite determineMealType_refines by reflexivity.
  unfold ResolverSpec.resolve, ResolverSpec.priority.
  cbn [find ResolverSpec.windowOf ResolverSpec.lunch_only
       ResolverSpec.breakfastW ResolverSpec.lunchW ResolverSpec.dinnerW
       ResolverSpec.contains].
  split; intros [E|E]; rewrite E; reflexivity.
Qed.

(* ------------------------------------------------------------------ *)
(** ** Settings cache *)
(* ------------------------------------------------------------------ *)

(** C9. [getSettings] never propagates a provider error: when the lookup
    throws it answers with the cached document if there is one and with
    the hardcoded defaults otherwise (the three default meal windows and
    a 30 second double-scan window); a cached document younger than the
    TTL is returned without a provider query. *)
Theorem C9_getSettings_fallback_and_ttl :
  forall (provider : nat -> SettingsCache.ProviderResult)
         (now now' : Z) (st : SettingsCache.State),
    (exists s, fst (SettingsCache.getSettings provider now now' st) = Return s)
    /\ (forall e, provider (SettingsCache.queries st)
                  = SettingsCache.ProviderThrows e ->
          fst (SettingsCache.getSettings provider now now' st)
          = Return (match SettingsCache.cache st with
                    | Some c => c
                    | None => SettingsCache.getDefaultSettings
                    end)
          /\ SettingsCache.cache
               (snd (SettingsCache.getSettings provider now now' st))
             = SettingsCache.cache st)
    /\ (forall c, SettingsCache.cache st = Some c ->
          now - SettingsCache.loadedAt st < SettingsCache.TTL ->
          SettingsCache.getSettings provider now now' st = (Return c, st))
    /\ doubleScanWindowSeconds SettingsCache.getDefaultSettings = Some 30
    /\ mealWindows SettingsCache.getDefaultSettings
       = Some (mkWindows (Some (window "06:30" "10:00"))
                         (Some (window "12:00" "15:00"))
                         (Some (window "19:00" "22:00"))).
Proof.
  intros provider now now' st.
  unfold SettingsCache.getSettings, SettingsCache.findOne.
  destruct st as [c l q]. cbn [SettingsCache.cache SettingsCache.loadedAt
                               SettingsCache.queries].
  repeat split.
  - destruct c as [c|]; [destruct (now - l <? SettingsCache.TTL)|];
      try (eexists; reflexivity);
      destruct (provider q); eexists; reflexivity.
  - destruct c as [c|]; [destruct (now - l <? SettingsCache.TTL)|];
      try reflexivity; rewrite H; reflexivity.
  - destruct c as [c|]; [destruct (now - l <? SettingsCache.TTL)|];
      try reflexivity; rewrite H; reflexivity.
  - intros c0 Hc Hfresh. subst c.
    apply Z.ltb_lt in Hfresh. rewrite Hfresh. reflexivity.
Qed.

(* ------------------------------------------------------------------ *)
(** ** QR credential codec *)
(* ------------------------------------------------------------------ *)

Section CodecFacts.
Import Qr Crypto CodecSpec.
Local Open Scope list_scope.


Lemma unhex_hex_digit (n : Z) : 0 <= n < 16 -> unhex (hex_digit n) = Some n.
Proof.
  intros [Hlo Hhi].
  destruct n as [|p|p]; [reflexivity| |lia].
  do 5 (try (destruct p as [p|p|]; try reflexivity; try lia)).
Qed.

Lemma hex_decode_encode (bs : list Z) :
  Forall byte_range bs -> hex_decode (hex_encode bs) = bs.
Proof.
  induction 1 as [|b bs Hb _ IH]; [reflexivity|].
  unfold byte_range in Hb.
  cbn [hex_encode hex_decode].
  rewrite !unhex_hex_digit.
  - rewrite IH. f_equal.
    pose proof (Z.div_mod b 16 ltac:(lia)). lia.
  - apply Z.mod_pos_bound. lia.
  - split; [apply Z.div_pos; lia | apply Z.div_lt_upper_bound; lia].
Qed.

Lemma bytes_of_word_range (w : Z) : Forall byte_range (bytes_of_word w).
Proof.
  unfold bytes_of_word, byte_range.
  repeat constructor; apply Z.mod_pos_bound; lia.
Qed.

Lemma sha256_shape (msg : list Z) :
  List.length (sha256 msg) = 32%nat /\ Forall byte_range (sha256 msg).
Proof.
  unfold sha256.
  destruct (blocks _ H0 _) as [[[[[[[a b] c] d] e] f] g] h].
  split; [reflexivity|].
  repeat (apply Forall_app; split); apply bytes_of_word_range.
Qed.

Lemma hmac_shape (key msg : list Z) :
  List.length (hmac_sha256 key msg) = 32%nat /\
  Forall byte_range (hmac_sha256 key msg).
Proof. unfold hmac_sha256. apply sha256_shape. Qed.

(** Decoding the hex digest gives back the 32 MAC bytes. *)
Lemma hex_decode_hmac_hex (k msg : string) :
  hex_decode (hmac_hex k msg)
  = hmac_sha256 (bytes_of_string k) (bytes_of_string msg).
Proof.
  unfold hmac_hex. apply hex_decode_encode. apply hmac_shape.
Qed.

Lemma bytes_eqb_eq (a b : list Z) : bytes_eqb a b = true <-> a = b.
Proof.
  revert b. induction a as [|x a IH]; intros [|y b]; simpl;
    try (split; [discriminate|discriminate]); [tauto|].
  rewrite andb_true_iff, Z.eqb_eq, IH.
  split; [intros [-> ->]; reflexivity | intros E; inversion E; auto].
Qed.

Lemma split_dot_aux_cons (cur : string -> string) (p rest : string) :
  has_dot p = false ->
  split_dot_aux cur (p ++ String "."%char rest) = cur p :: split_dot rest.
Proof.
  revert cur. induction p as [|c p IH]; intros cur Hd; simpl in *.
  - reflexivity.
  - apply orb_false_iff in Hd. destruct Hd as [Hc Hp].
    rewrite Hc. rewrite IH by assumption. reflexivity.
Qed.

Lemma split_dot_cons (p rest : string) :
  has_dot p = false ->
  split_dot (p ++ "." ++ rest) = p :: split_dot rest.
Proof. intros H. unfold split_dot. simpl. apply (split_dot_aux_cons (fun x => x)), H. Qed.

Lemma split_dot_aux_nodot (cur : string -> string) (t : string) :
  has_dot t = false -> split_dot_aux cur t = [cur t].
Proof.
  revert cur. induction t as [|c t IH]; intros cur Hd; simpl in *.
  - reflexivity.
  - apply orb_false_iff in Hd. destruct Hd as [Hc Ht].
    rewrite Hc. apply (IH (fun x => cur (String c x))), Ht.
Qed.

Lemma split_dot_aux_nonempty (cur : string -> string) (t : string) :
  exists hd tl, split_dot_aux cur t = hd :: tl.
Proof.
  revert cur. induction t as [|c t IH]; intros cur; simpl.
  - eauto.
  - destruct (Ascii.eqb c "."%char); eauto.
Qed.

Lemma truthy_str_nonempty (s : string) :
  truthy_str (Some s) = true <-> s <> "".
Proof.
  unfold truthy_str. rewrite negb_true_iff.
  split.
  - intros H E. subst. discriminate.
  - intros H. destruct (String.eqb_spec s ""); congruence.
Qed.


Lemma verifyQrToken_segments (P : Platform) (t k p sig : string)
      (more : list string) (tr : list Event) :
  split_dot t = p :: sig :: more -> p <> "" -> sig <> "" ->
  verifyQrToken P (JStr t) (Some k) tr = verify_outcome P k p sig tr.
Proof.
  intros Hs Hp Hsig.
  assert (Ht : truthy (JStr t) = true).
  { simpl. apply negb_true_iff. destruct (String.eqb_spec t ""); [|reflexivity].
    subst t. vm_compute in Hs. inversion Hs. }
  unfold verifyQrToken, verifyQrToken_try, mcatch.
  rewrite Ht, Hs. cbn [negb nth_segment nth_error].
  apply truthy_str_nonempty in Hp, Hsig. rewrite Hp, Hsig. cbn [negb orb].
  unfold verify_outcome, createHmac_digest_hex, timingSafeEqual, parse_json,
    mbind, emit, ret, throw, lift.
  destruct (Nat.eqb _ _); [|reflexivity].
  destruct (bytes_eqb _ _); cbn [negb]; [|reflexivity].
  destruct (JSON_parse P _); reflexivity.
Qed.

Lemma flip_bit_length (s : string) (i : nat) :
  String.length (flip_bit s i) = String.length s.
Proof.
  revert i. induction s as [|c s IH]; intros i; simpl; [reflexivity|].
  destruct (i <? 8)%nat; simpl; auto.
Qed.

End CodecFacts.

Section CodecClaims.
Import Qr Crypto CodecSpec.
Local Open Scope list_scope.

(** Every run of [verifyQrToken] ends in a tagged result. *)
Lemma verifyQrToken_returns (P : Platform) (token : JsValue)
      (secret : option string) (tr : list Event) :
  exists r tr', verifyQrToken P token secret tr = (Return r, tr').
Proof.
  unfold verifyQrToken, mcatch.
  destruct (verifyQrToken_try P token secret tr) as [[r|e] tr'] eqn:E;
    unfold ret; eauto.
Qed.

(** C10. [verifyQrToken] is total: whatever the token and the secret,
    it returns [{valid: true, payload}] or [{valid: false, error}] and
    never throws.  A value that is not a non-empty string, a string
    without delimiter, a signature whose decoded length differs from the
    MAC (the comparison throws), a missing secret and a payload that is
    not JSON all end in [{valid: false, error}]. *)
Theorem C10_verifyQrToken_total :
  forall (P : Platform) (token : JsValue) (secret : option string)
         (tr : list Event),
    (exists r tr', verifyQrToken P token secret tr = (Return r, tr'))
    /\ ((forall t, token <> JStr t) \/ token = JStr "" ->
        verifyQrToken P token secret tr
        = (Return (Invalid "Invalid token type"), tr))
    /\ (forall t, token = JStr t -> t <> "" -> has_dot t = false ->
        verifyQrToken P token secret tr
        = (Return (Invalid "Missing payload or signature"), tr))
    /\ (forall t p sig more,
          token = JStr t -> split_dot t = p :: sig :: more ->
          p <> "" -> sig <> "" ->
          (secret = None ->
             exists msg, fst (verifyQrToken P token secret tr)
                         = Return (Invalid msg))
          /\ (forall k, secret = Some k ->
                List.length (hex_decode sig) <> 32%nat ->
                fst (verifyQrToken P token secret tr)
                = Return (Invalid "Input buffers must have the same byte length"))
          /\ (forall k e, secret = Some k ->
                hex_decode sig = hex_decode (hmac_hex k p) ->
                JSON_parse P (base64_to_utf8 P p) = Throw e ->
                fst (verifyQrToken P token secret tr)
                = Return (Invalid (message e)))).
Proof.
  intros P token secret tr. split; [apply verifyQrToken_returns|].
  split; [|split].
  - intros [H|H].
    + destruct token; try reflexivity. exfalso. eapply H; reflexivity.
    + subst. reflexivity.
  - intros t -> Hne Hd.
    unfold verifyQrToken, verifyQrToken_try, mcatch.
    assert (Ht : truthy (JStr t) = true).
    { simpl. apply negb_true_iff. destruct (String.eqb_spec t ""); congruence. }
    rewrite Ht. cbn [negb]. unfold split_dot.
    rewrite split_dot_aux_nodot by assumption.
    cbn [nth_segment nth_error truthy_str].
    rewrite orb_true_r. reflexivity.
  - intros t p sig more -> Hs Hp Hsig. split; [|split].
    + intros ->.
      unfold verifyQrToken, verifyQrToken_try, mcatch.
      assert (Ht : truthy (JStr t) = true).
      { simpl. apply negb_true_iff. destruct (String.eqb_spec t ""); [|reflexivity].
        subst t. vm_compute in Hs. inversion Hs. }
      rewrite Ht, Hs. cbn [negb nth_segment nth_error].
      apply truthy_str_nonempty in Hp, Hsig. rewrite Hp, Hsig.
      eexists. reflexivity.
    + intros k -> Hlen.
      rewrite (verifyQrToken_segments P t k p sig more tr Hs Hp Hsig).
      unfold verify_outcome. rewrite hex_decode_hmac_hex.
      destruct (hmac_shape (bytes_of_string k) (bytes_of_string p)) as [L _].
      rewrite L.
      destruct (Nat.eqb_spec 32 (List.length (hex_decode sig))); [congruence|].
      reflexivity.
    + intros k e -> Heq Hparse.
      rewrite (verifyQrToken_segments P t k p sig more tr Hs Hp Hsig).
      unfold verify_outcome. rewrite <- Heq, Nat.eqb_refl.
      assert (bytes_eqb (hex_decode sig) (hex_decode sig) = true) as ->
        by (apply bytes_eqb_eq; reflexivity).
      rewrite Hparse. reflexivity.
Qed.


Lemma verifyQrToken_trace (P : Platform) (token : JsValue)
      (secret : option string) :
  mac_before_parse P token secret (snd (verifyQrToken P token secret [])).
Proof.
  destruct token as [| |b|n|l|t|it|fs]; try (left; reflexivity).
  destruct (String.eqb_spec t "") as [->|Hne]; [left; reflexivity|].
  unfold split_dot.
  destruct (split_dot t) as [|p [|sig more]] eqn:Hs.
  - destruct (split_dot_aux_nonempty (fun x => x) t) as (hd & tl & E).
    unfold split_dot in Hs. congruence.
  - left. unfold verifyQrToken, verifyQrToken_try, mcatch.
    rewrite Hs. cbn [nth_segment nth_error truthy_str].
    rewrite orb_true_r. destruct (negb (truthy (JStr t))); reflexivity.
  - destruct (String.eqb_spec p "") as [->|Hp].
    { left. unfold verifyQrToken, verifyQrToken_try, mcatch.
      rewrite Hs. cbn [nth_segment nth_error truthy_str String.eqb negb orb].
      destruct (negb (truthy (JStr t))); reflexivity. }
    destruct (String.eqb_spec sig "") as [->|Hsig].
    { left. unfold verifyQrToken, verifyQrToken_try, mcatch.
      rewrite Hs. cbn [nth_segment nth_error truthy_str String.eqb negb].
      rewrite orb_true_r.
      destruct (negb (truthy (JStr t))); reflexivity. }
    destruct secret as [k|].
    + right. exists t, k, p, sig, more. repeat split; try assumption.
      rewrite (verifyQrToken_segments P t k p sig more [] Hs Hp Hsig).
      unfold verify_outcome. cbv zeta.
      destruct (Nat.eqb _ _); [|left; reflexivity].
      destruct (bytes_eqb _ _) eqn:Eb; [|right; left; reflexivity].
      right; right. apply bytes_eqb_eq in Eb. split; [exact Eb|].
      destruct (JSON_parse P _); reflexivity.
    + left. unfold verifyQrToken, verifyQrToken_try, mcatch.
      assert (Ht : truthy (JStr t) = true).
      { simpl. apply negb_true_iff. destruct (String.eqb_spec t ""); congruence. }
      rewrite Ht, Hs. cbn [negb nth_segment nth_error].
      apply truthy_str_nonempty in Hp, Hsig. rewrite Hp, Hsig.
      reflexivity.
Qed.

(** C2 (amended). Whatever the token, [JSON.parse] runs only after the
    HMAC of the received payload segment was recomputed and
    [timingSafeEqual] found it equal to the decoded signature.  For a
    valid credential, flipping a bit of the payload segment, when the
    flipped character does not become the delimiter and the MAC of the
    tampered segment differs from the MAC of the original, yields
    [{valid: false, error: 'Signature mismatch'}] and nothing is
    parsed. *)
Theorem C2_mac_checked_before_parse :
  forall (P : Platform),
    (forall token secret,
       mac_before_parse P token secret (snd (verifyQrToken P token secret [])))
    /\ (forall (k p rest : string) (i : nat),
          has_dot p = false ->
          has_dot (flip_bit p i) = false ->
          (exists payload, verify P (p ++ "." ++ rest) k = Return (Valid payload)) ->
          hmac_sha256 (bytes_of_string k) (bytes_of_string (flip_bit p i))
            <> hmac_sha256 (bytes_of_string k) (bytes_of_string p) ->
          fst (verifyQrToken P (JStr (flip_bit p i ++ "." ++ rest)) (Some k) [])
            = Return (Invalid "Signature mismatch")
          /\ never_parsed
               (snd (verifyQrToken P (JStr (flip_bit p i ++ "." ++ rest))
                                   (Some k) []))).
Proof.
  intros P. split; [intros; apply verifyQrToken_trace|].
  intros k p rest i Hd Hd' [payload Hv] Hmac.
  pose proof (split_dot_cons p rest Hd) as Hs.
  pose proof (split_dot_cons (flip_bit p i) rest Hd') as Hs'.
  destruct (split_dot_aux_nonempty (fun x => x) rest) as (sig & more & Hr).
  fold (split_dot rest) in Hr. rewrite Hr in Hs, Hs'.
  unfold verify in Hv.
  assert (Hp : p <> "").
  { intros ->. vm_compute in Hv. discriminate. }
  assert (Hsig : sig <> "").
  { intros ->. revert Hv.
    unfold verifyQrToken, verifyQrToken_try, mcatch. rewrite Hs.
    cbn [nth_segment nth_error truthy_str String.eqb negb].
    rewrite orb_true_r.
    destruct (negb (truthy (JStr (p ++ "." ++ rest)))); discriminate. }
  assert (Hp' : flip_bit p i <> "").
  { intros E. apply (f_equal String.length) in E.
    rewrite flip_bit_length in E. destruct p; [congruence|discriminate]. }
  rewrite (verifyQrToken_segments P _ k p sig more [] Hs Hp Hsig) in Hv.
  rewrite (verifyQrToken_segments P _ k _ sig more [] Hs' Hp' Hsig).
  unfold verify_outcome in *. cbv zeta in *.
  rewrite hex_decode_hmac_hex in Hv. rewrite hex_decode_hmac_hex.
  destruct (hmac_shape (bytes_of_string k) (bytes_of_string p)) as [L _].
  destruct (hmac_shape (bytes_of_string k) (bytes_of_string (flip_bit p i)))
    as [L' _].
  destruct (Nat.eqb_spec
              (List.length (hmac_sha256 (bytes_of_string k) (bytes_of_string p)))
              (List.length (hex_decode sig))) as [El|]; [|discriminate].
  destruct (bytes_eqb (hmac_sha256 (bytes_of_string k) (bytes_of_string p))
                      (hex_decode sig)) eqn:Eb; [|discriminate].
  apply bytes_eqb_eq in Eb. rewrite <- Eb.
  rewrite L', L, Nat.eqb_refl.
  destruct (bytes_eqb _ _) eqn:Eb'.
  { apply bytes_eqb_eq in Eb'. contradiction. }
  split; [reflexivity|].
  intros text Hin. simpl in Hin.
  destruct Hin as [H|[H|[]]]; discriminate.
Qed.

(** The sample credential is valid; flipping the lowest bit of its
    first character gives [Signature mismatch] with nothing parsed. *)
Lemma C2_mac_checked_witness :
  fst (verifyQrToken ref_platform
         (JStr (flip_bit sample_payloadB64 0 ++ "." ++ sample_signature))
         (Some sample_secret) [])
  = Return (Invalid "Signature mismatch")
  /\ never_parsed
       (snd (verifyQrToken ref_platform
               (JStr (flip_bit sample_payloadB64 0 ++ "." ++ sample_signature))
               (Some sample_secret) [])).
Proof.
  apply (proj2 (C2_mac_checked_before_parse ref_platform)
           sample_secret sample_payloadB64 sample_signature 0%nat).
  - reflexivity.
  - reflexivity.
  - eexists. vm_compute. reflexivity.
  - vm_compute. discriminate.
Defined.

(** C2 as stated fails on the sample credential: its payload segment
    holds a [/] at index 23, and flipping the lowest bit of that
    character turns it into the delimiter.  The token then splits into
    three segments, the comparison throws on the length of the decoded
    middle segment, and the result carries the length error instead of
    [Signature mismatch]. *)
Lemma C2_bit_flip_into_delimiter :
  verify ref_platform sample_token sample_secret
    = Return (Valid (JObj [("qrCodeId", JStr "abc???")]))
  /\ flip_bit sample_payloadB64 184 = "eyJxckNvZGVJZCI6ImFiYz8.PyJ9"
  /\ verify ref_platform
       (flip_bit sample_payloadB64 184 ++ "." ++ sample_signature)
       sample_secret
     = Return (Invalid "Input buffers must have the same byte length").
Proof. vm_compute. repeat split. Qed.

End CodecClaims.

(* ------------------------------------------------------------------ *)
(** ** The store and the balance *)
(* ------------------------------------------------------------------ *)

Section StoreFacts.
Import Db Invariants.
Local Open Scope list_scope.

Lemma update_first_none {A} (f : A -> bool) (u : A -> A) (l : list A) :
  fst (update_first f u l) = None -> snd (update_first f u l) = l.
Proof.
  induction l as [|x l IH]; simpl; [reflexivity|].
  destruct (f x); [discriminate|].
  destruct (update_first f u l) as [r l']; simpl in *.
  intros H. rewrite IH; auto.
Qed.

Lemma update_first_some {A} (f : A -> bool) (u : A -> A) (l : list A) (y : A) :
  fst (update_first f u l) = Some y ->
  exists l1 x l2,
    l = l1 ++ x :: l2 /\ f x = true /\ y = u x /\
    forallb (fun z => negb (f z)) l1 = true /\
    snd (update_first f u l) = l1 ++ u x :: l2.
Proof.
  induction l as [|x l IH]; simpl; [discriminate|].
  destruct (f x) eqn:Fx.
  - intros H. inversion H; subst. exists [], x, l. simpl. auto.
  - destruct (update_first f u l) as [r l'] eqn:E; simpl in *.
    intros H. destruct (IH H) as (l1 & x0 & l2 & -> & Hf & -> & Hn & ->).
    exists (x :: l1), x0, l2. simpl. rewrite Fx. simpl. auto.
Qed.

Lemma update_first_Forall {A} (P : A -> Prop) (f : A -> bool) (u : A -> A)
      (l : list A) :
  Forall P l -> (forall x, P x -> f x = true -> P (u x)) ->
  Forall P (snd (update_first f u l)).
Proof.
  intros H Hu. induction H as [|x l Hx Hl IH]; simpl; [constructor|].
  destruct (f x) eqn:Fx; simpl.
  - constructor; auto.
  - destruct (update_first f u l) as [r l']; simpl in *. constructor; auto.
Qed.

Lemma findOneAndUpdate_returns (f : Subscription -> bool)
      (u : Subscription -> Subscription) (db : DB) :
  Subscription_findOneAndUpdate f u db
  = (Return (fst (update_first f u (subscriptions db))),
     set_subscriptions db (snd (update_first f u (subscriptions db)))).
Proof.
  unfold Subscription_findOneAndUpdate.
  destruct (update_first f u (subscriptions db)); reflexivity.
Qed.

Lemma set_subscriptions_same (db : DB) :
  set_subscriptions db (subscriptions db) = db.
Proof. destruct db; reflexivity. Qed.

(** [deductMeal] is one conditional update: it never throws; when no
    stored document passes the guard nothing changes; otherwise exactly
    the guarded document is rewritten, with the balance one lower. *)
Lemma deductMeal_conditional (this : Subscription) (mt : option MealType)
      (now : Date) (db : DB) :
  (exists r, fst (SubscriptionModel.deductMeal this mt now db) = Return r /\
     match r with
     | None => snd (SubscriptionModel.deductMeal this mt now db) = db
     | Some updated =>
         exists l1 old l2,
           subscriptions db = l1 ++ old :: l2 /\
           subscriptions (snd (SubscriptionModel.deductMeal this mt now db))
             = l1 ++ updated :: l2 /\
           s_id old = s_id this /\ s_active old = true /\
           match s_mealBalances this, mt with
           | Some _, Some m =>
               balance_gt0 old m = true /\
               s_mealBalances updated
                 = option_map (fun b => inc_balance b m (-1)) (s_mealBalances old)
               /\ s_mealsRemaining updated = s_mealsRemaining old
           | _, _ =>
               0 < s_mealsRemaining old /\
               s_mealsRemaining updated = s_mealsRemaining old - 1 /\
               s_mealBalances updated = s_mealBalances old
           end
     end)
  /\ customers (snd (SubscriptionModel.deductMeal this mt now db)) = customers db
  /\ transactions (snd (SubscriptionModel.deductMeal this mt now db))
     = transactions db.
Proof.
  unfold SubscriptionModel.deductMeal.
  destruct (s_mealBalances this) as [b|] eqn:Eb; destruct mt as [m|];
    rewrite findOneAndUpdate_returns; cbn [fst snd];
    (split; [|split; reflexivity]);
    eexists; (split; [reflexivity|]);
    match goal with
    | |- context [update_first ?f ?u ?l] =>
        destruct (fst (update_first f u l)) as [y|] eqn:E;
        [ destruct (update_first_some f u l y E)
            as (l1 & old & l2 & Hl & Hf & Hy & _ & Hs);
          exists l1, old, l2; rewrite Hs; subst y;
          repeat (apply andb_prop in Hf; destruct Hf as [Hf ?]);
          apply Nat.eqb_eq in Hf;
          repeat split; auto; try (apply Z.ltb_lt; assumption)
        | rewrite (update_first_none f u l E);
          apply set_subscriptions_same ]
    end.
Qed.

Lemma inc_balance_nonneg (b : MealBalances) (m : MealType) :
  balances_nonneg (Some b) ->
  match balance_of b m with Some v => 0 < v | None => True end ->
  balances_nonneg (Some (inc_balance b m (-1))).
Proof.
  unfold balances_nonneg. destruct b, m; simpl; intros; lia.
Qed.

Lemma deductMeal_nonneg (this : Subscription) (mt : option MealType)
      (now : Date) (db : DB) :
  db_nonneg db -> db_nonneg (snd (SubscriptionModel.deductMeal this mt now db)).
Proof.
  unfold db_nonneg, SubscriptionModel.deductMeal. intros H.
  destruct (s_mealBalances this); destruct mt;
    rewrite findOneAndUpdate_returns; cbn [snd set_subscriptions subscriptions];
    apply update_first_Forall; try assumption;
    intros x [Hx Hb] Hf;
    repeat (apply andb_prop in Hf; destruct Hf as [Hf ?]).
  - split; [exact Hx|]. cbn [set_mealBalances s_mealBalances].
    unfold balance_gt0 in *. destruct (s_mealBalances x) as [b|]; [|discriminate].
    cbn [option_map]. apply inc_balance_nonneg; [exact Hb|].
    destruct (balance_of b m0); [apply Z.ltb_lt; assumption|exact I].
  - split; cbn; [|exact Hb].
    match goal with H : (0 <? _) = true |- _ => apply Z.ltb_lt in H end. lia.
  - split; cbn; [|exact Hb].
    match goal with H : (0 <? _) = true |- _ => apply Z.ltb_lt in H end. lia.
  - split; cbn; [|exact Hb].
    match goal with H : (0 <? _) = true |- _ => apply Z.ltb_lt in H end. lia.
Qed.

End StoreFacts.

Section Preservation.
Import Db Invariants StoreSpec.
Local Open Scope list_scope.


Lemma preserves_ret {A} (I : DB -> Prop) (a : A) : preserves I (SE.ret a).
Proof. intros db H. exact H. Qed.

Lemma preserves_throw {A} (I : DB -> Prop) (e : Error) :
  preserves I (@SE.throw DB A e).
Proof. intros db H. exact H. Qed.

Lemma preserves_lift {A} (I : DB -> Prop) (x : Exc A) :
  preserves I (SE.lift x).
Proof. intros db H. exact H. Qed.

Lemma preserves_get (I : DB -> Prop) : preserves I SE.get.
Proof. intros db H. exact H. Qed.

Lemma preserves_bind {A B} (I : DB -> Prop) (m : M A) (k : A -> M B) :
  preserves I m -> (forall a, preserves I (k a)) -> preserves I (SE.bind m k).
Proof.
  intros Hm Hk db H. unfold SE.bind.
  specialize (Hm db H). destruct (m db) as [[a|e] db']; simpl in *.
  - apply Hk. exact Hm.
  - exact Hm.
Qed.

Lemma preserves_catch {A} (I : DB -> Prop) (m : M A) (h : Error -> M A) :
  preserves I m -> (forall e, preserves I (h e)) -> preserves I (SE.catch m h).
Proof.
  intros Hm Hh db H. unfold SE.catch.
  specialize (Hm db H). destruct (m db) as [[a|e] db']; simpl in *.
  - exact Hm.
  - apply Hh. exact Hm.
Qed.


Lemma db_nonneg_on_subscriptions : on_subscriptions db_nonneg.
Proof. intros db db' E H. unfold db_nonneg in *. rewrite E. exact H. Qed.

Lemma same_subscriptions_on (ss : list Subscription) :
  on_subscriptions (fun db => subscriptions db = ss).
Proof. intros db db' E H. congruence. Qed.

Lemma preserves_MealTransaction_create (I : DB -> Prop) (idx : bool) (t : Tx) :
  on_subscriptions I -> preserves I (MealTransaction_create idx t).
Proof.
  intros HI db H. unfold MealTransaction_create.
  destruct (negb (tx_valid t)); [exact H|].
  destruct (idx && idempotency_clash t (transactions db)); [exact H|].
  eapply HI; [|exact H]. reflexivity.
Qed.

Lemma preserves_AuditLog_create (I : DB -> Prop) (a : Audit) :
  on_subscriptions I -> preserves I (AuditLog_create a).
Proof.
  intros HI db H. unfold AuditLog_create.
  destruct (present (a_messId a)); [|exact H].
  eapply HI; [|exact H]. reflexivity.
Qed.

Lemma preserves_Customer_save (I : DB -> Prop) (c : Customer) :
  on_subscriptions I -> preserves I (ScanCore.Customer_save c).
Proof.
  intros HI db H. unfold ScanCore.Customer_save.
  destruct (update_first _ _ (customers db)). eapply HI; [|exact H]. reflexivity.
Qed.

Lemma preserves_mark_synced (I : DB -> Prop) (t : Tx) (now : Date) :
  on_subscriptions I -> preserves I (MealScanner.mark_synced t now).
Proof.
  intros HI db H. unfold MealScanner.mark_synced.
  destruct (update_first _ _ (transactions db)). eapply HI; [|exact H]. reflexivity.
Qed.

(** A validated [save()] keeps the balances non-negative when what it
    writes is non-negative. *)
Lemma preserves_save_nonneg (doc : Subscription)
      (upd : Subscription -> Subscription) :
  (subscription_valid doc = true ->
   forall s, sub_nonneg s -> sub_nonneg (upd s)) ->
  preserves db_nonneg (Subscription_save doc upd).
Proof.
  intros Hu db H. unfold Subscription_save.
  destruct (subscription_valid doc) eqn:V; cbn [negb]; [|exact H].
  pose proof (update_first_Forall sub_nonneg
                (fun s => Nat.eqb (s_id s) (s_id doc)) upd (subscriptions db) H
                (fun x Hx _ => Hu eq_refl x Hx)) as F.
  destruct (update_first _ upd (subscriptions db)). exact F.
Qed.

Lemma preserves_checks (I : DB -> Prop) (idx : bool) (st : Settings)
      (a : ScanCore.Args) (now : Date) :
  on_subscriptions I -> preserves I (ScanCore.processScan_checks idx st a now).
Proof.
  intros HI. unfold ScanCore.processScan_checks.
  apply preserves_bind; [apply preserves_get|]. intros db0.
  destruct (findOne _ (customers db0)); [|apply preserves_ret].
  destruct (negb (c_active c)); [apply preserves_ret|].
  destruct (findOne_desc _ _ _).
  2:{ apply preserves_bind; [apply preserves_MealTransaction_create, HI|].
      intros; apply preserves_ret. }
  destruct (match ScanCore.mealType a with Some m => Some m | None => _ end).
  2:{ apply preserves_bind; [apply preserves_MealTransaction_create, HI|].
      intros; apply preserves_ret. }
  apply preserves_bind; [apply preserves_get|]. intros db1.
  destruct (findOne _ (transactions db1)).
  { apply preserves_bind; [apply preserves_MealTransaction_create, HI|].
    intros; apply preserves_ret. }
  destruct (s_mealsRemaining s <=? 0); [|apply preserves_ret].
  apply preserves_bind; [apply preserves_MealTransaction_create, HI|].
  intros; apply preserves_ret.
Qed.

Lemma preserves_deduct_nonneg (idx : bool) (a : ScanCore.Args) (c : Customer)
      (s : Subscription) (mt : MealType) (now : Date) :
  preserves db_nonneg (ScanCore.processScan_deduct idx a c s mt now).
Proof.
  unfold ScanCore.processScan_deduct. cbv zeta.
  apply preserves_bind.
  { apply preserves_save_nonneg. intros _ x [Hx Hb]. split; [cbn; lia|exact Hb]. }
  intros _. apply preserves_bind.
  { apply preserves_MealTransaction_create, db_nonneg_on_subscriptions. }
  intros mealTx.
  destruct (_ || _); [|apply preserves_ret].
  destruct (_ && _).
  - apply preserves_bind.
    { apply preserves_Customer_save, db_nonneg_on_subscriptions. }
    intros _. apply preserves_bind.
    { unfold ScanCore.createRenewalSubscription.
      apply preserves_bind; [|intros; apply preserves_ret].
      apply preserves_save_nonneg. intros V x [Hx Hb].
      unfold subscription_valid in V. apply andb_prop in V. destruct V as [_ V].
      apply Z.leb_le in V. cbn in V. split; [cbn; exact V|exact Hb]. }
    intros s2. apply preserves_bind; [apply preserves_throw|].
    intros; apply preserves_ret.
  - apply preserves_bind; [apply preserves_throw|]. intros _.
    apply preserves_bind; [|intros; apply preserves_ret].
    apply preserves_save_nonneg. intros _ x Hx. exact Hx.
Qed.

(** For every store whose balances are not negative and every sequence
    of balance-writing operations ([deductMeal], the scan-core
    [processScan] as a whole, or its check half and its write half
    interleaved in any way with other requests), [mealsRemaining] and
    every per-type balance of every subscription stay at or above 0. *)
Theorem balances_never_negative (ops : list Op) (db : DB) :
  db_nonneg db -> db_nonneg (run_ops ops db).
Proof.
  unfold run_ops. revert db.
  induction ops as [|o ops IH]; intros db H; simpl; [exact H|].
  apply IH. destruct o; cbn [run_op].
  - apply deductMeal_nonneg. exact H.
  - apply preserves_checks; [apply db_nonneg_on_subscriptions|exact H].
  - apply preserves_deduct_nonneg. exact H.
  - unfold ScanCore.processScan.
    apply preserves_bind; [|intros [r|c s m]|exact H].
    + apply preserves_checks, db_nonneg_on_subscriptions.
    + apply preserves_ret.
    + apply preserves_deduct_nonneg.
Qed.

Lemma balances_never_negative_witness :
  db_nonneg (Sample.db_with 1)
  /\ db_nonneg
       (run_ops
          [OpScanCoreChecks true SampleScanCore.defaults SampleScanCore.reqA
                            Sample.noon;
           OpScanCoreChecks true SampleScanCore.defaults SampleScanCore.reqB
                            Sample.noon;
           OpScanCoreDeduct true SampleScanCore.reqA Sample.alice
                            (Sample.sub_of 1) Lunch Sample.noon;
           OpScanCoreDeduct true SampleScanCore.reqB Sample.alice
                            (Sample.sub_of 1) Dinner Sample.noon;
           OpDeductMeal (Sample.sub_of 1) (Some Lunch) Sample.noon]
          (Sample.db_with 1)).
Proof.
  assert (H : db_nonneg (Sample.db_with 1)).
  { unfold db_nonneg. cbn. constructor; [|constructor].
    split; cbn; [lia|exact I]. }
  split; [exact H|].
  apply (balances_never_negative _ (Sample.db_with 1)). exact H.
Defined.

End Preservation.

(* ------------------------------------------------------------------ *)
(** ** Scan-core service: the deduction is a read followed by a write *)
(* ------------------------------------------------------------------ *)

(** C1 (the scan-core service departs from it). With one meal left, two
    requests that both ran their checks before either wrote both pass
    the balance test; the second write is issued although the stored
    balance is already 0, and the second request is not answered "No
    meals remaining".  A request whose snapshot read 3 writes 2 over a
    stored balance of 1: the write carries no precondition and is not a
    decrement of the stored value. *)
Theorem C1_scanCore_deduction_not_conditional :
  forall idx : bool,
    let db0 := Sample.db_with 1 in
    let checksA := ScanCore.processScan_checks idx SampleScanCore.defaults
                     SampleScanCore.reqA Sample.noon db0 in
    let checksB := ScanCore.processScan_checks idx SampleScanCore.defaults
                     SampleScanCore.reqB Sample.noon db0 in
    let writeA := ScanCore.processScan_deduct idx SampleScanCore.reqA
                    Sample.alice (Sample.sub_of 1) Lunch Sample.noon db0 in
    let writeB := ScanCore.processScan_deduct idx SampleScanCore.reqB
                    Sample.alice (Sample.sub_of 1) Dinner Sample.noon
                    (snd writeA) in
    checksA = (Return (ScanCore.Proceed Sample.alice (Sample.sub_of 1) Lunch), db0)
    /\ checksB
       = (Return (ScanCore.Proceed Sample.alice (Sample.sub_of 1) Dinner), db0)
    /\ Sample.remaining_of (snd writeA) = Some 0
    /\ fst writeB <> Return (ScanCore.Failure "EXPIRED" "No meals remaining")
    /\ Sample.remaining_of (snd writeB) = Some 0
    /\ Sample.remaining_of
         (snd (ScanCore.processScan_deduct idx SampleScanCore.reqA
                 Sample.alice (Sample.sub_of 3) Lunch Sample.noon db0))
       = Some 2.
Proof.
  intros [|]; cbv zeta; repeat split; try (vm_compute; reflexivity);
    vm_compute; discriminate.
Qed.

(* ------------------------------------------------------------------ *)
(** ** MealScanner: order of the checks, and what a denial touches *)
(* ------------------------------------------------------------------ *)

Section ScannerFacts.
Import Db MealScanner EligibilityOrder StoreSpec ScannerSpec.
Local Open Scope list_scope.

Lemma createFailedTransaction_keeps (I : DB -> Prop) (E : Env)
      (cid sid user : option Id) (r : string) (md : Metadata)
      (dup : option Id) (now : Date) :
  on_subscriptions I ->
  preserves I (createFailedTransaction E cid sid user r md dup now).
Proof.
  intros HI. unfold createFailedTransaction.
  apply preserves_bind; [apply preserves_lift|]. intros cur.
  apply preserves_bind.
  { destruct (_ && _); [|apply preserves_ret].
    apply preserves_bind; [apply preserves_MealTransaction_create, HI|].
    intros; apply preserves_ret. }
  intros t. apply preserves_bind; [|intros; apply preserves_ret].
  destruct (_ && _); [apply preserves_AuditLog_create, HI|apply preserves_ret].
Qed.

(** A denial that returns carries its reason. *)
Lemma createFailedTransaction_reason (E : Env) (cid sid user : option Id)
      (r : string) (md : Metadata) (dup : option Id) (now : Date) (db : DB)
      (res : Result) :
  fst (createFailedTransaction E cid sid user r md dup now db) = Return res ->
  failureReason res = Some r /\ success res = false.
Proof.
  unfold createFailedTransaction, SE.bind, SE.lift, SE.ret.
  destruct (getCurrentMealType E now) as [cur|e]; [|discriminate].
  destruct (present cid && present sid && present (messId md)).
  - destruct (MealTransaction_create _ _ db) as [[t|e] db1]; [|discriminate].
    destruct (present cid && present (messId md)).
    + destruct (AuditLog_create _ db1) as [[u|e] db2]; [|discriminate].
      cbn. intros H; inversion H; subst; cbn; auto.
    + cbn. intros H; inversion H; subst; cbn; auto.
  - destruct (present cid && present (messId md)).
    + destruct (AuditLog_create _ db) as [[u|e] db2]; [|discriminate].
      cbn. intros H; inversion H; subst; cbn; auto.
    + cbn. intros H; inversion H; subst; cbn; auto.
Qed.




Lemma update_first_existsb {A} (f : A -> bool) (u : A -> A) (l : list A) :
  present (fst (update_first f u l)) = existsb f l.
Proof.
  induction l as [|x l IH]; simpl; [reflexivity|].
  destruct (f x); simpl; [reflexivity|].
  destruct (update_first f u l); simpl in *. exact IH.
Qed.



Lemma bind_run {S A B} (m : SE.SE S A) (k : A -> SE.SE S B) (s s1 : S) (a : A) :
  m s = (Return a, s1) -> SE.bind m k s = k a s1.
Proof. intros H. unfold SE.bind. rewrite H. reflexivity. Qed.



Lemma denial_keeps_createFailed (E : Env) (cid sid user : option Id)
      (r : string) (md : Metadata) (dup : option Id) (now : Date) :
  denial_keeps (createFailedTransaction E cid sid user r md dup now).
Proof.
  intros db res _ _.
  apply (createFailedTransaction_keeps
           (fun d => subscriptions d = subscriptions db) E cid sid user r md dup
           now (same_subscriptions_on _) db eq_refl).
Qed.

Lemma join_bind_run {A B} (m : M A) (k : A -> M (M B)) (s s1 : DB) (a : A) :
  m s = (Return a, s1) -> SE.join (SE.bind m k) s = SE.join (k a) s1.
Proof. intros H. unfold SE.join, SE.bind. rewrite H. reflexivity. Qed.

Lemma join_ret_run {B} (k : M B) (s : DB) : SE.join (SE.ret k) s = k s.
Proof. reflexivity. Qed.

(** A promise the [try] block returns is what the call settles as. *)
Lemma processScan_run_value (E : Env) (qrToken : string) (user : option Id)
      (md : Metadata) (now : Date) (db db1 : DB) (k : M Result) :
  processScan_try E qrToken user md now db = (Return k, db1) ->
  processScan E qrToken user md now db = k db1
  /\ SE.join (processScan_try E qrToken user md now) db = k db1.
Proof.
  intros Et. unfold processScan, SE.join, SE.catch, SE.bind. rewrite Et.
  split; reflexivity.
Qed.

(** What throws inside the [try] block is answered by the [catch]. *)
Lemma processScan_run_caught (E : Env) (qrToken : string) (user : option Id)
      (md : Metadata) (now : Date) (db db1 : DB) (e : Error) :
  processScan_try E qrToken user md now db = (Throw e, db1) ->
  processScan E qrToken user md now db
  = (AuditLog_create (mkAudit (messId md) "scan_error" user None) ;;>
     SE.ret system_error) db1.
Proof.
  intros Et. unfold processScan, SE.join, SE.catch, SE.bind. rewrite Et.
  destruct (AuditLog_create _ db1) as [[u|e'] db2]; reflexivity.
Qed.

Lemma denial_keeps_join_ret (k : M Result) :
  denial_keeps k -> denial_keeps (SE.join (SE.ret k)).
Proof. intros H db res. exact (H db res). Qed.

Lemma denial_keeps_join_read {A} (m : M A) (k : A -> M (M Result)) :
  (forall db, snd (m db) = db) -> (forall a, denial_keeps (SE.join (k a))) ->
  denial_keeps (SE.join (SE.bind m k)).
Proof.
  intros Hr Hk db res. unfold SE.join, SE.bind.
  specialize (Hr db). destruct (m db) as [[a|e] db1]; simpl in Hr; subst db1.
  - exact (Hk a db res).
  - discriminate.
Qed.

Lemma denial_keeps_redeem (E : Env) (p : QRTokenService.Payload)
      (c : Customer) (s : Subscription) (mt : MealType) (user : option Id)
      (md : Metadata) (now : Date) :
  denial_keeps (SE.join (redeem E p c s mt user md now)).
Proof.
  intros db res. unfold redeem. cbv zeta.
  destruct (deductMeal_conditional s None now db) as [(r & Hr & Hspec) _].
  destruct (SubscriptionModel.deductMeal s None now db) as [x db1] eqn:Ed.
  cbn [fst snd] in Hr, Hspec. subst x.
  rewrite (join_bind_run _ _ _ _ _ Ed).
  destruct r as [updated|].
  - (* the deduction went through: the run can only end in success *)
    unfold SE.join, SE.bind, SE.ret.
    destruct (s_mealsRemaining updated =? 0).
    + destruct (Subscription_save _ _ db1) as [[u|e] db2]; [|discriminate].
      destruct (MealTransaction_create _ _ db2) as [[t|e] db3]; [|discriminate].
      destruct (AuditLog_create _ db3) as [[u'|e] db4]; [|discriminate].
      cbn. intros H Hne. inversion H; subst. cbn in Hne. congruence.
    + destruct (MealTransaction_create _ _ db1) as [[t|e] db3]; [|discriminate].
      destruct (AuditLog_create _ db3) as [[u'|e] db4]; [|discriminate].
      cbn. intros H Hne. inversion H; subst. cbn in Hne. congruence.
  - subst db1. cbv beta iota. rewrite join_ret_run.
    exact (denial_keeps_createFailed E _ _ user _ md _ now db res).
Qed.

Lemma denial_keeps_try (E : Env) (qrToken : string) (user : option Id)
      (md : Metadata) (now : Date) :
  denial_keeps (SE.join (processScan_try E qrToken user md now)).
Proof.
  unfold processScan_try.
  destruct (QRTokenService.verifyToken _ _ qrToken now) as [p|e];
    [|apply denial_keeps_join_ret, denial_keeps_createFailed].
  apply denial_keeps_join_read; [reflexivity|]. intros pcid.
  apply denial_keeps_join_read; [reflexivity|]. intros pmid.
  apply denial_keeps_join_read; [reflexivity|]. intros db0.
  destruct (findOne _ (customers db0)) as [cust|];
    [|apply denial_keeps_join_ret, denial_keeps_createFailed].
  apply denial_keeps_join_read; [reflexivity|]. intros cur.
  destruct (match cur with Some m => Some m | None => _ end) as [mt|];
    [|apply denial_keeps_join_ret, denial_keeps_createFailed].
  apply denial_keeps_join_read; [reflexivity|]. intros d.
  destruct d; [apply denial_keeps_join_ret, denial_keeps_createFailed|].
  apply denial_keeps_join_read; [reflexivity|]. intros db1.
  destruct (findOne _ (transactions db1)), (adminOverride md);
    try (apply denial_keeps_join_ret, denial_keeps_createFailed);
    (destruct (findOne _ (subscriptions db1)) as [sub|];
     [|apply denial_keeps_join_ret, denial_keeps_createFailed];
     destruct (present (s_pausedAt sub));
     [apply denial_keeps_join_ret, denial_keeps_createFailed|];
     destruct (s_mealsRemaining sub <=? 0);
     [apply denial_keeps_join_ret, denial_keeps_createFailed|];
     destruct (not_in_plan md sub mt);
     [apply denial_keeps_join_ret, denial_keeps_createFailed
     |apply denial_keeps_redeem]).
Qed.

(** Every run of [MealScanner.processScan] that returns a denial with a
    typed [failureReason] leaves every stored subscription, hence every
    balance, exactly as it was. *)
Theorem mealScanner_denial_keeps_subscriptions
        (E : MealScanner.Env) (qrToken : string) (user : option Id)
        (md : MealScanner.Metadata) (now : Date) (db : DB)
        (res : MealScanner.Result) :
  fst (MealScanner.processScan E qrToken user md now db) = Return res ->
  MealScanner.failureReason res <> None ->
  subscriptions (snd (MealScanner.processScan E qrToken user md now db))
  = subscriptions db.
Proof.
  pose proof (denial_keeps_try E qrToken user md now db res) as K.
  destruct (processScan_try E qrToken user md now db) as [[k|e] db1] eqn:Et.
  - destruct (processScan_run_value _ _ _ _ _ _ _ _ Et) as [Hp Hj].
    rewrite Hp. rewrite Hj in K. exact K.
  - rewrite (processScan_run_caught _ _ _ _ _ _ _ _ Et).
    unfold SE.bind, SE.ret.
    destruct (AuditLog_create _ db1) as [[u|e'] db2]; [|discriminate].
    cbn. intros H Hne. inversion H; subst. cbn in Hne. congruence.
Qed.

(** Plan allowing breakfast and lunch, scan at 20:00, no tenant in the
    metadata: denied, every subscription unchanged. *)
Lemma mealScanner_denial_keeps_witness :
  subscriptions
    (snd (MealScanner.processScan (SampleScanner.env true)
            SampleScanner.alice_token SampleScanner.staff
            SampleScanner.md_bare (SampleScanner.at_hour 20)
            (SampleScanner.db_planned 5)))
  = subscriptions (SampleScanner.db_planned 5).
Proof.
  eapply (mealScanner_denial_keeps_subscriptions (SampleScanner.env true)
            SampleScanner.alice_token SampleScanner.staff
            SampleScanner.md_bare (SampleScanner.at_hour 20)
            (SampleScanner.db_planned 5)).
  - vm_compute. reflexivity.
  - cbn. discriminate.
Defined.

End ScannerFacts.

Section ScannerClaims.
Import Db MealScanner EligibilityOrder StoreSpec ScannerSpec.
Local Open Scope list_scope.




End ScannerClaims.

Section ScannerTheorems.
Import Db MealScanner EligibilityOrder SampleScanner StoreSpec ScannerSpec.
Local Open Scope list_scope.





(** C6 (the code departs from it for [meal_type_not_allowed]). Plan
    allowing breakfast and lunch only, five meals left, scan at 20:00
    with the tenant in the metadata: the first failing check is
    [meal_type_not_allowed], but recording the denial is rejected by the
    transaction schema, whose [failureReason] enum lacks that value.
    The promise of the record is returned without being awaited, so the
    rejection passes the [catch] of [processScan] by: the call rejects
    with the validation error, and the caller gets no reason, typed or
    not.  The store is unchanged.  Without [messId] in the metadata no
    document is written and the typed reason is returned. *)
Theorem C6_meal_type_not_allowed_untyped :
  forall idx : bool,
    let run := processScan (env idx) alice_token staff md_tenant (at_hour 20)
                           (db_planned 5) in
    let bare := processScan (env idx) alice_token staff md_bare (at_hour 20)
                            (db_planned 5) in
    first_failing (mealScanner_checks (env idx) alice_token md_tenant
                     (at_hour 20) (db_planned 5) (Some Dinner))
    = Some "meal_type_not_allowed"
    /\ in_enum "meal_type_not_allowed" failureReason_enum = false
    /\ run = (Throw (validation_error "MealTransaction"), db_planned 5)
    /\ option_map failureReason
         (match fst bare with Return r => Some r | Throw _ => None end)
       = Some (Some "meal_type_not_allowed")
    /\ subscriptions (snd bare) = subscriptions (db_planned 5).
Proof. intros [|]; vm_compute; repeat split. Qed.

End ScannerTheorems.

(* ------------------------------------------------------------------ *)
(** ** Idempotent scan service *)
(* ------------------------------------------------------------------ *)

Section IdempotentFacts.
Import Db IdempotentScanService.
Local Open Scope list_scope.

Lemma findOne_desc_present {A} (key : A -> Z) (f : A -> bool) (l : list A) :
  present (findOne_desc key f l) = existsb f l.
Proof.
  induction l as [|x l IH]; simpl; [reflexivity|].
  destruct (f x); simpl; [|exact IH].
  destruct (findOne_desc key f l) as [y|]; [|reflexivity].
  destruct (key x <? key y); reflexivity.
Qed.

Lemma findOne_desc_none {A} (key : A -> Z) (f : A -> bool) (l : list A) :
  findOne_desc key f l = None -> existsb f l = false.
Proof.
  intros H. rewrite <- (findOne_desc_present key). rewrite H. reflexivity.
Qed.

(** A store in which nothing matched, extended by one matching record,
    answers the query with that record. *)
Lemma findOne_desc_snoc {A} (key : A -> Z) (f : A -> bool) (l : list A) (x : A) :
  existsb f l = false -> f x = true -> findOne_desc key f (l ++ [x]) = Some x.
Proof.
  induction l as [|y l IH]; simpl; intros Hl Hx.
  - rewrite Hx. reflexivity.
  - apply orb_false_iff in Hl. destruct Hl as [Hy Hl].
    rewrite Hy. apply IH; assumption.
Qed.

Lemma MealType_eqb_refl (m : MealType) : MealType_eqb m m = true.
Proof. destruct m; reflexivity. Qed.

Lemma boundaries_same_day (mt : MealType) (now1 now2 : Date) :
  startOfDay now2 = startOfDay now1 ->
  getMealWindowBoundaries mt now2 = getMealWindowBoundaries mt now1.
Proof.
  intros H. unfold getMealWindowBoundaries, setHours. rewrite H. reflexivity.
Qed.

Lemma save_keeps_transactions (doc : Subscription)
      (upd : Subscription -> Subscription) (db : DB) :
  transactions (snd (Subscription_save doc upd db)) = transactions db.
Proof.
  unfold Subscription_save. destruct (negb (subscription_valid doc)); [reflexivity|].
  destruct (update_first _ upd (subscriptions db)); reflexivity.
Qed.

(** A first redemption that was not answered from the record leaves
    that record, stamped with the instant of the call, as the only new
    transaction. *)
Lemma first_redemption_record (idx : bool) (cid : Id) (mt : MealType)
      (sub : Subscription) (md : Metadata) (now : Date) (db0 db1 : DB)
      (r1 : Result) (ws we : Date) :
  getMealWindowBoundaries mt now = Return (ws, we) ->
  processScanIdempotent idx cid mt sub md now db0 = (Return r1, db1) ->
  idempotent r1 = false ->
  existsb (existing_filter cid mt ws we) (transactions db0) = false /\
  transactions db1 = transactions db0 ++ [transaction r1] /\
  t_customerId (transaction r1) = Some cid /\
  t_mealType (transaction r1) = mt /\
  t_status (transaction r1) = TxSuccess /\
  t_timestamp (transaction r1) = now.
Proof.
  intros Hb. unfold processScanIdempotent.
  unfold SE.bind at 1, SE.lift at 1. rewrite Hb.
  unfold SE.bind at 1, findExistingScan at 1, SE.bind at 1, SE.get, SE.ret.
  destruct (findOne_desc t_timestamp (existing_filter cid mt ws we)
                         (transactions db0)) as [t|] eqn:Ex.
  { intros H Hi. inversion H; subst. discriminate. }
  apply findOne_desc_none in Ex.
  unfold processScanIdempotent_deduct, deductMealAtomic. cbv zeta.
  unfold SE.bind at 1. rewrite findOneAndUpdate_returns.
  destruct (fst (update_first _ _ (subscriptions db0))) as [updated|].
  2:{ unfold SE.bind, findExistingScan, SE.bind, SE.get, SE.ret, SE.throw.
      cbn [transactions set_subscriptions].
      destruct (findOne_desc _ _ (transactions db0)); intros H Hi;
        inversion H; subst; discriminate. }
  set (db' := set_subscriptions db0 _).
  unfold SE.bind at 1, MealTransaction_create.
  destruct (negb (tx_valid _)); [discriminate|].
  destruct (idx && idempotency_clash _ (transactions db')); [discriminate|].
  unfold SE.bind at 1.
  destruct (s_mealsRemaining updated =? 0).
  - match goal with
    | |- context [Subscription_save ?d ?u ?x] =>
        pose proof (save_keeps_transactions d u x) as Hk;
        destruct (Subscription_save d u x) as [[u0|e] db2]
    end; [|discriminate].
    unfold SE.ret. intros H Hi. inversion H; subst. cbn in Hk |- *.
    rewrite Hk. repeat split; auto.
  - unfold SE.ret. intros H Hi. inversion H; subst. cbn.
    repeat split; auto.
Qed.

(** Replaying on the same day a redemption that was made inside the
    window of its meal type is answered from its record; the store is
    not touched. *)
Lemma replay_same_window (idx : bool) (cid : Id) (mt : MealType)
      (sub sub' : Subscription) (md md' : Metadata) (now1 now2 : Date)
      (db0 db1 : DB) (r1 : Result) (ws we : Date) :
  getMealWindowBoundaries mt now1 = Return (ws, we) ->
  ws <= now1 <= we ->
  processScanIdempotent idx cid mt sub md now1 db0 = (Return r1, db1) ->
  idempotent r1 = false ->
  startOfDay now2 = startOfDay now1 ->
  processScanIdempotent idx cid mt sub' md' now2 db1
  = (Return (idempotent_result (transaction r1)
               "Scan already processed in this meal window"), db1).
Proof.
  intros Hb Hin Hrun Hi Hday.
  destruct (first_redemption_record idx cid mt sub md now1 db0 db1 r1 ws we
              Hb Hrun Hi) as (Hnone & Htx & Hc & Hm & Hs & Ht).
  unfold processScanIdempotent.
  unfold SE.bind at 1, SE.lift at 1.
  rewrite (boundaries_same_day mt now1 now2 Hday), Hb.
  unfold SE.bind at 1, findExistingScan at 1, SE.bind at 1, SE.get, SE.ret.
  rewrite Htx, (findOne_desc_snoc t_timestamp _ _ _ Hnone); [reflexivity|].
  unfold existing_filter. rewrite Hc, Hm, Hs, Ht. cbn [opt_id_eqb TxStatus_eqb].
  rewrite Nat.eqb_refl, MealType_eqb_refl.
  destruct Hin as [H1 H2]. apply Z.leb_le in H1, H2. rewrite H1, H2. reflexivity.
Qed.

(** When the conditional update fails, the record is looked up again
    and, when one is found, returned instead of a failure. *)
Lemma recheck_after_failed_update (idx : bool) (cid : Id) (mt : MealType)
      (sub : Subscription) (md : Metadata) (ws we now : Date) (db : DB) (t : Tx) :
  existsb (fun s => Nat.eqb (s_id s) (s_id sub) && (0 <? s_mealsRemaining s))
          (subscriptions db) = false ->
  findOne_desc t_timestamp (existing_filter cid mt ws we) (transactions db)
  = Some t ->
  processScanIdempotent_deduct idx cid mt sub md ws we now db
  = (Return (idempotent_result t "Concurrent scan already processed"), db).
Proof.
  intros Hno Hex.
  unfold processScanIdempotent_deduct, deductMealAtomic. cbv zeta.
  unfold SE.bind at 1. rewrite findOneAndUpdate_returns.
  pose proof (update_first_existsb
                (fun s => Nat.eqb (s_id s) (s_id sub) && (0 <? s_mealsRemaining s))
                (fun s => set_mealsRemaining s (s_mealsRemaining s - 1) now)
                (subscriptions db)) as Hp.
  rewrite Hno in Hp.
  destruct (fst (update_first _ _ (subscriptions db))) eqn:E; [discriminate|].
  rewrite (update_first_none _ _ _ E), set_subscriptions_same.
  unfold SE.bind, findExistingScan, SE.bind, SE.get, SE.ret.
  rewrite Hex. reflexivity.
Qed.

End IdempotentFacts.

Section IdempotentTheorems.
Import Db IdempotentScanService SampleIdempotent.
Local Open Scope list_scope.

(** C3 (amended). Replaying, on the same day, a redemption that was
    made inside the hard-coded window of its meal type (breakfast
    07:00-10:59, lunch 12:00-15:59, dinner 19:00-22:59) returns the
    transaction of the first call and leaves the store, hence the
    balance, untouched; and when the conditional update fails, the
    coordinator looks the success record up again and returns it
    instead of a failure. *)
Theorem C3_replay_inside_window_idempotent :
  (forall (idx : bool) (cid : Id) (mt : MealType) (sub sub' : Subscription)
          (md md' : Metadata) (now1 now2 : Date) (db0 db1 : DB) (r1 : Result)
          (ws we : Date),
      getMealWindowBoundaries mt now1 = Return (ws, we) ->
      ws <= now1 <= we ->
      processScanIdempotent idx cid mt sub md now1 db0 = (Return r1, db1) ->
      idempotent r1 = false ->
      startOfDay now2 = startOfDay now1 ->
      processScanIdempotent idx cid mt sub' md' now2 db1
      = (Return (idempotent_result (transaction r1)
                   "Scan already processed in this meal window"), db1))
  /\ (forall (idx : bool) (cid : Id) (mt : MealType) (sub : Subscription)
             (md : Metadata) (ws we now : Date) (db : DB) (t : Tx),
         existsb (fun s => Nat.eqb (s_id s) (s_id sub)
                           && (0 <? s_mealsRemaining s))
                 (subscriptions db) = false ->
         findOne_desc t_timestamp (existing_filter cid mt ws we)
                      (transactions db) = Some t ->
         processScanIdempotent_deduct idx cid mt sub md ws we now db
         = (Return (idempotent_result t "Concurrent scan already processed"),
            db)).
Proof.
  split.
  - intros. eapply replay_same_window; eassumption.
  - intros. eapply recheck_after_failed_update; eassumption.
Qed.

(** Lunch redeemed at 12:30 and replayed at 12:31: same transaction,
    same store. *)
Lemma C3_replay_witness :
  tx_id_of (fst (replay true 5 t1230 t1231))
  = tx_id_of (fst (first_call true 5 t1230))
  /\ snd (replay true 5 t1230 t1231) = snd (first_call true 5 t1230).
Proof.
  pose (r1 := match fst (first_call true 5 t1230) with
              | Return r => r
              | Throw _ => idempotent_result
                             (mkTx 0%nat None None None None None Lunch TxFailed 0
                                   None None None None None None None None) ""
              end).
  assert (H : replay true 5 t1230 t1231
              = (Return (idempotent_result (transaction r1)
                           "Scan already processed in this meal window"),
                 snd (first_call true 5 t1230))).
  { unfold replay.
    apply (proj1 C3_replay_inside_window_idempotent true 1%nat Lunch
             (Sample.sub_of 5) (Sample.sub_of 5) md md t1230 t1231
             (Sample.db_with 5) (snd (first_call true 5 t1230)) r1
             (setHours t1230 12 0 0 0) (setHours t1230 15 59 59 999)).
    - reflexivity.
    - vm_compute. split; discriminate.
    - vm_compute. reflexivity.
    - vm_compute. reflexivity.
    - vm_compute. reflexivity. }
  rewrite H. split; [vm_compute; reflexivity|reflexivity].
Defined.

(** C3 as stated fails: lunch redeemed at 11:30, which the hour-only
    resolver already counts as lunch but which lies before the
    hard-coded window, and replayed at 11:31 with the same inputs, is
    redeemed a second time.  Without the unique index a second
    transaction is returned; with it the insert is rejected after the
    second decrement. *)
Lemma C3_replay_outside_window_redeems_again :
  HourResolver.determineMealType t1130 = Some Lunch
  /\ tx_id_of (fst (first_call false 5 t1130)) = Some 100%nat
  /\ Sample.remaining_of (snd (first_call false 5 t1130)) = Some 4
  /\ idempotent_of (fst (replay false 5 t1130 t1131)) = Some false
  /\ tx_id_of (fst (replay false 5 t1130 t1131)) = Some 101%nat
  /\ Sample.remaining_of (snd (replay false 5 t1130 t1131)) = Some 3
  /\ fst (replay true 5 t1130 t1131) = Throw duplicate_key_error
  /\ Sample.remaining_of (snd (replay true 5 t1130 t1131)) = Some 3.
Proof. vm_compute. repeat split. Qed.

End IdempotentTheorems.

(* ------------------------------------------------------------------ *)
(** ** Batch replay *)
(* ------------------------------------------------------------------ *)

Section SortFacts.
Import MealScanner.
Local Open Scope list_scope.

Variable A : Type.
Variable key : A -> Z.


Lemma insert_sorted_perm (x : A) (l : list A) :
  Permutation (x :: l) (insert_sorted (by_key key) x l).
Proof.
  induction l as [|y l IH]; simpl; [reflexivity|].
  destruct ((by_key key) x y <=? 0); [reflexivity|].
  rewrite perm_swap. constructor. exact IH.
Qed.

Lemma js_sort_perm (l : list A) : Permutation l (js_sort (by_key key) l).
Proof.
  induction l as [|x l IH]; simpl; [constructor|].
  rewrite <- insert_sorted_perm. constructor. exact IH.
Qed.

Lemma js_sort_length (l : list A) :
  List.length (js_sort (by_key key) l) = List.length l.
Proof. symmetry. apply Permutation_length, js_sort_perm. Qed.





End SortFacts.

Section BatchFacts.
Import Db.
Local Open Scope list_scope.

Lemma existsb_permutation {A} (f : A -> bool) (l l' : list A) :
  Permutation l l' -> existsb f l = existsb f l'.
Proof.
  induction 1 as [|x l l' Hp IH|x y l|l l' l'' H1 IH1 H2 IH2]; simpl.
  - reflexivity.
  - rewrite IH. reflexivity.
  - destruct (f x), (f y); reflexivity.
  - congruence.
Qed.


Lemma sortScans_objects (scans : list ScanBatch.Element) :
  existsb ScanBatch.nullish scans = false ->
  ScanBatch.sortScans scans
  = Return (MealScanner.js_sort
              (fun a b => ScanBatch.sort_key a - ScanBatch.sort_key b) scans).
Proof.
  intros H. unfold ScanBatch.sortScans. rewrite H, andb_false_r. reflexivity.
Qed.

Lemma js_sort_objects (scans : list ScanBatch.Element) :
  existsb ScanBatch.nullish scans = false ->
  existsb ScanBatch.nullish
    (MealScanner.js_sort
       (fun a b => ScanBatch.sort_key a - ScanBatch.sort_key b) scans) = false.
Proof.
  intros H. rewrite <- H. symmetry. apply existsb_permutation.
  apply (js_sort_perm _ ScanBatch.sort_key).
Qed.



(** A [null] among the submitted elements: the [try] block of the route
    throws, in the comparator or, for a single element, at the
    destructuring, before anything is written. *)
Lemma batch_null_element (P : Platform) (idx : bool) (st : Settings)
      (secret : string) (user : option Id) (clock : nat -> Date)
      (scans : list ScanBatch.Element) (db : DB) :
  existsb ScanBatch.nullish scans = true ->
  ScanBatch.batch P idx st secret user clock scans db
  = (Throw ScanBatch.type_error, db).
Proof.
  intros H. destruct scans as [|x [|y rest]].
  - discriminate H.
  - destruct x as [request|]; [discriminate H|]. reflexivity.
  - unfold ScanBatch.batch, ScanBatch.sortScans.
    rewrite H. reflexivity.
Qed.



End BatchFacts.

Section BatchTheorems.
Import Db SampleOffline.
Local Open Scope list_scope.




(** C5 (the batch route departs from it). One meal left, one valid scan
    through the batch route: the conditional update brings the balance
    to 0 and the subscription stays active, where the idempotent
    service and the scanner deactivate it in the same operation.  The
    next attempt through the route is still denied, with
    [no_active_subscription], because its lookup requires a positive
    balance. *)
Theorem C5_batch_route_leaves_subscription_active :
  forall idx : bool,
    let after := snd (route idx 1 [SampleBatch.scan_at SampleBatch.t1230 "a"]) in
    Sample.remaining_of after = Some 0
    /\ Sample.active_of after = Some true
    /\ route_outcomes
         (ScanBatch.batch ref_platform idx SampleBatch.defaults
            SampleBatch.secret (Some 50%nat) (fun _ => SampleBatch.t1230 + 60000)
            [SampleBatch.scan_at (SampleBatch.t1230 + 60000) "b"] after)
       = [(Some "b", Some "no_active_subscription")]
    /\ Sample.remaining_of
         (snd (SampleIdempotent.first_call idx 1 SampleIdempotent.t1230))
       = Some 0
    /\ Sample.active_of
         (snd (SampleIdempotent.first_call idx 1 SampleIdempotent.t1230))
       = Some false
    /\ Sample.active_of
         (snd (MealScanner.processScan (SampleScanner.env idx)
                 SampleScanner.alice_token SampleScanner.staff
                 SampleScanner.md_tenant (SampleScanner.at_hour 13)
                 (SampleScanner.db_planned 1)))
       = Some false.
Proof. intros [|]; vm_compute; repeat split. Qed.

End BatchTheorems.
(* ------------------------------------------------------------------ *)
(** ** Further properties of the redemption paths *)
(* ------------------------------------------------------------------ *)

Section RedemptionFacts.
Import Db Invariants ScannerSpec.
Local Open Scope list_scope.

Lemma update_first_at {A} (g : A -> bool) (v : A -> A) (l1 l2 : list A)
      (x : A) :
  forallb (fun z => negb (g z)) l1 = true -> g x = true ->
  update_first g v (l1 ++ x :: l2) = (Some (v x), l1 ++ v x :: l2).
Proof.
  intros H G. induction l1 as [|a l1 IH]; simpl in *.
  - rewrite G. reflexivity.
  - apply andb_prop in H as [Ha Hl]. apply negb_true_iff in Ha. rewrite Ha.
    rewrite (IH Hl). reflexivity.
Qed.

Lemma findOne_at {A} (g : A -> bool) (l1 l2 : list A) (x : A) :
  forallb (fun z => negb (g z)) l1 = true -> g x = true ->
  findOne g (l1 ++ x :: l2) = Some x.
Proof.
  intros H G. unfold findOne. induction l1 as [|a l1 IH]; simpl in *.
  - rewrite G. reflexivity.
  - apply andb_prop in H as [Ha Hl]. apply negb_true_iff in Ha. rewrite Ha.
    exact (IH Hl).
Qed.

(** [_id] is unique: no document before [x] carries its identifier. *)
Lemma unique_id_prefix (l1 l2 : list Subscription) (x : Subscription) :
  NoDup (map s_id (l1 ++ x :: l2)) ->
  forallb (fun z => negb (Nat.eqb (s_id z) (s_id x))) l1 = true.
Proof.
  rewrite map_app. cbn [map]. intros H.
  apply forallb_forall. intros z Hz.
  apply negb_true_iff, Nat.eqb_neq. intros Heq.
  apply NoDup_remove_2 in H. apply H. apply in_or_app. left.
  rewrite <- Heq. apply in_map. exact Hz.
Qed.


Lemma deduct_deactivates_at_zero
      (idx : bool) (cid : Id) (mt : MealType) (sub : Subscription)
      (md : IdempotentScanService.Metadata) (ws we now : Date) (db : DB)
      (res : IdempotentScanService.Result) :
  NoDup (map s_id (subscriptions db)) ->
  fst (IdempotentScanService.processScanIdempotent_deduct idx cid mt sub md
         ws we now db) = Return res ->
  IdempotentScanService.idempotent res = false ->
  exists stored,
    IdempotentScanService.subscription res = Some stored /\
    lookup_subscription
      (snd (IdempotentScanService.processScanIdempotent_deduct idx cid mt sub
              md ws we now db))
      (s_id sub) = Some stored /\
    (s_mealsRemaining stored = 0 -> s_active stored = false).
Proof.
  intros Hnd.
  unfold IdempotentScanService.processScanIdempotent_deduct,
    IdempotentScanService.deductMealAtomic, SE.bind.
  rewrite findOneAndUpdate_returns.
  match goal with
  | |- context [update_first ?f ?u ?l] =>
      destruct (fst (update_first f u l)) as [y|] eqn:E;
      [destruct (update_first_some f u l y E)
         as (l1 & x & l2 & Hl & Hf & Hy & _ & Hs); rewrite Hs; clear Hs E|]
  end.
  2:{ unfold IdempotentScanService.findExistingScan, SE.bind, SE.get, SE.ret,
        SE.throw.
      destruct (findOne_desc _ _ _); cbn; [|discriminate].
      intros H; inversion H; subst; cbn. discriminate. }
  rewrite Hl in Hnd. pose proof (unique_id_prefix _ _ _ Hnd) as Hpre.
  apply andb_prop in Hf as [Hid Hpos]. apply Nat.eqb_eq in Hid.
  unfold MealTransaction_create.
  destruct (negb (tx_valid _)); [discriminate|].
  destruct (idx && _); [discriminate|]. cbv beta iota zeta.
  destruct (Z.eqb (s_mealsRemaining y) 0) eqn:Ez.
  - unfold Subscription_save.
    destruct (negb (subscription_valid _)); [discriminate|].
    cbn [set_transactions subscriptions set_subscriptions set_active s_id].
    subst y. cbn [set_mealsRemaining s_id].
    rewrite (update_first_at (fun s => Nat.eqb (s_id s) (s_id x)) _ l1 l2 _).
    + cbn. intros H _. inversion H; subst; cbn.
      eexists; split; [reflexivity|]. split; [|reflexivity].
      unfold lookup_subscription. cbn. rewrite <- Hid.
      apply findOne_at; [exact Hpre|cbn; apply Nat.eqb_refl].
    + exact Hpre.
    + cbn. apply Nat.eqb_refl.
  - cbn. intros H _. inversion H; subst; cbn.
    eexists; split; [reflexivity|]. split.
    + unfold lookup_subscription. cbn. rewrite <- Hid.
      apply findOne_at; [exact Hpre|cbn; apply Nat.eqb_refl].
    + cbn. apply Z.eqb_neq in Ez. cbn in Ez. intros; lia.
Qed.

(** [processScanIdempotent], on a store with unique [_id]s: a call that
    redeems (it returns, and not with a recorded transaction) rewrote
    the stored subscription to the document it returns, and when that
    document's balance is 0 it is stored inactive, in the same call. *)
Theorem idempotent_service_deactivates_at_zero
        (idx : bool) (cid : Id) (mt : MealType) (sub : Subscription)
        (md : IdempotentScanService.Metadata) (now : Date) (db : DB)
        (res : IdempotentScanService.Result) :
  NoDup (map s_id (subscriptions db)) ->
  fst (IdempotentScanService.processScanIdempotent idx cid mt sub md now db)
  = Return res ->
  IdempotentScanService.idempotent res = false ->
  exists stored,
    IdempotentScanService.subscription res = Some stored /\
    lookup_subscription
      (snd (IdempotentScanService.processScanIdempotent idx cid mt sub md
              now db))
      (s_id sub) = Some stored /\
    (s_mealsRemaining stored = 0 -> s_active stored = false).
Proof.
  intros Hnd.
  unfold IdempotentScanService.processScanIdempotent,
    IdempotentScanService.findExistingScan, SE.bind, SE.lift, SE.get, SE.ret.
  destruct (IdempotentScanService.getMealWindowBoundaries mt now)
    as [[ws we]|e]; [|discriminate].
  destruct (findOne_desc _ _ _) as [t|].
  - cbn. intros H; inversion H; subst; cbn. discriminate.
  - apply deduct_deactivates_at_zero. exact Hnd.
Qed.

(** One meal left, lunch redeemed at 12:30: the stored subscription is
    inactive after the call. *)
Lemma idempotent_service_deactivates_witness :
  Sample.active_of
    (snd (IdempotentScanService.processScanIdempotent true 1%nat Lunch
            (Sample.sub_of 1) SampleIdempotent.md SampleIdempotent.t1230
            (Sample.db_with 1)))
  = Some false.
Proof.
  destruct (fst (IdempotentScanService.processScanIdempotent true 1%nat Lunch
                   (Sample.sub_of 1) SampleIdempotent.md
                   SampleIdempotent.t1230 (Sample.db_with 1)))
    as [res|e] eqn:E; [|vm_compute in E; discriminate].
  assert (Hi : IdempotentScanService.idempotent res = false).
  { vm_compute in E. inversion E. reflexivity. }
  assert (Hnd : NoDup (map s_id (subscriptions (Sample.db_with 1)))).
  { cbn. constructor; [intros []|constructor]. }
  destruct (idempotent_service_deactivates_at_zero true 1%nat Lunch
              (Sample.sub_of 1) SampleIdempotent.md SampleIdempotent.t1230
              (Sample.db_with 1) res Hnd E Hi) as (stored & Hs & Hl & Hz).
  unfold Sample.active_of. cbn [s_id Sample.sub_of] in Hl. rewrite Hl.
  cbn [option_map]. f_equal. apply Hz.
  vm_compute in E. inversion E as [Hr]. rewrite <- Hr in Hs.
  cbn in Hs. inversion Hs. reflexivity.
Defined.

End RedemptionFacts.

(* ------------------------------------------------------------------ *)
(** ** Minting and verifying a credential *)
(* ------------------------------------------------------------------ *)

Section MintFacts.
Import Qr Crypto CodecSpec QrMint.
Local Open Scope list_scope.

Lemma base64_char_nodot (v : Z) :
  0 <= v < 64 -> Ascii.eqb (base64_char v) "."%char = false.
Proof.
  intros [Hlo Hhi].
  destruct v as [|p|p]; [reflexivity| |lia].
  do 7 (try (destruct p as [p|p|]; try reflexivity; try lia)).
Qed.

Lemma bytes_of_string_range (s : string) :
  Forall byte_range (bytes_of_string s).
Proof.
  unfold bytes_of_string. induction s as [|c s IH]; simpl; constructor; auto.
  unfold byte_range. pose proof (N_ascii_bounded c). lia.
Qed.

Lemma base64_encode_nodot (bs : list Z) :
  Forall byte_range bs -> has_dot (base64_encode bs) = false.
Proof.
  assert (H3 : forall n (l : list Z), (List.length l <= n)%nat ->
            Forall byte_range l -> has_dot (base64_encode l) = false).
  { induction n as [|n IH]; intros l Hlen Hr;
      destruct l as [|a [|b [|c rest]]]; try reflexivity;
      simpl in Hlen; try lia;
      repeat match goal with
             | H : Forall _ (_ :: _) |- _ => inversion H; subst; clear H
             end;
      unfold byte_range in *; cbn [base64_encode has_dot];
      rewrite !base64_char_nodot by (Z.div_mod_to_equations; lia);
      cbn [orb]; try reflexivity;
      apply IH; [lia|assumption]. }
  intros H. apply (H3 (List.length bs)); [lia|exact H].
Qed.

Lemma base64_encode_nonempty (bs : list Z) :
  bs <> [] -> base64_encode bs <> "".
Proof. destruct bs as [|a [|b [|c rest]]]; simpl; congruence. Qed.

Lemma bytes_of_string_nonempty (s : string) :
  s <> "" -> bytes_of_string s <> [].
Proof. destruct s; [congruence|discriminate]. Qed.

Lemma hex_digit_nodot (n : Z) :
  0 <= n < 16 -> Ascii.eqb (hex_digit n) "."%char = false.
Proof.
  intros [Hlo Hhi].
  destruct n as [|p|p]; [reflexivity| |lia].
  do 5 (try (destruct p as [p|p|]; try reflexivity; try lia)).
Qed.

Lemma hex_encode_nodot (bs : list Z) :
  Forall byte_range bs -> has_dot (hex_encode bs) = false.
Proof.
  induction 1 as [|b bs Hb _ IH]; [reflexivity|].
  unfold byte_range in Hb. cbn [hex_encode has_dot].
  rewrite !hex_digit_nodot by (Z.div_mod_to_equations; lia). exact IH.
Qed.

Lemma hex_encode_length (bs : list Z) :
  String.length (hex_encode bs) = (2 * List.length bs)%nat.
Proof. induction bs as [|b bs IH]; simpl; [reflexivity|]. rewrite IH. lia. Qed.

(** A minted token has exactly two segments. *)
Lemma split_dot_minted (p sig : string) :
  has_dot p = false -> has_dot sig = false ->
  split_dot (p ++ "." ++ sig) = [p; sig].
Proof.
  intros Hp Hs. rewrite (split_dot_cons p sig Hp).
  unfold split_dot. rewrite (split_dot_aux_nodot (fun x => x) sig Hs).
  reflexivity.
Qed.

Lemma hmac_hex_shape (k msg : string) :
  has_dot (hmac_hex k msg) = false /\ hmac_hex k msg <> ""
  /\ String.length (hmac_hex k msg) = 64%nat.
Proof.
  unfold hmac_hex.
  destruct (hmac_shape (bytes_of_string k) (bytes_of_string msg)) as [Hl Hr].
  assert (L : String.length
                (hex_encode (hmac_sha256 (bytes_of_string k) (bytes_of_string msg)))
              = 64%nat) by (rewrite hex_encode_length, Hl; reflexivity).
  split; [apply hex_encode_nodot, Hr|]. split; [|exact L].
  intros E. rewrite E in L. discriminate.
Qed.

(** What the verifier does with a token minted over the text
    [payloadStr] when it is given the secret [k']. *)
Lemma verify_minted (P : Platform) (k k' payloadStr : string)
      (tr : list Event) :
  payloadStr <> "" ->
  verifyQrToken P
    (JStr (to_base64 payloadStr ++ "." ++ hmac_hex k (to_base64 payloadStr)))
    (Some k') tr
  = verify_outcome P k' (to_base64 payloadStr)
                   (hmac_hex k (to_base64 payloadStr)) tr.
Proof.
  intros Hne.
  destruct (hmac_hex_shape k (to_base64 payloadStr)) as (Hd & Hn & _).
  eapply verifyQrToken_segments.
  - apply split_dot_minted; [|exact Hd].
    apply base64_encode_nodot, bytes_of_string_range.
  - apply base64_encode_nonempty, bytes_of_string_nonempty, Hne.
  - exact Hn.
Qed.

(** A credential minted by [createQrToken] over the JSON text
    [payloadStr] verifies under the same secret: the MAC check passes
    and the verifier answers with what [JSON.parse] makes of that text
    (the parsed payload, or the parse error as an invalid result),
    whenever decoding the base64 segment gives the text back. *)
Theorem createQrToken_verify_round_trip
        (P : Platform) (JSON_stringify : JsValue -> option string)
        (payloadObj : JsValue) (k payloadStr : string) :
  JSON_stringify payloadObj = Some payloadStr ->
  payloadStr <> "" ->
  base64_to_utf8 P (to_base64 payloadStr) = payloadStr ->
  exists token,
    createQrToken JSON_stringify payloadObj (Some k) = Return token /\
    verify P token k
    = match JSON_parse P payloadStr with
      | Return v => Return (Valid v)
      | Throw e => Return (Invalid (message e))
      end.
Proof.
  intros HS Hne Hdec. unfold createQrToken. rewrite HS.
  eexists; split; [reflexivity|].
  unfold verify. rewrite (verify_minted P k k payloadStr [] Hne).
  unfold verify_outcome. rewrite Nat.eqb_refl.
  replace (bytes_eqb _ _) with true
    by (symmetry; apply bytes_eqb_eq; reflexivity).
  rewrite Hdec. destruct (JSON_parse P payloadStr); reflexivity.
Qed.

Lemma createQrToken_verify_witness :
  exists token,
    createQrToken (fun _ => Some sample_text)
                  (JObj [("qrCodeId", JStr "abc???")]) (Some sample_secret)
    = Return token /\
    verify ref_platform token sample_secret
    = match JSON_parse ref_platform sample_text with
      | Return v => Return (Valid v)
      | Throw e => Return (Invalid (message e))
      end.
Proof.
  apply (createQrToken_verify_round_trip ref_platform
           (fun _ => Some sample_text) (JObj [("qrCodeId", JStr "abc???")])
           sample_secret sample_text).
  - reflexivity.
  - intros H. vm_compute in H. discriminate.
  - vm_compute. reflexivity.
Defined.

(** A credential minted under the secret [k] and verified under another
    secret [k'] is refused as a signature mismatch, and nothing of it is
    parsed, unless the two secrets give the payload segment the same
    MAC. *)
Theorem minted_token_bound_to_secret
        (P : Platform) (JSON_stringify : JsValue -> option string)
        (payloadObj : JsValue) (k k' payloadStr token : string) :
  JSON_stringify payloadObj = Some payloadStr ->
  payloadStr <> "" ->
  createQrToken JSON_stringify payloadObj (Some k) = Return token ->
  hmac_hex k' (to_base64 payloadStr) <> hmac_hex k (to_base64 payloadStr) ->
  fst (verifyQrToken P (JStr token) (Some k') [])
  = Return (Invalid "Signature mismatch")
  /\ never_parsed (snd (verifyQrToken P (JStr token) (Some k') [])).
Proof.
  intros HS Hne Hmint Hmac.
  assert (token = (to_base64 payloadStr ++ "."
                   ++ hmac_hex k (to_base64 payloadStr))%string) as ->.
  { unfold createQrToken in Hmint. rewrite HS in Hmint. congruence. }
  rewrite (verify_minted P k k' payloadStr [] Hne).
  unfold verify_outcome. rewrite !hex_decode_hmac_hex.
  destruct (hmac_shape (bytes_of_string k') (bytes_of_string (to_base64 payloadStr)))
    as [L1 _].
  destruct (hmac_shape (bytes_of_string k) (bytes_of_string (to_base64 payloadStr)))
    as [L2 _].
  rewrite L1, L2. cbn [Nat.eqb].
  destruct (bytes_eqb _ _) eqn:E.
  - exfalso. apply bytes_eqb_eq in E. apply Hmac. unfold hmac_hex.
    rewrite E. reflexivity.
  - split; [reflexivity|]. cbn [snd]. intros text Hin.
    cbn in Hin. destruct Hin as [H|[H|[]]]; discriminate.
Qed.

Lemma minted_token_bound_witness :
  fst (verifyQrToken ref_platform (JStr sample_token) (Some "other") [])
  = Return (Invalid "Signature mismatch")
  /\ never_parsed
       (snd (verifyQrToken ref_platform (JStr sample_token) (Some "other") [])).
Proof.
  apply (minted_token_bound_to_secret ref_platform
           (fun _ => Some sample_text) (JObj []) sample_secret "other"
           sample_text sample_token).
  - reflexivity.
  - intros H. vm_compute in H. discriminate.
  - vm_compute. reflexivity.
  - intros H. vm_compute in H. discriminate.
Defined.

End MintFacts.

(* ------------------------------------------------------------------ *)
(** ** Settings cache: reloads *)
(* ------------------------------------------------------------------ *)

Section SettingsCacheFacts.
Import SettingsCache SettingsRun.
Local Open Scope list_scope.

(** After [clearSettingsCache] the next [getSettings] reads the provider
    whatever the clock says: it returns and caches the stored document,
    or the defaults when there is none; when the provider throws it
    answers with the defaults and the cache stays empty, so the call
    after that reads the provider again. *)
Theorem clearSettingsCache_forces_reload :
  forall (provider : nat -> ProviderResult) (now now' : Z) (st : State),
    getSettings provider now now' (clearSettingsCache st)
    = match provider (queries st) with
      | Found s =>
          (Return s, mkState (Some s) now' (S (queries st)))
      | NotFound =>
          (Return getDefaultSettings,
           mkState (Some getDefaultSettings) now' (S (queries st)))
      | ProviderThrows _ =>
          (Return getDefaultSettings, mkState None 0 (S (queries st)))
      end.
Proof.
  intros provider now now' st.
  unfold getSettings, clearSettingsCache, findOne.
  cbn [cache loadedAt queries].
  destruct (provider (queries st)); reflexivity.
Qed.

Lemma last_entry_ge (times : list (Z * Z)) :
  forall t0, chronological t0 times -> t0 <= last_entry t0 times.
Proof.
  induction times as [|[a b] rest IH]; intros t0 H; simpl in *; [lia|].
  destruct H as (H1 & H2 & H3).
  assert (chronological a rest).
  { destruct rest as [|[c d] rest']; simpl in *; [exact I|].
    destruct H3 as (? & ? & ?). repeat split; try lia; assumption. }
  specialize (IH a H). lia.
Qed.

Lemma chronological_weaken (times : list (Z * Z)) (p q : Z) :
  q <= p -> chronological p times -> chronological q times.
Proof.
  destruct times as [|[a b] rest]; simpl; [auto|].
  intros ? (? & ? & ?). repeat split; try lia; assumption.
Qed.

(** Once a query has been answered at entry time [L], the later calls
    of a run query again only [TTL] after [L]. *)
Lemma calls_after_load (provider : nat -> ProviderResult)
      (times : list (Z * Z)) :
  (forall k e, provider k <> ProviderThrows e) ->
  forall (st : State) (c : Settings) (L prev : Z),
    cache st = Some c -> L <= loadedAt st -> L <= prev ->
    chronological prev times ->
    Z.of_nat (queries (getSettings_calls provider times st))
    <= Z.of_nat (queries st) + (last_entry prev times - L) / TTL.
Proof.
  intros Hp. induction times as [|[now now'] rest IH];
    intros st c L prev Hc HL Hprev Hch; simpl in *.
  - assert (0 <= (prev - L) / TTL) by (apply Z.div_pos; unfold TTL; lia). lia.
  - destruct Hch as (H1 & H2 & H3).
    unfold getSettings at 1. rewrite Hc.
    destruct (now - loadedAt st <? TTL) eqn:F.
    + cbn [snd]. apply (IH st c L now Hc HL); [lia|].
      apply (chronological_weaken rest now'); [lia|exact H3].
    + apply Z.ltb_ge in F. unfold findOne.
      pose proof (Hp (queries st)) as Hq.
      assert (Hrest : chronological now rest)
        by (apply (chronological_weaken rest now'); [lia|exact H3]).
      pose proof (last_entry_ge rest now Hrest) as Hle.
      assert (Hdiv : (last_entry now rest - now) / TTL + 1
                     <= (last_entry now rest - L) / TTL).
      { replace ((last_entry now rest - now) / TTL + 1)
          with ((last_entry now rest - now + 1 * TTL) / TTL)
          by (rewrite Z.div_add by (unfold TTL; lia); reflexivity).
        apply Z.div_le_mono; [unfold TTL; lia|]. unfold TTL in *. lia. }
      destruct (provider (queries st)) as [s| |e];
        [| |exfalso; eapply Hq; reflexivity]; cbn [snd queries or_default].
      * pose proof (IH (mkState (Some s) now' (S (queries st))) s now now
                      eq_refl) as K.
        cbn [loadedAt queries] in K.
        specialize (K H2 (Z.le_refl _) Hrest). lia.
      * pose proof (IH (mkState (Some getDefaultSettings) now' (S (queries st)))
                      getDefaultSettings now now eq_refl) as K.
        cbn [loadedAt queries] in K.
        specialize (K H2 (Z.le_refl _) Hrest). lia.
Qed.

(** Over calls awaited one after the other the provider is read at
    most once per [TTL]. *)
Lemma sequential_reads_bound
      (provider : nat -> ProviderResult) (times : list (Z * Z))
      (st : State) (t0 : Z) :
  (forall k e, provider k <> ProviderThrows e) ->
  chronological t0 times ->
  Z.of_nat (queries (getSettings_calls provider times st))
  - Z.of_nat (queries st)
  <= 1 + (last_entry t0 times - t0) / TTL.
Proof.
  intros Hp. revert st t0.
  induction times as [|[now now'] rest IH]; intros st t0 Hch;
    cbn [getSettings_calls chronological last_entry] in *.
  - rewrite !Z.sub_diag. rewrite Z.div_0_l by (unfold TTL; lia). lia.
  - destruct Hch as (H1 & H2 & H3).
    assert (Hrest : chronological now rest)
      by (apply (chronological_weaken rest now'); [lia|exact H3]).
    pose proof (last_entry_ge rest now Hrest) as Hle.
    assert (Hmono : (last_entry now rest - now) / TTL
                    <= (last_entry now rest - t0) / TTL)
      by (apply Z.div_le_mono; [unfold TTL; lia|lia]).
    unfold getSettings at 1.
    destruct (match cache st with
              | Some _ => now - loadedAt st <? TTL
              | None => false
              end) eqn:F.
    + cbn [snd]. specialize (IH st now Hrest). lia.
    + unfold findOne. pose proof (Hp (queries st)) as Hq.
      destruct (provider (queries st)) as [s| |e];
        [| |exfalso; eapply Hq; reflexivity]; cbn [snd queries or_default].
      * pose proof (calls_after_load provider rest Hp
                      (mkState (Some s) now' (S (queries st))) s now now
                      eq_refl) as K.
        cbn [loadedAt queries] in K.
        specialize (K H2 (Z.le_refl _) Hrest). lia.
      * pose proof (calls_after_load provider rest Hp
                      (mkState (Some getDefaultSettings) now'
                               (S (queries st)))
                      getDefaultSettings now now eq_refl) as K.
        cbn [loadedAt queries] in K.
        specialize (K H2 (Z.le_refl _) Hrest). lia.
Qed.

(** A call that is not interleaved with another is its two halves run
    back to back. *)
Lemma getSettings_two_halves (provider : nat -> ProviderResult)
      (now now' : Z) (st : State) :
  getSettings provider now now' st
  = match getSettings_enter provider now st with
    | (inl s, st1) => (Return s, st1)
    | (inr answer, st1) =>
        (Return (fst (getSettings_resume answer now' st1)),
         snd (getSettings_resume answer now' st1))
    end.
Proof.
  unfold getSettings, getSettings_enter, getSettings_resume, findOne.
  destruct (match cache st with
            | Some _ => now - loadedAt st <? TTL
            | None => false
            end); [reflexivity|].
  destruct (provider (queries st)); reflexivity.
Qed.

(** Two calls that enter a stale cache before the query of the first
    has settled each read the provider. *)
Lemma overlapping_reads_twice (provider : nat -> ProviderResult)
      (now1 now2 now1' now2' : Z) (st : State) :
  match cache st with
  | Some _ => now1 - loadedAt st <? TTL
  | None => false
  end = false ->
  now1 <= now2 ->
  queries (getSettings_overlapping provider now1 now2 now1' now2' st)
  = S (S (queries st)).
Proof.
  intros Hstale Hle.
  assert (Hstale2 : match cache st with
                    | Some _ => now2 - loadedAt st <? TTL
                    | None => false
                    end = false).
  { destruct (cache st); [|reflexivity].
    apply Z.ltb_ge in Hstale. apply Z.ltb_ge. lia. }
  unfold getSettings_overlapping, getSettings_enter.
  rewrite Hstale. cbn [cache loadedAt queries]. rewrite Hstale2.
  unfold getSettings_resume.
  destruct (provider (queries st)), (provider (S (queries st))); reflexivity.
Qed.

(** While the provider answers, calls of [getSettings] that are awaited
    one after the other, each returning before the next one starts,
    read the provider at most once per [TTL]: over such a run of calls
    that starts no earlier than [t0], on a clock that never runs
    backwards, the number of provider reads is at most one more than
    the whole number of [TTL] periods between [t0] and the last call.
    Calls that overlap are not throttled: the cache is tested before
    the [await] and filled after it, so of two calls that enter a stale
    cache before the first query has settled, each reads the provider.
    A call that no other call interleaves with is its two halves, up to
    the [await] and from it on, run back to back. *)
Theorem getSettings_reads_throttled :
  (forall (provider : nat -> ProviderResult) (times : list (Z * Z))
          (st : State) (t0 : Z),
      (forall k e, provider k <> ProviderThrows e) ->
      chronological t0 times ->
      Z.of_nat (queries (getSettings_calls provider times st))
      - Z.of_nat (queries st)
      <= 1 + (last_entry t0 times - t0) / TTL)
  /\ (forall (provider : nat -> ProviderResult) (now1 now2 now1' now2' : Z)
             (st : State),
         match cache st with
         | Some _ => now1 - loadedAt st <? TTL
         | None => false
         end = false ->
         now1 <= now2 ->
         queries (getSettings_overlapping provider now1 now2 now1' now2' st)
         = S (S (queries st)))
  /\ (forall (provider : nat -> ProviderResult) (now now' : Z) (st : State),
         getSettings provider now now' st
         = match getSettings_enter provider now st with
           | (inl s, st1) => (Return s, st1)
           | (inr answer, st1) =>
               (Return (fst (getSettings_resume answer now' st1)),
                snd (getSettings_resume answer now' st1))
           end).
Proof.
  split; [|split].
  - apply sequential_reads_bound.
  - apply overlapping_reads_twice.
  - apply getSettings_two_halves.
Qed.

(** Four calls within 60.02 seconds, one after the other: at most two
    reads. *)
Lemma getSettings_reads_witness :
  Z.of_nat (queries (getSettings_calls (fun _ => NotFound)
                       [(0, 5); (10, 12); (59999, 60000); (60010, 60020)]
                       initial))
  - Z.of_nat (queries initial)
  <= 1 + (last_entry 0 [(0, 5); (10, 12); (59999, 60000); (60010, 60020)] - 0)
         / TTL.
Proof.
  apply (proj1 getSettings_reads_throttled (fun _ => NotFound)
           [(0, 5); (10, 12); (59999, 60000); (60010, 60020)] initial 0).
  - intros k e. discriminate.
  - simpl. lia.
Defined.

End SettingsCacheFacts.

(* ------------------------------------------------------------------ *)
(** ** Stored meal windows: what the pre-save check guarantees *)
(* ------------------------------------------------------------------ *)

Section SettingsModelFacts.
Import SettingsModel.
Local Open Scope list_scope.

Lemma ascii_compare_trans_le (a b c : ascii) :
  Ascii.compare a b <> Gt -> Ascii.compare b c <> Gt -> Ascii.compare a c <> Gt.
Proof.
  unfold Ascii.compare. rewrite !N.compare_le_iff. apply N.le_trans.
Qed.

Lemma ascii_compare_eq (a b : ascii) : Ascii.compare a b = Eq -> a = b.
Proof.
  unfold Ascii.compare. intros H. apply N.compare_eq in H.
  rewrite <- (ascii_N_embedding a), <- (ascii_N_embedding b), H. reflexivity.
Qed.

Lemma string_leb_trans (a b c : string) :
  String.leb a b = true -> String.leb b c = true -> String.leb a c = true.
Proof.
  unfold String.leb. revert b c.
  induction a as [|x a IH]; intros [|y b] [|z c]; simpl; try congruence;
    try (intros; reflexivity).
  destruct (Ascii.compare x y) eqn:Exy; try congruence;
    destruct (Ascii.compare y z) eqn:Eyz; try congruence; intros H1 H2.
  - apply ascii_compare_eq in Exy, Eyz. subst.
    assert (Ascii.compare z z = Eq) as ->
      by (unfold Ascii.compare; apply N.compare_refl).
    apply (IH b c); assumption.
  - apply ascii_compare_eq in Exy. subst. rewrite Eyz. reflexivity.
  - apply ascii_compare_eq in Eyz. subst. rewrite Exy. reflexivity.
  - assert (Ascii.compare x z = Lt) as ->; [|reflexivity].
    unfold Ascii.compare in *. rewrite N.compare_lt_iff in *.
    eapply N.lt_trans; eassumption.
Qed.

Lemma str_gt_false (a b : string) : str_gt a b = false -> String.leb a b = true.
Proof. unfold str_gt. intros H. apply negb_false_iff in H. exact H. Qed.

(** Two windows that pass the overlap test share at most one instant:
    the end of one that is the start of the other. *)
Lemma overlap_free_boundary (a b : Win) (ct : string) :
  overlap a b = false ->
  contains a ct = true -> contains b ct = true ->
  (ct = win_end a /\ ct = win_start b) \/ (ct = win_end b /\ ct = win_start a).
Proof.
  unfold overlap, contains, str_ge, str_le.
  intros Ho Ha Hb.
  apply andb_prop in Ha as [Ha1 Ha2]. apply andb_prop in Hb as [Hb1 Hb2].
  apply orb_false_iff in Ho as [O1 O2].
  destruct (String.leb_total (win_start a) (win_start b)) as [L|L].
  - rewrite L in O1. cbn [andb] in O1. apply str_gt_false in O1. left.
    assert (E : ct = win_end a).
    { apply String.leb_antisym; [exact Ha2|].
      eapply string_leb_trans; eassumption. }
    split; [exact E|].
    apply String.leb_antisym; [|exact Hb1]. rewrite E. exact O1.
  - rewrite L in O2. cbn [andb] in O2. apply str_gt_false in O2. right.
    assert (E : ct = win_end b).
    { apply String.leb_antisym; [exact Hb2|].
      eapply string_leb_trans; eassumption. }
    split; [exact E|].
    apply String.leb_antisym; [|exact Ha1]. rewrite E. exact O2.
Qed.

Lemma pre_save_pairs (ws : Wins) :
  pre_save ws = None ->
  overlap (ws_breakfast ws) (ws_lunch ws) = false
  /\ overlap (ws_breakfast ws) (ws_dinner ws) = false
  /\ overlap (ws_lunch ws) (ws_dinner ws) = false.
Proof.
  unfold pre_save. cbn [flat_map List.map seq List.length Nat.sub nth app
                         List.find fst snd].
  destruct (overlap (ws_breakfast ws) (ws_lunch ws)); [discriminate|].
  destruct (overlap (ws_breakfast ws) (ws_dinner ws)); [discriminate|].
  destruct (overlap (ws_lunch ws) (ws_dinner ws)); [discriminate|].
  auto.
Qed.

Lemma overlap_sym (a b : Win) : overlap a b = overlap b a.
Proof. unfold overlap. apply orb_comm. Qed.

(** Windows accepted by the pre-save check may still touch: a time that
    lies in two of them is the last minute of one and the first minute
    of the other.  Wherever else a time lies in the window of a meal,
    that meal is the one [currentMealWindow] resolves to, whatever the
    order of its tests. *)
Theorem pre_save_makes_windows_unambiguous
        (ws : Wins) (m : MealType) (w : Win) (ct : string) :
  pre_save ws = None ->
  window_of ws m = Some w ->
  contains w ct = true ->
  currentMealWindow ws ct = Some m
  \/ exists m' w', window_of ws m' = Some w' /\ m' <> m /\
       currentMealWindow ws ct = Some m' /\
       ((ct = win_end w' /\ ct = win_start w)
        \/ (ct = win_end w /\ ct = win_start w')).
Proof.
  intros Hs Hw Hc. destruct (pre_save_pairs ws Hs) as (Obl & Obd & Old).
  unfold currentMealWindow.
  destruct m; try discriminate; cbn [window_of] in Hw; inversion Hw; subst w.
  - rewrite Hc. left. reflexivity.
  - destruct (contains (ws_breakfast ws) ct) eqn:Hb.
    + right. exists Breakfast, (ws_breakfast ws).
      split; [reflexivity|]. split; [discriminate|]. split; [reflexivity|].
      destruct (overlap_free_boundary _ _ ct Obl Hb Hc) as [H|H]; tauto.
    + rewrite Hc. left. reflexivity.
  - destruct (contains (ws_breakfast ws) ct) eqn:Hb.
    + right. exists Breakfast, (ws_breakfast ws).
      split; [reflexivity|]. split; [discriminate|]. split; [reflexivity|].
      destruct (overlap_free_boundary _ _ ct Obd Hb Hc) as [H|H]; tauto.
    + destruct (contains (ws_lunch ws) ct) eqn:Hl.
      * right. exists Lunch, (ws_lunch ws).
        split; [reflexivity|]. split; [discriminate|]. split; [reflexivity|].
        destruct (overlap_free_boundary _ _ ct Old Hl Hc) as [H|H]; tauto.
      * rewrite Hc. left. reflexivity.
Qed.

(** Breakfast until noon and lunch from noon: accepted by the check;
    at 12:00 both windows hold the time and breakfast is resolved. *)
Lemma pre_save_unambiguous_witness :
  currentMealWindow
    (mkWins (mkWin "06:00" "12:00") (mkWin "12:00" "15:00")
            (mkWin "19:00" "22:00")) "12:00" = Some Lunch
  \/ exists m' w',
       window_of (mkWins (mkWin "06:00" "12:00") (mkWin "12:00" "15:00")
                         (mkWin "19:00" "22:00")) m' = Some w'
       /\ m' <> Lunch
       /\ currentMealWindow
            (mkWins (mkWin "06:00" "12:00") (mkWin "12:00" "15:00")
                    (mkWin "19:00" "22:00")) "12:00" = Some m'
       /\ (("12:00" = win_end w' /\ "12:00" = win_start (mkWin "12:00" "15:00"))
           \/ ("12:00" = win_end (mkWin "12:00" "15:00")
               /\ "12:00" = win_start w')).
Proof.
  apply (pre_save_makes_windows_unambiguous
           (mkWins (mkWin "06:00" "12:00") (mkWin "12:00" "15:00")
                   (mkWin "19:00" "22:00"))
           Lunch (mkWin "12:00" "15:00") "12:00");
    reflexivity.
Defined.

Lemma str_lt_leb (a b : string) : str_lt a b = true -> String.leb a b = true.
Proof.
  unfold str_lt. intros H. apply negb_true_iff in H.
  destruct (String.leb_total a b) as [L|L]; [exact L|congruence].
Qed.

Lemma string_leb_refl (a : string) : String.leb a a = true.
Proof. destruct (String.leb_total a a); assumption. Qed.

(** When the three windows are stored in the order of their starts,
    [getNextMealWindow] answers with the earliest window that starts
    after the current time, and with tomorrow's breakfast exactly when
    no window starts later today. *)
Theorem getNextMealWindow_earliest (ws : Wins) (ct : string) :
  String.leb (win_start (ws_breakfast ws)) (win_start (ws_lunch ws)) = true ->
  String.leb (win_start (ws_lunch ws)) (win_start (ws_dinner ws)) = true ->
  (isToday (getNextMealWindow ws ct) = true ->
     str_lt ct (startsAt (getNextMealWindow ws ct)) = true
     /\ (exists w, window_of ws (next_type (getNextMealWindow ws ct)) = Some w
                   /\ startsAt (getNextMealWindow ws ct) = win_start w)
     /\ forall m w, window_of ws m = Some w ->
          str_lt ct (win_start w) = true ->
          String.leb (startsAt (getNextMealWindow ws ct)) (win_start w) = true)
  /\ (isToday (getNextMealWindow ws ct) = false ->
        getNextMealWindow ws ct
        = mkNext Breakfast (win_start (ws_breakfast ws)) false
        /\ forall m w, window_of ws m = Some w ->
             str_lt ct (win_start w) = false).
Proof.
  intros Hbl Hld.
  assert (Hbd : String.leb (win_start (ws_breakfast ws))
                           (win_start (ws_dinner ws)) = true)
    by (eapply string_leb_trans; eassumption).
  unfold getNextMealWindow. cbn [List.find fst snd].
  destruct ws as [[bs be] [ls le] [ds de]].
  cbn [ws_breakfast ws_lunch ws_dinner win_start win_end] in *.
  destruct (str_lt ct bs) eqn:Eb; [|destruct (str_lt ct ls) eqn:El;
                                    [|destruct (str_lt ct ds) eqn:Ed]];
    cbn [isToday startsAt next_type window_of ws_breakfast ws_lunch ws_dinner
         win_start win_end];
    (split; [intros H; try discriminate H|intros H; try discriminate H]).
  - split; [exact Eb|]. split; [eexists; split; reflexivity|].
    intros m w Hw _. destruct m; try discriminate; inversion Hw; subst; cbn;
      [apply string_leb_refl|exact Hbl|exact Hbd].
  - split; [exact El|]. split; [eexists; split; reflexivity|].
    intros m w Hw Hlt. destruct m; try discriminate; inversion Hw; subst;
      cbn in *; [congruence|apply string_leb_refl|exact Hld].
  - split; [exact Ed|]. split; [eexists; split; reflexivity|].
    intros m w Hw Hlt. destruct m; try discriminate; inversion Hw; subst;
      cbn in *; [congruence|congruence|apply string_leb_refl].
  - split; [reflexivity|].
    intros m w Hw. destruct m; try discriminate; inversion Hw; subst; cbn;
      assumption.
Qed.

(** Default windows at 10:30: the next window starts after 10:30. *)
Lemma getNextMealWindow_witness :
  str_lt "10:30"
         (startsAt (getNextMealWindow
                      (mkWins (mkWin "06:00" "10:00") (mkWin "12:00" "15:00")
                              (mkWin "19:00" "22:00")) "10:30")) = true.
Proof.
  exact (proj1 (proj1 (getNextMealWindow_earliest
                         (mkWins (mkWin "06:00" "10:00") (mkWin "12:00" "15:00")
                                 (mkWin "19:00" "22:00")) "10:30"
                         eq_refl eq_refl) eq_refl)).
Defined.

End SettingsModelFacts.

(* ------------------------------------------------------------------ *)
(** ** Eligibility and deduction of a subscription document *)
(* ------------------------------------------------------------------ *)

Section SubscriptionMethodFacts.
Import Db SubscriptionMethods.
Local Open Scope list_scope.

Lemma findOne_split {A} (f : A -> bool) (l : list A) (x : A) :
  findOne f l = Some x ->
  exists l1 l2, l = l1 ++ x :: l2 /\ f x = true
                /\ forallb (fun z => negb (f z)) l1 = true.
Proof.
  unfold findOne. induction l as [|a l IH]; simpl; [discriminate|].
  destruct (f a) eqn:Fa.
  - intros H. inversion H; subst. exists [], l. auto.
  - intros H. destruct (IH H) as (l1 & l2 & -> & Hx & Hn).
    exists (a :: l1), l2. simpl. rewrite Fa. auto.
Qed.

Lemma forallb_weaken {A} (f g : A -> bool) (l : list A) :
  (forall z, g z = true -> f z = true) ->
  forallb (fun z => negb (f z)) l = true ->
  forallb (fun z => negb (g z)) l = true.
Proof.
  intros H. induction l as [|a l IH]; simpl; [auto|].
  intros Hf. apply andb_prop in Hf as [Ha Hl]. rewrite (IH Hl), andb_true_r.
  apply negb_true_iff in Ha. apply negb_true_iff.
  destruct (g a) eqn:G; [|reflexivity]. rewrite (H a G) in Ha. discriminate.
Qed.

(** A stored document without per-meal balances is loaded with the
    schema's defaults, all 0: it is valid for no meal. *)
Lemma isValidForMeal_needs_balances (stored : Subscription)
      (paymentStatus : string) (mealType : option MealType) (now : Date) :
  s_mealBalances stored = None ->
  isValidForMeal stored paymentStatus mealType now = false.
Proof.
  intros Eb. unfold isValidForMeal, hydrate. rewrite Eb. cbn.
  destruct mealType as [[| | | |]|]; cbn; rewrite ?andb_false_r; reflexivity.
Qed.

(** A stored document for which [isValidForMeal(mealType)] holds on
    loading can be deducted.  It carries per-meal balances and the
    balance of that meal is positive, so [deductMeal(mealType)] on the
    loaded document takes the per-meal branch and returns the updated
    document, whose balance for that meal is one lower, whose
    [mealsRemaining] is untouched, and which has taken the place of the
    document in the store. *)
Theorem isValidForMeal_then_deductMeal_succeeds
        (stored : Subscription) (paymentStatus : string)
        (mealType : option MealType) (now : Date) (db : DB) :
  lookup_subscription db (s_id stored) = Some stored ->
  isValidForMeal stored paymentStatus mealType now = true ->
  exists m b updated l1 l2,
    mealType = Some m
    /\ s_mealBalances stored = Some b
    /\ SubscriptionModel.deductMeal (hydrate stored) mealType now db
       = (Return (Some updated), set_subscriptions db (l1 ++ updated :: l2))
    /\ subscriptions db = l1 ++ stored :: l2
    /\ s_mealBalances updated = Some (inc_balance b m (-1))
    /\ s_mealsRemaining updated = s_mealsRemaining stored.
Proof.
  intros Hl Hv.
  destruct (s_mealBalances stored) as [b|] eqn:Eb;
    [|rewrite (isValidForMeal_needs_balances _ _ _ _ Eb) in Hv; discriminate].
  unfold lookup_subscription in Hl.
  destruct (findOne_split _ _ _ Hl) as (l1 & l2 & Hs & _ & Hpre).
  unfold isValidForMeal, hydrate in Hv. rewrite Eb in Hv. cbv zeta in Hv.
  rewrite Eb in Hv. cbn [present negb andb] in Hv.
  rewrite orb_false_r in Hv.
  repeat (apply andb_prop in Hv; destruct Hv as [Hv ?]).
  destruct mealType as [m|]; [|discriminate].
  unfold SubscriptionModel.deductMeal, hydrate. rewrite Eb. rewrite Eb.
  rewrite findOneAndUpdate_returns, Hs.
  rewrite (update_first_at _ _ l1 l2 stored).
  - exists m, b. eexists. exists l1, l2.
    split; [reflexivity|]. split; [reflexivity|].
    split; [reflexivity|]. split; [reflexivity|].
    cbn. rewrite Eb. split; reflexivity.
  - eapply forallb_weaken; [|exact Hpre]. intros z Hz.
    repeat (apply andb_prop in Hz; destruct Hz as [Hz ?]). exact Hz.
  - rewrite Nat.eqb_refl. unfold balance_gt0. rewrite Eb.
    match goal with H : _ = true |- _ => rewrite H end.
    rewrite Hv. reflexivity.
Qed.

(** A paid, active subscription with five lunches left, at noon. *)
Lemma isValidForMeal_deductMeal_witness :
  exists m b updated l1 l2,
    Some Lunch = Some m
    /\ s_mealBalances SampleSubscription.five_lunches = Some b
    /\ SubscriptionModel.deductMeal (hydrate SampleSubscription.five_lunches)
         (Some Lunch) Sample.noon SampleSubscription.db_lunches
       = (Return (Some updated),
          set_subscriptions SampleSubscription.db_lunches (l1 ++ updated :: l2))
    /\ subscriptions SampleSubscription.db_lunches
       = l1 ++ SampleSubscription.five_lunches :: l2
    /\ s_mealBalances updated = Some (inc_balance b m (-1))
    /\ s_mealsRemaining updated
       = s_mealsRemaining SampleSubscription.five_lunches.
Proof.
  apply (isValidForMeal_then_deductMeal_succeeds
           SampleSubscription.five_lunches "paid" (Some Lunch) Sample.noon
           SampleSubscription.db_lunches).
  - reflexivity.
  - vm_compute. reflexivity.
Defined.

End SubscriptionMethodFacts.

(* ------------------------------------------------------------------ *)
(** ** MealScanner: what a scan keeps *)
(* ------------------------------------------------------------------ *)

Section ScannerPreservation.
Import Db MealScanner StoreSpec ScannerSpec.
Local Open Scope list_scope.

Lemma preserves_join_ret {A} (I : DB -> Prop) (k : M A) :
  preserves I k -> preserves I (SE.join (SE.ret k)).
Proof. intros H db. exact (H db). Qed.

Lemma preserves_join_bind {A B} (I : DB -> Prop) (m : M A)
      (f : A -> M (M B)) :
  preserves I m -> (forall a, preserves I (SE.join (f a))) ->
  preserves I (SE.join (SE.bind m f)).
Proof.
  intros Hm Hf db H. specialize (Hm db H).
  destruct (m db) as [[a|e] db1] eqn:Em; cbn [snd] in Hm.
  - rewrite (join_bind_run _ _ _ _ _ Em). exact (Hf a db1 Hm).
  - unfold SE.join, SE.bind. rewrite Em. exact Hm.
Qed.

Lemma preserves_join_catch {A} (I : DB -> Prop) (m : M (M A))
      (h : Error -> M (M A)) :
  preserves I (SE.join m) -> (forall e, preserves I (SE.join (h e))) ->
  preserves I (SE.join (SE.catch m h)).
Proof.
  intros Hm Hh db H. specialize (Hm db H).
  unfold SE.join, SE.catch, SE.bind in *.
  destruct (m db) as [[k|e] db1]; cbn [snd] in Hm.
  - exact Hm.
  - exact (Hh e db1 Hm).
Qed.

Variable I : DB -> Prop.
Hypothesis HI : on_subscriptions I.
Hypothesis Hdeduct :
  forall (this : Subscription) (mt : option MealType) (now : Date),
    preserves I (SubscriptionModel.deductMeal this mt now).
Hypothesis Hdeactivate :
  forall (updated : Subscription) (now : Date),
    preserves I (Subscription_save (set_active updated false now)
                                   (fun s => set_active s false now)).

Lemma preserves_scanner_redeem (E : Env) (p : QRTokenService.Payload)
      (c : Customer) (s : Subscription) (mt : MealType) (user : option Id)
      (md : Metadata) (now : Date) :
  preserves I (SE.join (redeem E p c s mt user md now)).
Proof.
  unfold redeem. cbv zeta.
  apply preserves_join_bind; [apply Hdeduct|].
  intros [updated|];
    [|apply preserves_join_ret, createFailedTransaction_keeps, HI].
  apply preserves_join_bind.
  { destruct (s_mealsRemaining updated =? 0);
      [apply Hdeactivate|apply preserves_ret]. }
  intros _.
  apply preserves_join_bind; [apply preserves_MealTransaction_create, HI|].
  intros t.
  apply preserves_join_bind; [apply preserves_AuditLog_create, HI|].
  intros _. apply preserves_join_ret, preserves_ret.
Qed.

Lemma preserves_scanner_try (E : Env) (qrToken : string) (user : option Id)
      (md : Metadata) (now : Date) :
  preserves I (SE.join (processScan_try E qrToken user md now)).
Proof.
  pose proof (fun cid sid r dup =>
                preserves_join_ret I _
                  (createFailedTransaction_keeps I E cid sid user r md dup now
                     HI)) as Hdenied.
  unfold processScan_try.
  destruct (QRTokenService.verifyToken _ _ _ _) as [p|e]; [|apply Hdenied].
  apply preserves_join_bind; [apply preserves_lift|]. intros pcid.
  apply preserves_join_bind; [apply preserves_lift|]. intros pmid.
  apply preserves_join_bind; [apply preserves_get|]. intros db0.
  destruct (findOne _ (customers db0)) as [c|]; [|apply Hdenied].
  apply preserves_join_bind; [apply preserves_lift|]. intros cur.
  destruct (match cur with Some m => Some m | None => _ end) as [mt|];
    [|apply Hdenied].
  apply preserves_join_bind.
  { unfold checkDuplicateScan.
    apply preserves_bind; [apply preserves_get|].
    intros; apply preserves_ret. }
  intros [d|]; [apply Hdenied|].
  apply preserves_join_bind; [apply preserves_get|]. intros db1.
  destruct (findOne _ (transactions db1)), (adminOverride md);
    try apply Hdenied;
    (destruct (findOne _ (subscriptions db1)) as [sub|]; [|apply Hdenied];
     destruct (present (s_pausedAt sub)); [apply Hdenied|];
     destruct (s_mealsRemaining sub <=? 0); [apply Hdenied|];
     destruct (not_in_plan md sub mt);
     [apply Hdenied|apply preserves_scanner_redeem]).
Qed.

(** Whatever [processScan] does to the store, returning, answering a
    system error or rejecting, it does through the conditional update,
    the deactivating [save()] and writes that leave the subscriptions
    alone. *)
Lemma preserves_scanner_processScan_on (E : Env) (qrToken : string)
      (user : option Id) (md : Metadata) (now : Date) :
  preserves I (processScan E qrToken user md now).
Proof.
  unfold processScan. apply preserves_join_catch.
  - apply preserves_scanner_try.
  - intros e.
    apply preserves_join_bind; [apply preserves_AuditLog_create, HI|].
    intros _. apply preserves_join_ret, preserves_ret.
Qed.

Lemma preserves_synced (r : Result) (now : Date) :
  preserves I (match transaction r with
               | Some t => mark_synced t now
               | None => SE.ret tt
               end).
Proof.
  destruct (transaction r);
    [apply preserves_mark_synced, HI|apply preserves_ret].
Qed.

Lemma preserves_scanner_replay_on (E : Env) (user : option Id)
      (md : Metadata) (clock : nat -> Date) (scans : list Scan) :
  forall (k : nat) (acc : BatchResult),
    preserves I (replay E user md clock k scans acc).
Proof.
  induction scans as [|s scans IH]; intros k acc; cbn [replay].
  - apply preserves_ret.
  - apply preserves_bind; [apply preserves_scanner_processScan_on|].
    intros r. apply preserves_bind; [apply preserves_synced|].
    intros; apply IH.
Qed.

End ScannerPreservation.

Section PlanFacts.
Import Db MealScanner StoreSpec ScannerSpec.
Local Open Scope list_scope.






End PlanFacts.

(* ------------------------------------------------------------------ *)
(** ** MealScanner: what a success has done, and the batch counters *)
(* ------------------------------------------------------------------ *)

Section ScannerLedger.
Import Db MealScanner LedgerSpec.
Local Open Scope list_scope.

Lemma scanner_success_createFailed (E : Env) (cid sid user : option Id)
      (r : string) (md : Metadata) (dup : option Id) (now : Date) :
  scanner_success (createFailedTransaction E cid sid user r md dup now).
Proof.
  intros db res db' _ H Hs.
  destruct (createFailedTransaction_reason E cid sid user r md dup now db res)
    as [_ Hf]; [rewrite H; reflexivity|congruence].
Qed.

Lemma scanner_success_join_ret (k : M Result) :
  scanner_success k -> scanner_success (SE.join (SE.ret k)).
Proof. intros H db res db'. exact (H db res db'). Qed.

Lemma scanner_success_join_read {A} (m : M A) (k : A -> M (M Result)) :
  (forall db, snd (m db) = db) ->
  (forall a, scanner_success (SE.join (k a))) ->
  scanner_success (SE.join (SE.bind m k)).
Proof.
  intros Hr Hk db res db'. unfold SE.join, SE.bind.
  specialize (Hr db). destruct (m db) as [[a|e] db1]; simpl in Hr; subst db1.
  - exact (Hk a db res db').
  - discriminate.
Qed.

Lemma scanner_success_redeem (E : Env) (p : QRTokenService.Payload)
      (c : Customer) (s : Subscription) (mt : MealType) (user : option Id)
      (md : Metadata) (now : Date) :
  scanner_success (SE.join (redeem E p c s mt user md now)).
Proof.
  intros db res db' Hnd. unfold redeem, SE.join. cbv zeta.
  unfold SE.bind at 1.
  assert (Ed : SubscriptionModel.deductMeal s None now db
               = Subscription_findOneAndUpdate
                   (fun x => Nat.eqb (s_id x) (s_id s)
                             && (0 <? s_mealsRemaining x) && s_active x)
                   (fun x => set_mealsRemaining x (s_mealsRemaining x - 1) now)
                   db).
  { unfold SubscriptionModel.deductMeal. destruct (s_mealBalances s); reflexivity. }
  unfold SE.bind at 1. rewrite Ed, findOneAndUpdate_returns.
  match goal with
  | |- context [update_first ?f ?u ?l] =>
      destruct (fst (update_first f u l)) as [y|] eqn:E1;
      [destruct (update_first_some f u l y E1)
         as (l1 & x & l2 & Hl & Hf & Hy & _ & Hs); rewrite Hs; clear Hs E1|]
  end.
  2:{ unfold SE.ret. cbv beta iota. intros Hres Hs.
      destruct (createFailedTransaction_reason E (Some (c_id c))
                  (Some (s_id s)) user "no_meals_remaining" md None now
                  (set_subscriptions db
                     (snd (update_first
                             (fun x => Nat.eqb (s_id x) (s_id s)
                                       && (0 <? s_mealsRemaining x) && s_active x)
                             (fun x => set_mealsRemaining x
                                         (s_mealsRemaining x - 1) now)
                             (subscriptions db)))) res)
        as [_ Hf]; [rewrite Hres; reflexivity|congruence]. }
  unfold unique_ids in Hnd. rewrite Hl in Hnd.
  pose proof (unique_id_prefix _ _ _ Hnd) as Hpre.
  apply andb_prop in Hf as [Hf Hact]. apply andb_prop in Hf as [Hf Hpos].
  apply Nat.eqb_eq in Hf. apply Z.ltb_lt in Hpos.
  assert (Hlook : forall z : Subscription,
             s_id z = s_id x ->
             List.find (fun s0 => Nat.eqb (s_id s0) (s_id s)) (l1 ++ z :: l2)
             = Some z).
  { intros z Hz. rewrite <- Hf.
    apply (findOne_at (fun s0 => Nat.eqb (s_id s0) (s_id x)) l1 l2 z Hpre).
    rewrite Hz. apply Nat.eqb_refl. }
  unfold SE.bind, SE.ret.
  destruct (s_mealsRemaining y =? 0) eqn:Ez.
  - unfold Subscription_save.
    destruct (negb (subscription_valid _)); [discriminate|].
    cbn [set_subscriptions subscriptions].
    subst y.
    rewrite (update_first_at (fun z => Nat.eqb (s_id z)
               (s_id (set_active (set_mealsRemaining x (s_mealsRemaining x - 1) now)
                                 false now))) _ l1 l2 _);
      [|exact Hpre|cbn; apply Nat.eqb_refl].
    unfold MealTransaction_create.
    destruct (negb (tx_valid _)); [discriminate|].
    destruct (idx E && _); [discriminate|].
    unfold AuditLog_create. cbn [a_messId present].
    cbn. intros Hres _. inversion Hres; subst; clear Hres. cbn.
    eexists; split; [reflexivity|]. split; [|split; [reflexivity|]].
    + exists l1, x, (set_active (set_mealsRemaining x (s_mealsRemaining x - 1) now)
                               false now), l2.
      cbn. apply Z.eqb_eq in Ez. cbn in Ez.
      repeat split; auto; try lia.
    + intros _. eexists; eexists. split; [reflexivity|]. split.
      * apply Hlook. reflexivity.
      * reflexivity.
  - subst y. unfold MealTransaction_create.
    destruct (negb (tx_valid _)); [discriminate|].
    destruct (idx E && _); [discriminate|].
    unfold AuditLog_create. cbn [a_messId present].
    cbn. intros Hres _. inversion Hres; subst; clear Hres. cbn.
    eexists; split; [reflexivity|]. split; [|split; [reflexivity|]].
    + exists l1, x, (set_mealsRemaining x (s_mealsRemaining x - 1) now), l2.
      cbn. repeat split; auto; try lia.
    + intros H0. apply Z.eqb_neq in Ez. cbn in Ez. inversion H0. lia.
Qed.

Lemma scanner_success_try (E : Env) (qrToken : string) (user : option Id)
      (md : Metadata) (now : Date) :
  scanner_success (SE.join (processScan_try E qrToken user md now)).
Proof.
  pose proof (fun cid sid r dup =>
                scanner_success_join_ret _
                  (scanner_success_createFailed E cid sid user r md dup now))
    as Hdenied.
  unfold processScan_try.
  destruct (QRTokenService.verifyToken _ _ qrToken now) as [p|e];
    [|apply Hdenied].
  apply scanner_success_join_read; [reflexivity|]. intros pcid.
  apply scanner_success_join_read; [reflexivity|]. intros pmid.
  apply scanner_success_join_read; [reflexivity|]. intros db0.
  destruct (findOne _ (customers db0)) as [cust|]; [|apply Hdenied].
  apply scanner_success_join_read; [reflexivity|]. intros cur.
  destruct (match cur with Some m => Some m | None => _ end) as [mt|];
    [|apply Hdenied].
  apply scanner_success_join_read; [reflexivity|]. intros d.
  destruct d; [apply Hdenied|].
  apply scanner_success_join_read; [reflexivity|]. intros db1.
  destruct (findOne _ (transactions db1)), (adminOverride md);
    try apply Hdenied;
    (destruct (findOne _ (subscriptions db1)) as [sub|]; [|apply Hdenied];
     destruct (present (s_pausedAt sub)); [apply Hdenied|];
     destruct (s_mealsRemaining sub <=? 0); [apply Hdenied|];
     destruct (not_in_plan md sub mt);
     [apply Hdenied|apply scanner_success_redeem]).
Qed.

(** A scan that [MealScanner.processScan] reports as a success has
    deducted exactly one meal: on a store with unique [_id]s, exactly
    one stored subscription, active and with a positive balance, has
    its [mealsRemaining] lowered by one, exactly one transaction, the
    success record returned with the result, was appended, carrying the
    new balance, and no customer changed; when the new balance is 0 the
    subscription is stored inactive. *)
Theorem mealScanner_success_deducts_one_meal
        (E : Env) (qrToken : string) (user : option Id) (md : Metadata)
        (now : Date) (db db' : DB) (res : Result) :
  unique_ids db ->
  processScan E qrToken user md now db = (Return res, db') ->
  success res = true ->
  exists t,
    transaction res = Some t
    /\ one_meal_deducted db db' t
    /\ mealsRemaining res = t_mealsRemainingAfter t
    /\ (t_mealsRemainingAfter t = Some 0 ->
        exists sid stored,
          t_subscriptionId t = Some sid
          /\ lookup_subscription db' sid = Some stored
          /\ s_active stored = false).
Proof.
  intros Hnd Hrun Hs.
  destruct (processScan_try E qrToken user md now db) as [[k|e] db1] eqn:Et.
  - destruct (processScan_run_value _ _ _ _ _ _ _ _ Et) as [Hp Hj].
    rewrite Hp, <- Hj in Hrun.
    exact (scanner_success_try E qrToken user md now db res db' Hnd Hrun Hs).
  - rewrite (processScan_run_caught _ _ _ _ _ _ _ _ Et) in Hrun.
    unfold SE.bind, SE.ret in Hrun.
    destruct (AuditLog_create _ db1) as [[u|e'] db2]; [|discriminate].
    inversion Hrun; subst. discriminate.
Qed.

(** Alice's lunch at 13:00 with five meals left. *)
Lemma mealScanner_success_witness :
  exists t,
    one_meal_deducted (SampleScanner.db_planned 5)
      (snd (processScan (SampleScanner.env true) SampleScanner.alice_token
              SampleScanner.staff SampleScanner.md_tenant
              (SampleScanner.at_hour 13) (SampleScanner.db_planned 5))) t.
Proof.
  destruct (processScan (SampleScanner.env true) SampleScanner.alice_token
              SampleScanner.staff SampleScanner.md_tenant
              (SampleScanner.at_hour 13) (SampleScanner.db_planned 5))
    as [[res|e] db'] eqn:Erun; [|vm_compute in Erun; discriminate].
  assert (Hs : success res = true).
  { vm_compute in Erun. inversion Erun. reflexivity. }
  assert (Hnd : unique_ids (SampleScanner.db_planned 5)).
  { unfold unique_ids. cbn. constructor; [intros []|constructor]. }
  destruct (mealScanner_success_deducts_one_meal _ _ _ _ _ _ _ _ Hnd Erun Hs)
    as (t & _ & Hd & _).
  exists t. exact Hd.
Defined.











End ScannerLedger.

(* ------------------------------------------------------------------ *)
(** ** ScanService: all or nothing *)
(* ------------------------------------------------------------------ *)

Section ScanServiceLedger.
Import Db LedgerSpec.
Local Open Scope list_scope.

Lemma scanService_try_returns (P : Platform) (secret : option string)
      (idx : bool) (qrToken : string) (user : option Id)
      (md : ScanService.Metadata) (now : Date) (db db' : DB)
      (res : ScanService.Result) :
  ScanService.processScan_try P secret idx qrToken user md now db
  = (Return res, db') ->
  one_meal_deducted db db' (ScanService.transaction res)
  /\ ScanService.mealsRemaining res
     = match t_mealsRemainingAfter (ScanService.transaction res) with
       | Some v => v
       | None => 0
       end
  /\ t_mealType (ScanService.transaction res)
     = ScanService.getCurrentMealType now
  /\ ScanService.mealType res = ScanService.getCurrentMealType now
  /\ ScanService.getCurrentMealType now <> Snack.
Proof.
  intros H.
  unfold ScanService.processScan_try, SE.bind, SE.lift, SE.get, SE.ret,
    SE.throw in H.
  destruct (QRTokenService.verifyToken P secret qrToken now) as [p|e];
    [|discriminate].
  destruct (ScanService.messId md) as [mid|]; [|discriminate].
  destruct (negb _); [discriminate|].
  destruct (negb _); [discriminate|].
  destruct (MealScanner.id_of_js _) as [cid|e]; [|discriminate].
  destruct (findOne _ (customers db)) as [cust|]; [|discriminate].
  destruct (negb (c_active cust)); [discriminate|].
  destruct (findOne (ScanService.today_filter _ _ _) _);
    destruct (ScanService.adminOverride md); try discriminate.
  all: destruct (findOne _ (subscriptions db)) as [sub|]; [|discriminate].
  all: rewrite findOneAndUpdate_returns in H; cbn [fst snd] in H.
  all: match type of H with
       | context [update_first ?f ?u ?l] =>
           destruct (fst (update_first f u l)) as [y|] eqn:E1;
           [destruct (update_first_some f u l y E1)
              as (l1 & x & l2 & Hl & Hf & Hy & _ & Hs); rewrite Hs in H;
            clear Hs E1|discriminate]
       end.
  all: apply andb_prop in Hf as [Hf Hact]; apply andb_prop in Hf as [Hf Hpos];
    apply Nat.eqb_eq in Hf; apply Z.ltb_lt in Hpos;
    unfold MealTransaction_create in H;
    (destruct (negb (tx_valid _)) eqn:V; [discriminate|]);
    (destruct (idx && _); [discriminate|]);
    cbn in H; inversion H; subst; clear H; cbn;
    (split; [|repeat split; auto;
              intros Hsn; unfold tx_valid in V; cbn [t_mealType] in V;
              rewrite Hsn in V; rewrite !andb_false_r in V;
              cbn in V; rewrite ?andb_false_r in V; discriminate]);
    exists l1, x, (set_mealsRemaining x (s_mealsRemaining x - 1) now), l2;
    cbn; repeat split; auto; try lia; congruence.
Qed.

(** [ScanService.processScan] is all or nothing.  When it returns,
    exactly one stored subscription, active and with a positive
    balance, has lost exactly one meal, exactly one success transaction
    was appended (the one returned, carrying the new balance and the
    meal type of the hour), and no customer changed.  When it throws,
    for whatever reason and at whatever step, the store is as it was
    before the call. *)
Theorem scanService_all_or_nothing :
  forall (P : Platform) (secret : option string) (idx : bool)
         (qrToken : string) (user : option Id) (md : ScanService.Metadata)
         (now : Date) (db : DB),
    match ScanService.processScan P secret idx qrToken user md now db with
    | (Return res, db') =>
        one_meal_deducted db db' (ScanService.transaction res)
        /\ t_mealsRemainingAfter (ScanService.transaction res)
           = Some (ScanService.mealsRemaining res)
        /\ t_mealType (ScanService.transaction res)
           = ScanService.getCurrentMealType now
    | (Throw _, db') => db' = db
    end.
Proof.
  intros. unfold ScanService.processScan.
  destruct (ScanService.processScan_try P secret idx qrToken user md now db)
    as [[res|e] db'] eqn:E; [|reflexivity].
  destruct (scanService_try_returns _ _ _ _ _ _ _ _ _ _ E)
    as (Hd & Hm & Ht & _).
  split; [exact Hd|]. split; [|exact Ht].
  destruct Hd as (l1 & old & new & l2 & _ & _ & _ & _ & _ & _ & _ & _ & _ & _
                  & _ & Ha & _).
  rewrite Ha in Hm. rewrite Ha, Hm. reflexivity.
Qed.

(** Before 06:00 and from 22:00 on [ScanService.processScan] never
    succeeds: the meal type of these hours is [snack], which the
    transaction schema does not list, so a scan that passes every check
    is rejected when its record is created; the call throws and the
    store is unchanged. *)
Theorem scanService_closed_outside_6_to_22
        (P : Platform) (secret : option string) (idx : bool)
        (qrToken : string) (user : option Id) (md : ScanService.Metadata)
        (now : Date) (db : DB) :
  getHours now < 6 \/ 22 <= getHours now ->
  exists e,
    ScanService.processScan P secret idx qrToken user md now db = (Throw e, db).
Proof.
  intros Hh. unfold ScanService.processScan.
  destruct (ScanService.processScan_try P secret idx qrToken user md now db)
    as [[res|e] db'] eqn:E; [|eauto].
  destruct (scanService_try_returns _ _ _ _ _ _ _ _ _ _ E)
    as (_ & _ & _ & _ & Hn).
  exfalso. apply Hn. unfold ScanService.getCurrentMealType.
  destruct Hh as [Hh|Hh].
  - replace (6 <=? getHours now) with false by (symmetry; apply Z.leb_gt; lia).
    cbn [andb].
    replace (11 <=? getHours now) with false by (symmetry; apply Z.leb_gt; lia).
    replace (16 <=? getHours now) with false by (symmetry; apply Z.leb_gt; lia).
    reflexivity.
  - replace (getHours now <? 11) with false by (symmetry; apply Z.ltb_ge; lia).
    replace (getHours now <? 16) with false by (symmetry; apply Z.ltb_ge; lia).
    replace (getHours now <? 22) with false by (symmetry; apply Z.ltb_ge; lia).
    rewrite !andb_false_r. reflexivity.
Qed.

(** Alice's card, every check passing, scanned at 23:00. *)
Lemma scanService_closed_witness :
  exists e,
    ScanService.processScan
      (Reference.platform
         [(SampleScanner.alice_token, SampleScanner.alice_payload)])
      (Some "jwt-secret") true SampleScanner.alice_token SampleScanner.staff
      (ScanService.mkMetadata (Some 7%nat) "staff" false)
      (SampleScanner.at_hour 23) (SampleScanner.db_planned 5)
    = (Throw e, SampleScanner.db_planned 5).
Proof.
  apply (scanService_closed_outside_6_to_22
           (Reference.platform
              [(SampleScanner.alice_token, SampleScanner.alice_payload)])
           (Some "jwt-secret") true SampleScanner.alice_token
           SampleScanner.staff
           (ScanService.mkMetadata (Some 7%nat) "staff" false)
           (SampleScanner.at_hour 23) (SampleScanner.db_planned 5)).
  right. vm_compute. discriminate.
Defined.

End ScanServiceLedger.


(* ================================================================== *)
(** ** The batch route never records a redemption *)
(* ================================================================== *)

Section BatchRouteLedger.
Import Db.
Local Open Scope list_scope.

Ltac route_leaf H :=
  solve [cbn in H; inversion H; subst; cbn; repeat split;
         try (let G := fresh "G" in
              intros ? G;
              first [discriminate G | injection G as <-; reflexivity])].

Lemma route_try_outcome (P : Platform) (idx : bool)
      (scan : ScanBatch.ScanRequest) (st : Settings) (secret : string)
      (user : option Id) (now : Date) (db : DB)
      (res : Exc ScanBatch.Result) (db' : DB) :
  ScanBatch.processSingleScan_try P idx scan st secret user now db
  = (res, db') ->
  transactions db' = transactions db
  /\ customers db' = customers db
  /\ forall r, res = Return r -> ScanBatch.success r = false.
Proof.
  unfold ScanBatch.processSingleScan_try. intros H.
  destruct (ScanBatch.qrToken scan) as [[|c token]|]; try route_leaf H.
  destruct (Qr.verify P (String c token) secret) as [[payload|msg]|e];
    try route_leaf H.
  unfold SE.bind at 1 in H. unfold SE.lift at 1 in H.
  destruct (get_field payload "qrCodeId") as [qr|e]; [|route_leaf H].
  destruct (negb (truthy qr)); [route_leaf H|].
  unfold SE.bind at 1 in H. unfold SE.get at 1 in H.
  destruct (findOne (ScanBatch.customer_filter qr) (customers db)) as [cu|];
    [|route_leaf H].
  destruct (findOne_desc _ _ (subscriptions db)) as [sub|]; [|route_leaf H].
  destruct (MealTypeHelper.determineMealType st now) as [mt|];
    [|route_leaf H].
  destruct (findOne_desc _ _ (transactions db)) as [t|]; [route_leaf H|].
  unfold SE.bind at 1 in H. rewrite findOneAndUpdate_returns in H.
  destruct (fst (update_first _ _ (subscriptions db))) as [updated|];
    [|route_leaf H].
  unfold SE.bind, MealTransaction_create, tx_valid in H. route_leaf H.
Qed.

Lemma route_single_outcome (P : Platform) (idx : bool)
      (scan : ScanBatch.ScanRequest) (st : Settings) (secret : string)
      (user : option Id) (now : Date) (db : DB) :
  exists r db',
    ScanBatch.processSingleScan P idx (Some scan) st secret user now db
    = (Return r, db')
    /\ ScanBatch.success r = false
    /\ transactions db' = transactions db
    /\ customers db' = customers db.
Proof.
  unfold ScanBatch.processSingleScan, SE.catch.
  destruct (ScanBatch.processSingleScan_try P idx scan st secret user now db)
    as [[r|e] db'] eqn:H;
    destruct (route_try_outcome _ _ _ _ _ _ _ _ _ _ H) as (Ht & Hc & Hr);
    unfold SE.ret; eauto 8.
Qed.

Lemma route_replay_outcome (P : Platform) (idx : bool) (st : Settings)
      (secret : string) (user : option Id) (clock : nat -> Date)
      (scans : list ScanBatch.Element) :
  existsb ScanBatch.nullish scans = false ->
  forall (k : nat) (db : DB),
  exists rs db',
    ScanBatch.replay P idx st secret user clock k scans db = (Return rs, db')
    /\ List.length rs = List.length scans
    /\ Forall (fun r => ScanBatch.success r = false) rs
    /\ transactions db' = transactions db
    /\ customers db' = customers db.
Proof.
  induction scans as [|s scans IH]; intros Hn k db;
    cbn [ScanBatch.replay List.length].
  - unfold SE.ret. exists [], db. repeat split; constructor.
  - cbn [existsb] in Hn. apply orb_false_elim in Hn as [Hs Hn].
    destruct s as [request|]; [|discriminate Hs].
    destruct (route_single_outcome P idx request st secret user (clock k) db)
      as (r & db1 & Hr & Hs' & Ht1 & Hc1).
    rewrite (bind_run _ _ _ _ _ Hr).
    destruct (IH Hn (S k) db1) as (rs & db2 & Hrs & Hlen & Hall & Ht2 & Hc2).
    rewrite (bind_run _ _ _ _ _ Hrs). unfold SE.ret.
    exists (r :: rs), db2. repeat split.
    + simpl. congruence.
    + constructor; assumption.
    + congruence.
    + congruence.
Qed.

Lemma count_none (f : ScanBatch.Result -> bool) (rs : list ScanBatch.Result) :
  Forall (fun r => f r = false) rs -> ScanBatch.count f rs = 0%nat.
Proof.
  unfold ScanBatch.count. induction 1 as [|r rs Hr _ IH]; simpl;
    [reflexivity|]. rewrite Hr. exact IH.
Qed.

Lemma count_all (f : ScanBatch.Result -> bool) (rs : list ScanBatch.Result) :
  Forall (fun r => f r = true) rs -> ScanBatch.count f rs = List.length rs.
Proof.
  unfold ScanBatch.count. induction 1 as [|r rs Hr _ IH]; simpl;
    [reflexivity|]. rewrite Hr. simpl. f_equal. exact IH.
Qed.

Lemma count_le (f : ScanBatch.Result -> bool) (rs : list ScanBatch.Result) :
  (ScanBatch.count f rs <= List.length rs)%nat.
Proof. unfold ScanBatch.count. apply filter_length_le. Qed.

(** The handler of [POST /scan/batch], for a body whose [scans], when
    an array, holds [null]s and objects with a string [qrToken], a
    numeric [clientTimestamp] and a string [clientId] where they carry
    them.  It answers in exactly five ways, and never records a
    redemption.  A body whose [scans] is not an array, an empty array
    and a missing secret are refused, in that order, with
    [INVALID_SCANS_ARRAY], [EMPTY_SCANS_ARRAY] and [SERVER_ERROR]; an
    array that holds a [null] is then refused with [BATCH_SCAN_ERROR],
    no scan of it replayed; in all four cases the store is untouched.
    Every other request is answered with one result per scan, none of
    them a success: [successCount] is 0 and [failedCount] is the number
    of scans, and neither a transaction nor a customer is written,
    whatever the tokens, the settings and the store.  The [TypeError]
    of reading a property of [null] is not an [ApiError]. *)
Theorem batch_route_never_records_a_redemption
        (P : Platform) (idx : bool) (is_ApiError : Error -> bool)
        (body_scans : option (list ScanBatch.Element))
        (QR_HMAC_SECRET JWT_SECRET : option string)
        (st : Settings) (user : option Id) (clock : nat -> Date) (db : DB) :
  is_ApiError ScanBatch.type_error = false ->
  match ScanBatchHandler.handler P idx is_ApiError body_scans
          QR_HMAC_SECRET JWT_SECRET st user clock db with
  | (Throw e, db') =>
      db' = db /\
      code e = match body_scans with
               | None => "INVALID_SCANS_ARRAY"
               | Some [] => "EMPTY_SCANS_ARRAY"
               | Some (_ :: _) =>
                   if truthy_str (or_str QR_HMAC_SECRET JWT_SECRET)
                   then "BATCH_SCAN_ERROR"
                   else "SERVER_ERROR"
               end /\
      (forall scan scans, body_scans = Some (scan :: scans) ->
         truthy_str (or_str QR_HMAC_SECRET JWT_SECRET) = true ->
         existsb ScanBatch.nullish (scan :: scans) = true)
  | (Return resp, db') =>
      exists scans,
        body_scans = Some scans /\ scans <> [] /\
        existsb ScanBatch.nullish scans = false /\
        truthy_str (or_str QR_HMAC_SECRET JWT_SECRET) = true /\
        ScanBatch.totalScans resp = List.length scans /\
        List.length (ScanBatch.results resp) = List.length scans /\
        ScanBatch.successCount resp = 0%nat /\
        ScanBatch.failedCount resp = List.length scans /\
        (ScanBatch.blockedCount resp <= List.length scans)%nat /\
        transactions db' = transactions db /\
        customers db' = customers db
  end.
Proof.
  intros Hte. unfold ScanBatchHandler.handler.
  destruct body_scans as [[|scan scans]|]; cbn [List.length Nat.eqb].
  - cbn. repeat split. intros ? ? [=].
  - destruct (or_str QR_HMAC_SECRET JWT_SECRET) as [secret|] eqn:Hs.
    + destruct (truthy_str (Some secret)) eqn:Ht; cbn [negb].
      * destruct (existsb ScanBatch.nullish (scan :: scans)) eqn:Hn.
        { unfold SE.catch.
          rewrite (batch_null_element P idx st secret user clock
                     (scan :: scans) db Hn).
          rewrite Hte. cbn. repeat split.
          intros s0 ss0 Heq _. inversion Heq; subst. exact Hn. }
        unfold SE.catch, ScanBatch.batch.
        rewrite (sortScans_objects _ Hn). unfold SE.lift.
        unfold SE.bind at 1.
        destruct (route_replay_outcome P idx st secret user clock
                    (MealScanner.js_sort
                       (fun a b => ScanBatch.sort_key a - ScanBatch.sort_key b)
                       (scan :: scans)) (js_sort_objects _ Hn) 0%nat db)
          as (rs & db' & Hr & Hlen & Hall & Htx & Hcu).
        rewrite (bind_run _ _ _ _ _ Hr). unfold SE.ret.
        change (fun a b => ScanBatch.sort_key a - ScanBatch.sort_key b)
          with (by_key ScanBatch.sort_key) in Hlen.
        rewrite js_sort_length in Hlen.
        exists (scan :: scans). cbn [ScanBatch.totalScans ScanBatch.results
          ScanBatch.successCount ScanBatch.failedCount ScanBatch.blockedCount].
        repeat split; try assumption.
        -- discriminate.
        -- apply count_none. eapply Forall_impl; [|exact Hall].
           intros r Hr'. cbn beta in *. rewrite Hr'. reflexivity.
        -- rewrite count_all; [assumption|].
           eapply Forall_impl; [|exact Hall].
           intros r Hr'. cbn beta in *. rewrite Hr'. reflexivity.
        -- rewrite <- Hlen. apply count_le.
      * cbn. repeat split. intros ? ? _ [=].
    + cbn. repeat split. intros ? ? _ [=].
  - cbn. repeat split. intros ? ? [=].
Qed.

(** A valid scan submitted next to a [null], with one meal left: the
    request is refused with [BATCH_SCAN_ERROR] and the store is as it
    was. *)
Lemma batch_route_witness :
  match ScanBatchHandler.handler ref_platform true (fun _ => false)
          (Some [SampleBatch.scan_at SampleBatch.t1230 "a"; None])
          (Some SampleBatch.secret) None SampleBatch.defaults (Some 50%nat)
          (fun _ => SampleBatch.t1230) (Sample.db_with 1) with
  | (Throw e, db') => db' = Sample.db_with 1 /\ code e = "BATCH_SCAN_ERROR"
  | (Return _, _) => False
  end.
Proof.
  pose proof (batch_route_never_records_a_redemption ref_platform true
                (fun _ => false)
                (Some [SampleBatch.scan_at SampleBatch.t1230 "a"; None])
                (Some SampleBatch.secret) None SampleBatch.defaults
                (Some 50%nat) (fun _ => SampleBatch.t1230) (Sample.db_with 1)
                eq_refl) as H.
  destruct (ScanBatchHandler.handler _ _ _ _ _ _ _ _ _ _) as [[resp|e] db'].
  - destruct H as (scans' & Hb & _ & Hn & _).
    inversion Hb; subst scans'. discriminate Hn.
  - destruct H as (Hd & Hc & _). split; [exact Hd|exact Hc].
Defined.

End BatchRouteLedger.


(* ================================================================== *)
(** ** services/scanCore.js : what a call can end in *)
(* ================================================================== *)

Section ScanCoreOutcome.
Import Db.
Local Open Scope list_scope.

Lemma create_without_messId (idx : bool) (t : Tx) (db : DB) :
  t_messId t = None ->
  MealTransaction_create idx t db
  = (Throw (validation_error "MealTransaction"), db).
Proof.
  intros H. unfold MealTransaction_create, tx_valid. rewrite H. reflexivity.
Qed.

Lemma scanCore_checks_outcome (idx : bool) (st : Settings)
      (a : ScanCore.Args) (now : Date) (db : DB)
      (res : Exc ScanCore.Checked) (db' : DB) :
  ScanCore.processScan_checks idx st a now db = (res, db') ->
  db' = db /\
  match res with
  | Return (ScanCore.Done r) =>
      (findOne (fun c => Nat.eqb (c_id c) (ScanCore.customerId a))
               (customers db) = None
       /\ r = ScanCore.Failure "INVALID" "Customer not found")
      \/ (exists c,
            findOne (fun c => Nat.eqb (c_id c) (ScanCore.customerId a))
                    (customers db) = Some c
            /\ c_active c = false
            /\ r = ScanCore.Failure "INVALID" "Customer inactive")
  | Return (ScanCore.Proceed c s mt) =>
      findOne (fun c => Nat.eqb (c_id c) (ScanCore.customerId a))
              (customers db) = Some c
      /\ c_active c = true
  | Throw e =>
      code e = "ValidationError" /\
      exists c,
        findOne (fun c => Nat.eqb (c_id c) (ScanCore.customerId a))
                (customers db) = Some c
        /\ c_active c = true
  end.
Proof.
  unfold ScanCore.processScan_checks. intros H.
  unfold SE.bind at 1 in H. unfold SE.get at 1 in H.
  destruct (findOne _ (customers db)) as [c|] eqn:Hc.
  - destruct (c_active c) eqn:Ha; cbn [negb] in H.
    + destruct (findOne_desc _ _ (subscriptions db)) as [sub|].
      * destruct (match ScanCore.mealType a with
                  | Some m => Some m
                  | None => MealTypeHelper.determineMealType st now
                  end) as [mt|].
        -- unfold SE.bind at 1 in H. unfold SE.get at 1 in H.
           destruct (findOne _ (transactions db)) as [dup|].
           ++ unfold SE.bind in H.
              rewrite create_without_messId in H by reflexivity.
              inversion H; subst. cbn. eauto 6.
           ++ destruct (s_mealsRemaining sub <=? 0).
              ** unfold SE.bind in H.
                 rewrite create_without_messId in H by reflexivity.
                 inversion H; subst. cbn. eauto 6.
              ** inversion H; subst. cbn. eauto.
        -- unfold SE.bind in H.
           rewrite create_without_messId in H by reflexivity.
           inversion H; subst. cbn. eauto 6.
      * unfold SE.bind in H.
        rewrite create_without_messId in H by reflexivity.
        inversion H; subst. cbn. eauto 6.
    + inversion H; subst. split; [reflexivity|]. right. eauto.
  - inversion H; subst. split; [reflexivity|]. left. eauto.
Qed.

Lemma scanCore_deduct_outcome (idx : bool) (a : ScanCore.Args)
      (c : Customer) (s : Subscription) (mt : MealType) (now : Date)
      (db : DB) (res : Exc ScanCore.Result) (db' : DB) :
  ScanCore.processScan_deduct idx a c s mt now db = (res, db') ->
  (exists e, res = Throw e /\ code e = "ValidationError")
  /\ transactions db' = transactions db
  /\ customers db' = customers db.
Proof.
  unfold ScanCore.processScan_deduct. intros H.
  unfold SE.bind at 1 in H.
  destruct (Subscription_save _ _ db) as [[[]|e] db1] eqn:Hsave.
  - unfold SE.bind at 1 in H.
    rewrite create_without_messId in H by reflexivity.
    inversion H; subst.
    unfold Subscription_save in Hsave.
    destruct (negb (subscription_valid _)); [discriminate|].
    destruct (update_first _ _ (subscriptions db)) as [r ss].
    inversion Hsave; subst. cbn. eauto.
  - inversion H; subst.
    unfold Subscription_save in Hsave.
    destruct (negb (subscription_valid _)).
    + inversion Hsave; subst. cbn. eauto.
    + destruct (update_first _ _ (subscriptions db)); discriminate.
Qed.

(** The scan-core service never reports a redemption and never writes a
    transaction: a call either returns the [INVALID] result for a
    missing or inactive customer, with the store untouched, or, for an
    active customer, throws a validation error (every transaction
    document it builds lacks the required [messId]), with the
    transactions and the customers as they were. *)
Theorem scanCore_service_never_records (idx : bool) (st : Settings)
        (a : ScanCore.Args) (now : Date) (db : DB) :
  match ScanCore.processScan idx st a now db with
  | (Return r, db') =>
      db' = db /\
      ((findOne (fun c => Nat.eqb (c_id c) (ScanCore.customerId a))
                (customers db) = None
        /\ r = ScanCore.Failure "INVALID" "Customer not found")
       \/ (exists c,
             findOne (fun c => Nat.eqb (c_id c) (ScanCore.customerId a))
                     (customers db) = Some c
             /\ c_active c = false
             /\ r = ScanCore.Failure "INVALID" "Customer inactive"))
  | (Throw e, db') =>
      code e = "ValidationError" /\
      transactions db' = transactions db /\
      customers db' = customers db /\
      exists c,
        findOne (fun c => Nat.eqb (c_id c) (ScanCore.customerId a))
                (customers db) = Some c
        /\ c_active c = true
  end.
Proof.
  unfold ScanCore.processScan, SE.bind.
  destruct (ScanCore.processScan_checks idx st a now db)
    as [[[r|c s mt]|e] db1] eqn:Hchecks;
    destruct (scanCore_checks_outcome _ _ _ _ _ _ _ Hchecks) as [-> Hres].
  - cbn. split; [reflexivity|exact Hres].
  - destruct (ScanCore.processScan_deduct idx a c s mt now db)
      as [res db'] eqn:Hd.
    destruct (scanCore_deduct_outcome _ _ _ _ _ _ _ _ _ Hd)
      as ((e & -> & He) & Ht & Hc).
    repeat split; try assumption. exists c. exact Hres.
  - destruct Hres as [He Hc]. repeat split; assumption.
Qed.

End ScanCoreOutcome.


(* ================================================================== *)
(** ** The idempotent service redeems at most once per call *)
(* ================================================================== *)

Section IdempotentLedger.
Import Db IdempotentScanService IdempotentSpec.
Local Open Scope list_scope.

Lemma findOne_desc_some {A} (key : A -> Z) (f : A -> bool) (l : list A)
      (y : A) :
  findOne_desc key f l = Some y -> In y l /\ f y = true.
Proof.
  induction l as [|x l IH]; simpl; [discriminate|].
  destruct (f x) eqn:Fx.
  - destruct (findOne_desc key f l) as [z|].
    + destruct (key x <? key z); intros H; inversion H; subst.
      * destruct (IH eq_refl) as [Hin Hf]. auto.
      * auto.
    + intros H; inversion H; subst. auto.
  - intros H. destruct (IH H) as [Hin Hf]. auto.
Qed.

Lemma existing_is_recorded (cid : Id) (mt : MealType) (ws we : Date)
      (t : Tx) (txs : list Tx) :
  findOne_desc t_timestamp (existing_filter cid mt ws we) txs = Some t ->
  recorded cid mt t txs.
Proof.
  intros H. apply findOne_desc_some in H as [Hin Hf].
  unfold existing_filter in Hf.
  repeat (apply andb_prop in Hf as [Hf ?]).
  split; [exact Hin|]. repeat split.
  - destruct (t_status t); try discriminate; reflexivity.
  - unfold opt_id_eqb in Hf. destruct (t_customerId t) as [a|];
      [|discriminate]. apply Nat.eqb_eq in Hf. congruence.
  - destruct (t_mealType t), mt; try discriminate; reflexivity.
Qed.

Lemma boundaries_throw (mt : MealType) (now : Date) (e : Error) :
  getMealWindowBoundaries mt now = Throw e -> code e = "Error".
Proof.
  unfold getMealWindowBoundaries.
  destruct mt; intros H; inversion H; reflexivity.
Qed.

Lemma idempotent_deduct_outcome (idx : bool) (cid : Id) (mt : MealType)
      (sub : Subscription) (md : Metadata) (ws we now : Date) (db : DB)
      (out : Exc Result) (db' : DB) :
  findOne_desc t_timestamp (existing_filter cid mt ws we) (transactions db)
  = None ->
  processScanIdempotent_deduct idx cid mt sub md ws we now db = (out, db') ->
  match out with
  | Return r =>
      idempotent r = false
      /\ recorded cid mt (transaction r) (transactions db')
      /\ (NoDup (map s_id (subscriptions db)) ->
          redeemed_once sub db db' (transaction r))
  | Throw e =>
      customers db' = customers db /\
      (code e = "NO_MEALS_REMAINING" -> db' = db /\ balance_exhausted sub db)
  end.
Proof.
  intros Hnone.
  unfold processScanIdempotent_deduct, deductMealAtomic.
  unfold SE.bind at 1. rewrite findOneAndUpdate_returns.
  match goal with
  | |- context [update_first ?f ?u ?l] =>
      pose proof (update_first_existsb f u l) as Hex;
      destruct (fst (update_first f u l)) as [y|] eqn:E;
      [destruct (update_first_some f u l y E)
         as (l1 & x & l2 & Hl & Hf & Hy & _ & Hs); rewrite Hs; clear Hs
      |rewrite (update_first_none f u l E), set_subscriptions_same]
  end.
  2:{ unfold findExistingScan, SE.bind, SE.get, SE.ret, SE.throw.
      rewrite Hnone. intros H; inversion H; subst. cbn.
      split; [reflexivity|]. intros _. split; [reflexivity|].
      unfold balance_exhausted. rewrite <- Hex. reflexivity. }
  clear Hex E.
  apply andb_prop in Hf as [Hid Hpos]. apply Nat.eqb_eq in Hid.
  apply Z.ltb_lt in Hpos.
  unfold SE.bind at 1. unfold MealTransaction_create.
  destruct (negb (tx_valid _));
    [intros H; inversion H; subst; cbn; split; [reflexivity|discriminate]|].
  destruct (idx && _);
    [intros H; inversion H; subst; cbn; split; [reflexivity|discriminate]|].
  cbv beta iota zeta. unfold SE.bind, SE.ret.
  destruct (Z.eqb (s_mealsRemaining y) 0) eqn:Ez.
  - unfold Subscription_save.
    destruct (negb (subscription_valid _));
      [intros H; inversion H; subst; cbn; split; [reflexivity|discriminate]|].
    cbn [set_transactions subscriptions set_subscriptions set_active s_id].
    subst y. cbn [set_mealsRemaining s_id].
    destruct (update_first _ _ (l1 ++ _ :: l2)) as [r ss] eqn:Eu.
    intros H; inversion H; subst; clear H. cbn.
    split; [reflexivity|]. split.
    + unfold recorded. cbn. split; [|repeat split].
      apply in_or_app. right. left. reflexivity.
    + intros Hnd. rewrite Hl in Hnd.
      pose proof (unique_id_prefix _ _ _ Hnd) as Hpre.
      rewrite (update_first_at (fun s => Nat.eqb (s_id s) (s_id x)) _ l1 l2 _)
        in Eu; [|exact Hpre|cbn; apply Nat.eqb_refl].
      inversion Eu; subst.
      eexists l1, x, _, l2. cbn. rewrite Hl.
      repeat split; try reflexivity; assumption.
  - intros H; inversion H; subst; clear H. cbn.
    split; [reflexivity|]. split.
    + unfold recorded. cbn. split; [|repeat split].
      apply in_or_app. right. left. reflexivity.
    + intros _. eexists l1, x, _, l2. cbn. rewrite Hl.
      repeat split; try reflexivity; assumption.
Qed.

Lemma idempotent_outcome (idx : bool) (cid : Id) (mt : MealType)
      (sub : Subscription) (md : Metadata) (now : Date) (db : DB)
      (out : Exc Result) (db' : DB) :
  processScanIdempotent idx cid mt sub md now db = (out, db') ->
  match out with
  | Return r =>
      recorded cid mt (transaction r) (transactions db') /\
      if idempotent r
      then db' = db
      else NoDup (map s_id (subscriptions db)) ->
           redeemed_once sub db db' (transaction r)
  | Throw e =>
      customers db' = customers db /\
      (code e = "NO_MEALS_REMAINING" -> db' = db /\ balance_exhausted sub db)
  end.
Proof.
  unfold processScanIdempotent, findExistingScan, SE.bind, SE.lift, SE.get,
    SE.ret.
  destruct (getMealWindowBoundaries mt now) as [[ws we]|e] eqn:Hw.
  - destruct (findOne_desc _ _ (transactions db)) as [t|] eqn:Hf.
    + intros H; inversion H; subst. cbn.
      split; [|reflexivity]. eapply existing_is_recorded. exact Hf.
    + intros H.
      pose proof (idempotent_deduct_outcome _ _ _ _ _ _ _ _ _ _ _ Hf H)
        as Hd.
      destruct out as [r|e]; [|exact Hd].
      destruct Hd as (Hi & Hrec & Hred). rewrite Hi. auto.
  - intros H; inversion H; subst. split; [reflexivity|].
    apply boundaries_throw in Hw. rewrite Hw. discriminate.
Qed.

(** [processScanIdempotent], on a store with unique [_id]s, redeems at
    most once per call and says which.  An answer flagged [idempotent]
    leaves the store exactly as it was and carries a recorded success
    of this customer and meal type.  Any other answer has taken exactly
    one meal from exactly one stored document, the one of the given
    [_id], and appended exactly one transaction, the one it returns,
    whose [mealsRemainingAfter] is the stored balance.  A rejection
    never touches a customer, and [NO_MEALS_REMAINING] is only thrown
    with the store unchanged and no meal left on that document. *)
Theorem idempotent_service_redeems_at_most_once
        (idx : bool) (cid : Id) (mt : MealType) (sub : Subscription)
        (md : Metadata) (now : Date) (db : DB)
        (out : Exc Result) (db' : DB) :
  NoDup (map s_id (subscriptions db)) ->
  processScanIdempotent idx cid mt sub md now db = (out, db') ->
  match out with
  | Return r =>
      recorded cid mt (transaction r) (transactions db') /\
      if idempotent r
      then db' = db
      else redeemed_once sub db db' (transaction r)
  | Throw e =>
      customers db' = customers db /\
      (code e = "NO_MEALS_REMAINING" -> db' = db /\ balance_exhausted sub db)
  end.
Proof.
  intros Hnd H. apply idempotent_outcome in H.
  destruct out as [r|e]; [|exact H].
  destruct H as [Hrec Hi]. split; [exact Hrec|].
  destruct (idempotent r); auto.
Qed.

(** One meal left, lunch at 12:30: the call appends one transaction, whose
    [mealsRemainingAfter] is 0. *)
Lemma idempotent_service_redeems_witness :
  exists t,
    transactions (snd (SampleIdempotent.first_call true 1
                         SampleIdempotent.t1230)) = [t]
    /\ t_mealsRemainingAfter t = Some 0.
Proof.
  assert (Hnd : NoDup (map s_id (subscriptions (Sample.db_with 1)))).
  { cbn. constructor; [intros []|constructor]. }
  pose proof (idempotent_service_redeems_at_most_once true 1%nat Lunch
                (Sample.sub_of 1) SampleIdempotent.md SampleIdempotent.t1230
                (Sample.db_with 1)
                (fst (SampleIdempotent.first_call true 1
                        SampleIdempotent.t1230))
                (snd (SampleIdempotent.first_call true 1
                        SampleIdempotent.t1230))
                Hnd (surjective_pairing _)) as H.
  destruct (fst (SampleIdempotent.first_call true 1 SampleIdempotent.t1230))
    as [r|e] eqn:E; [|vm_compute in E; discriminate].
  assert (Hi : idempotent r = false).
  { vm_compute in E. inversion E. reflexivity. }
  rewrite Hi in H. destruct H as (_ & l1 & old & new & l2 & Hdb & _ & _ & _
                                   & _ & Hnew & _ & Htx & _ & Hafter & _).
  exists (transaction r). split; [exact Htx|].
  rewrite Hafter, Hnew. f_equal.
  destruct l1 as [|a l1]; cbn in Hdb.
  - inversion Hdb. reflexivity.
  - inversion Hdb as [[Ha Hl]]. destruct l1; discriminate.
Defined.

(** [getOrCreateScan] only ever answers with a stored record: whenever it
    returns, the transaction of the answer is, in the store the call
    leaves, a success of this customer and meal type; an answer not
    flagged [idempotent] appended it.  Only a duplicate-key rejection is
    retried: every other rejection of [processScanIdempotent] is passed
    on unchanged, [NO_MEALS_REMAINING] with the store as it was. *)
Theorem getOrCreateScan_answers_with_a_stored_record
        (idx : bool) (cid : Id) (mt : MealType) (sub : Subscription)
        (md : Metadata) (now : Date) (db : DB) :
  match getOrCreateScan idx cid mt sub md now db with
  | (Return r, db') =>
      recorded cid mt (transaction r) (transactions db') /\
      (idempotent r = false ->
       exists t, transactions db' = transactions db ++ [t]
                 /\ transaction r = t)
  | (Throw e, db') =>
      customers db' = customers db /\
      (code e = "NO_MEALS_REMAINING" -> db' = db /\ balance_exhausted sub db)
  end.
Proof.
  unfold getOrCreateScan, SE.catch.
  destruct (processScanIdempotent idx cid mt sub md now db)
    as [[r|e] db'] eqn:H; pose proof (idempotent_outcome _ _ _ _ _ _ _ _ _ H)
    as Ho; cbn beta iota in Ho.
  - destruct Ho as [Hrec Hi]. cbv beta iota. split; [exact Hrec|].
    intros Hf. rewrite Hf in Hi.
    exists (transaction r). split; [|reflexivity].
    clear Hrec Hi.
    unfold processScanIdempotent, findExistingScan, SE.bind, SE.lift, SE.get,
      SE.ret in H.
    destruct (getMealWindowBoundaries mt now) as [[ws we]|e0];
      [|discriminate].
    destruct (findOne_desc _ _ (transactions db)) as [t|] eqn:Hn.
    + inversion H; subst. discriminate.
    + revert H. unfold processScanIdempotent_deduct, deductMealAtomic.
      unfold SE.bind at 1. rewrite findOneAndUpdate_returns.
      destruct (fst (update_first _ _ (subscriptions db))) as [y|].
      * unfold SE.bind at 1. unfold MealTransaction_create.
        destruct (negb (tx_valid _)); [discriminate|].
        destruct (idx && _); [discriminate|].
        cbv beta iota zeta. unfold SE.bind, SE.ret.
        destruct (Z.eqb (s_mealsRemaining y) 0).
        -- unfold Subscription_save.
           destruct (negb (subscription_valid _)); [discriminate|].
           destruct (update_first _ _ _) as [r0 ss].
           intros H; inversion H; subst. reflexivity.
        -- intros H; inversion H; subst. reflexivity.
      * unfold findExistingScan, SE.bind, SE.get, SE.ret, SE.throw. cbn.
        rewrite Hn. discriminate.
  - destruct Ho as [Hc Hno]. cbv beta iota.
    destruct (String.eqb (code e) "11000" || includes (Js.message e) "duplicate")
      eqn:Hretry.
    + unfold findExistingScan.
      unfold SE.bind, SE.lift, SE.get, SE.ret, SE.throw.
      destruct (getMealWindowBoundaries mt now) as [[ws we]|e0] eqn:Hw;
        cbv beta iota.
      * destruct (findOne_desc t_timestamp (existing_filter cid mt ws we)
                    (transactions db')) as [t|] eqn:Hf.
        -- split; [eapply existing_is_recorded; exact Hf|].
           cbn. discriminate.
        -- split; [exact Hc|exact Hno].
      * split; [exact Hc|]. apply boundaries_throw in Hw. rewrite Hw.
        discriminate.
    + unfold SE.throw. split; [exact Hc|exact Hno].
Qed.

End IdempotentLedger.


(* ================================================================== *)
(** ** No redemption path makes a balance negative *)
(* ================================================================== *)

Section BalanceInvariant.
Import Db Invariants StoreSpec.
Local Open Scope list_scope.

Lemma preserves_findOneAndUpdate_nonneg (f : Subscription -> bool)
      (u : Subscription -> Subscription) :
  (forall s, sub_nonneg s -> f s = true -> sub_nonneg (u s)) ->
  preserves db_nonneg (Subscription_findOneAndUpdate f u).
Proof.
  intros Hu db H. rewrite findOneAndUpdate_returns.
  cbn [snd]. unfold db_nonneg in *. cbn [set_subscriptions subscriptions].
  apply update_first_Forall; assumption.
Qed.

Lemma preserves_deductMeal (this : Subscription) (mt : option MealType)
      (now : Date) :
  preserves db_nonneg (SubscriptionModel.deductMeal this mt now).
Proof. intros db H. apply deductMeal_nonneg. exact H. Qed.

Lemma preserves_deactivate (updated : Subscription) (now : Date) :
  preserves db_nonneg
    (if s_mealsRemaining updated =? 0
     then Subscription_save (set_active updated false now)
                            (fun s => set_active s false now)
     else SE.ret tt).
Proof.
  destruct (s_mealsRemaining updated =? 0); [|apply preserves_ret].
  apply preserves_save_nonneg. intros _ x Hx. exact Hx.
Qed.

Lemma preserves_deactivate_save (updated : Subscription) (now : Date) :
  preserves db_nonneg
    (Subscription_save (set_active updated false now)
                       (fun s => set_active s false now)).
Proof. apply preserves_save_nonneg. intros _ x Hx. exact Hx. Qed.

Lemma preserves_scanner_processScan (E : MealScanner.Env) (qrToken : string)
      (user : option Id) (md : MealScanner.Metadata) (now : Date) :
  preserves db_nonneg (MealScanner.processScan E qrToken user md now).
Proof.
  apply preserves_scanner_processScan_on.
  - apply db_nonneg_on_subscriptions.
  - apply preserves_deductMeal.
  - apply preserves_deactivate_save.
Qed.

Lemma preserves_scanner_replay (E : MealScanner.Env) (user : option Id)
      (md : MealScanner.Metadata) (clock : nat -> Date)
      (scans : list MealScanner.Scan) :
  forall (k : nat) (acc : MealScanner.BatchResult),
    preserves db_nonneg (MealScanner.replay E user md clock k scans acc).
Proof.
  apply preserves_scanner_replay_on.
  - apply db_nonneg_on_subscriptions.
  - apply preserves_deductMeal.
  - apply preserves_deactivate_save.
Qed.

Lemma preserves_scanService (P : Platform) (secret : option string)
      (idx : bool) (qrToken : string) (user : option Id)
      (md : ScanService.Metadata) (now : Date) :
  preserves db_nonneg (ScanService.processScan P secret idx qrToken user md now).
Proof.
  pose proof db_nonneg_on_subscriptions as HI.
  assert (Htry : preserves db_nonneg
            (ScanService.processScan_try P secret idx qrToken user md now)).
  { unfold ScanService.processScan_try.
    apply preserves_bind; [apply preserves_lift|]. intros tokenData.
    apply preserves_bind.
    { destruct (ScanService.messId md);
        [apply preserves_ret|apply preserves_throw]. }
    intros mid.
    destruct (negb _); [apply preserves_throw|].
    destruct (negb _); [apply preserves_throw|].
    apply preserves_bind; [apply preserves_lift|]. intros cid.
    apply preserves_bind; [apply preserves_get|]. intros db0.
    destruct (findOne _ (customers db0)) as [c|]; [|apply preserves_throw].
    destruct (negb (c_active c)); [apply preserves_throw|]. cbv zeta.
    assert (Hrest :
      preserves db_nonneg
        match findOne (fun s => Nat.eqb (s_customerId s) (c_id c)
                                && s_active s && (now <=? s_endDate s))
                      (subscriptions db0) with
        | None => SE.throw (ScanService.ApiError "No active subscription"
                                                 "NO_SUBSCRIPTION")
        | Some subscription =>
            updatedSubscription <~
              Subscription_findOneAndUpdate
                (fun s => Nat.eqb (s_id s) (s_id subscription)
                          && (0 <? s_mealsRemaining s) && s_active s)
                (fun s => set_mealsRemaining s (s_mealsRemaining s - 1) now) ;;
            match updatedSubscription with
            | None => SE.throw (ScanService.ApiError "No meals remaining"
                                                     "NO_MEALS")
            | Some updated =>
                transaction <~ MealTransaction_create idx
                  (mkTx 0%nat (ScanService.messId md) (Some (c_id c))
                        (Some (s_id subscription)) user user
                        (ScanService.getCurrentMealType now) TxSuccess now
                        (Some (c_qrCodeId c))
                        (Some (s_mealsRemaining subscription + 1))
                        (Some (s_mealsRemaining updated))
                        None None None None None) ;;
                SE.ret (ScanService.mkResult (c_id c)
                          (s_mealsRemaining updated)
                          (ScanService.getCurrentMealType now) transaction)
            end
        end).
    { destruct (findOne _ (subscriptions db0)) as [s|];
        [|apply preserves_throw].
      apply preserves_bind.
      { apply preserves_findOneAndUpdate_nonneg. intros x [Hx Hb] Hf.
        apply andb_prop in Hf as [Hf _]. apply andb_prop in Hf as [_ Hpos].
        apply Z.ltb_lt in Hpos. split; [cbn; lia|exact Hb]. }
      intros [updated|]; [|apply preserves_throw].
      apply preserves_bind; [apply preserves_MealTransaction_create, HI|].
      intros; apply preserves_ret. }
    destruct (findOne _ (transactions db0)) as [t|];
      [destruct (ScanService.adminOverride md);
         [exact Hrest|apply preserves_throw]
      |exact Hrest]. }
  intros db H. unfold ScanService.processScan.
  specialize (Htry db H).
  destruct (ScanService.processScan_try P secret idx qrToken user md now db)
    as [[r|e] db']; cbn [snd] in *; assumption.
Qed.

Lemma preserves_idempotent (idx : bool) (cid : Id) (mt : MealType)
      (sub : Subscription) (md : IdempotentScanService.Metadata)
      (now : Date) :
  preserves db_nonneg
    (IdempotentScanService.processScanIdempotent idx cid mt sub md now).
Proof.
  pose proof db_nonneg_on_subscriptions as HI.
  unfold IdempotentScanService.processScanIdempotent.
  apply preserves_bind; [apply preserves_lift|]. intros [ws we].
  apply preserves_bind.
  { unfold IdempotentScanService.findExistingScan.
    apply preserves_bind; [apply preserves_get|].
    intros; apply preserves_ret. }
  intros [t|]; [apply preserves_ret|].
  unfold IdempotentScanService.processScanIdempotent_deduct. cbv zeta.
  apply preserves_bind.
  { unfold IdempotentScanService.deductMealAtomic.
    apply preserves_findOneAndUpdate_nonneg. intros x [Hx Hb] Hf.
    apply andb_prop in Hf as [_ Hpos].
    apply Z.ltb_lt in Hpos. split; [cbn; lia|exact Hb]. }
  intros [updated|].
  - apply preserves_bind; [apply preserves_MealTransaction_create, HI|].
    intros t. apply preserves_bind; [apply preserves_deactivate|].
    intros; apply preserves_ret.
  - apply preserves_bind.
    { unfold IdempotentScanService.findExistingScan.
      apply preserves_bind; [apply preserves_get|].
      intros; apply preserves_ret. }
    intros [t|]; [apply preserves_ret|apply preserves_throw].
Qed.

Lemma preserves_getOrCreateScan (idx : bool) (cid : Id) (mt : MealType)
      (sub : Subscription) (md : IdempotentScanService.Metadata)
      (now : Date) :
  preserves db_nonneg
    (IdempotentScanService.getOrCreateScan idx cid mt sub md now).
Proof.
  unfold IdempotentScanService.getOrCreateScan.
  apply preserves_catch; [apply preserves_idempotent|]. intros e.
  destruct (_ || _); [|apply preserves_throw].
  apply preserves_bind; [apply preserves_lift|]. intros [ws we].
  apply preserves_bind.
  { unfold IdempotentScanService.findExistingScan.
    apply preserves_bind; [apply preserves_get|].
    intros; apply preserves_ret. }
  intros [t|]; [apply preserves_ret|apply preserves_throw].
Qed.

Lemma preserves_route_single (P : Platform) (idx : bool)
      (element : ScanBatch.Element) (st : Settings) (secret : string)
      (user : option Id) (now : Date) :
  preserves db_nonneg
    (ScanBatch.processSingleScan P idx element st secret user now).
Proof.
  pose proof db_nonneg_on_subscriptions as HI.
  unfold ScanBatch.processSingleScan.
  destruct element as [scan|]; [|apply preserves_throw].
  apply preserves_catch; [|intros; apply preserves_ret].
  unfold ScanBatch.processSingleScan_try. cbv zeta.
  destruct (ScanBatch.qrToken scan) as [[|c token]|];
    try apply preserves_ret.
  destruct (Qr.verify P (String c token) secret) as [[payload|msg]|e];
    [|apply preserves_ret|apply preserves_throw].
  apply preserves_bind; [apply preserves_lift|]. intros qr.
  destruct (negb (truthy qr)); [apply preserves_ret|].
  apply preserves_bind; [apply preserves_get|]. intros db0.
  destruct (findOne _ (customers db0)) as [cu|]; [|apply preserves_ret].
  destruct (findOne_desc _ _ (subscriptions db0)) as [s|];
    [|apply preserves_ret].
  destruct (MealTypeHelper.determineMealType st now) as [mt|];
    [|apply preserves_ret].
  destruct (findOne_desc _ _ (transactions db0)) as [t|];
    [apply preserves_ret|].
  apply preserves_bind.
  { apply preserves_findOneAndUpdate_nonneg. intros x [Hx Hb] Hf.
    apply andb_prop in Hf as [_ Hpos].
    apply Z.ltb_lt in Hpos. split; [cbn; lia|exact Hb]. }
  intros [updated|]; [|apply preserves_ret].
  apply preserves_bind; [apply preserves_MealTransaction_create, HI|].
  intros; apply preserves_ret.
Qed.

Lemma preserves_route_replay (P : Platform) (idx : bool) (st : Settings)
      (secret : string) (user : option Id) (clock : nat -> Date)
      (scans : list ScanBatch.Element) :
  forall k : nat,
    preserves db_nonneg (ScanBatch.replay P idx st secret user clock k scans).
Proof.
  induction scans as [|s scans IH]; intros k; cbn [ScanBatch.replay].
  - apply preserves_ret.
  - apply preserves_bind; [apply preserves_route_single|]. intros r.
    apply preserves_bind; [apply IH|]. intros; apply preserves_ret.
Qed.

Lemma preserves_route_handler (P : Platform) (idx : bool)
      (is_ApiError : Error -> bool)
      (body_scans : option (list ScanBatch.Element))
      (QR_HMAC_SECRET JWT_SECRET : option string)
      (st : Settings) (user : option Id) (clock : nat -> Date) :
  preserves db_nonneg
    (ScanBatchHandler.handler P idx is_ApiError body_scans QR_HMAC_SECRET
                              JWT_SECRET st user clock).
Proof.
  unfold ScanBatchHandler.handler. cbv zeta.
  destruct body_scans as [scans|]; [|apply preserves_throw].
  destruct (Nat.eqb _ 0); [apply preserves_throw|].
  destruct (or_str QR_HMAC_SECRET JWT_SECRET) as [secret|];
    [|apply preserves_throw].
  destruct (negb _); [apply preserves_throw|].
  apply preserves_catch.
  - unfold ScanBatch.batch. cbv zeta.
    apply preserves_bind; [apply preserves_lift|]. intros sortedScans.
    apply preserves_bind; [apply preserves_route_replay|].
    intros; apply preserves_ret.
  - intros e. destruct (is_ApiError e); apply preserves_throw.
Qed.

(** No balance goes below zero through any of five entry points.  On a
    store whose balances are not negative, a scan through the scanner, an
    offline batch through the scanner, a scan through the scan service,
    a call of the idempotent service and a request to the batch route
    each leave [mealsRemaining] and every per-type balance of every
    subscription at or above 0, whatever they answer and whether they
    return or throw. *)
Theorem every_redemption_path_keeps_balances_nonneg
        (E : MealScanner.Env) (P : Platform) (idx : bool)
        (env_secret : option string)
        (qrToken : string) (user : option Id)
        (md : MealScanner.Metadata) (smd : ScanService.Metadata)
        (imd : IdempotentScanService.Metadata)
        (scans : list MealScanner.Scan) (clock : nat -> Date) (now : Date)
        (cid : Id) (mt : MealType) (sub : Subscription)
        (is_ApiError : Error -> bool)
        (body_scans : option (list ScanBatch.Element))
        (QR_HMAC_SECRET JWT_SECRET : option string) (st : Settings)
        (db : DB) :
  db_nonneg db ->
  db_nonneg (snd (MealScanner.processScan E qrToken user md now db))
  /\ db_nonneg
       (snd (MealScanner.processBatch E scans user md now clock db))
  /\ db_nonneg
       (snd (ScanService.processScan P env_secret idx qrToken user smd now db))
  /\ db_nonneg
       (snd (IdempotentScanService.getOrCreateScan idx cid mt sub imd now db))
  /\ db_nonneg
       (snd (ScanBatchHandler.handler P idx is_ApiError body_scans
               QR_HMAC_SECRET JWT_SECRET st user clock db)).
Proof.
  intros H. repeat split.
  - apply preserves_scanner_processScan, H.
  - revert db H. change (preserves db_nonneg
                           (MealScanner.processBatch E scans user md now clock)).
    unfold MealScanner.processBatch. cbv zeta.
    apply preserves_bind; [apply preserves_scanner_replay|]. intros r.
    apply preserves_bind; [|intros; apply preserves_ret].
    apply preserves_AuditLog_create, db_nonneg_on_subscriptions.
  - apply preserves_scanService, H.
  - apply preserves_getOrCreateScan, H.
  - apply preserves_route_handler, H.
Qed.

(** One meal left, lunch scanned at 13:00 through the scanner: no balance
    of the store the scan leaves is negative. *)
Lemma every_redemption_path_witness :
  db_nonneg
    (snd (MealScanner.processScan (SampleScanner.env true)
            SampleScanner.alice_token SampleScanner.staff
            SampleScanner.md_tenant (SampleScanner.at_hour 13)
            (SampleScanner.db_planned 1))).
Proof.
  assert (H : db_nonneg (SampleScanner.db_planned 1)).
  { unfold db_nonneg. cbn. constructor; [|constructor].
    split; [cbn; lia|exact I]. }
  exact (proj1 (every_redemption_path_keeps_balances_nonneg
                  (SampleScanner.env true)
                  (Reference.platform []) true None
                  SampleScanner.alice_token SampleScanner.staff
                  SampleScanner.md_tenant
                  (ScanService.mkMetadata (Some 7%nat) "staff" false)
                  SampleIdempotent.md [] (fun _ => 0)
                  (SampleScanner.at_hour 13) 1%nat Lunch (Sample.sub_of 1)
                  (fun _ => false) None None None
                  SettingsCache.getDefaultSettings
                  (SampleScanner.db_planned 1) H)).
Defined.

End BalanceInvariant.


(* ================================================================== *)
(** ** A deep link cannot be confirmed *)
(* ================================================================== *)

Section DeepLinkFacts.
Import Db DeepLink.
Local Open Scope list_scope.

Lemma verifyDeepLink_type (P : Platform)
      (verify_unkeyed : string -> Date -> Exc JsValue)
      (secret : option string) (token : string) (now : Date)
      (td : TokenData) :
  verifyDeepLink P verify_unkeyed secret token now = Return td ->
  exists decoded ty,
    verify_link P verify_unkeyed secret token now = Return decoded
    /\ get_field decoded "type" = Return ty
    /\ QRTokenService.is_str ty "deep_link_scan" = true
    /\ get_field decoded "nonce" = Return (nonce td)
    /\ truthy (nonce td) = true.
Proof.
  unfold verifyDeepLink, try_catch.
  destruct (verify_link P verify_unkeyed secret token now) as [decoded|e].
  2:{ cbn. destruct (String.eqb (code e) "TokenExpiredError");
        [discriminate|].
      destruct (String.eqb (code e) "JsonWebTokenError"); discriminate. }
  cbn [Js.bind]. destruct (get_field decoded "type") as [ty|e] eqn:Ety.
  2:{ cbn. destruct (String.eqb (code e) "TokenExpiredError");
        [discriminate|].
      destruct (String.eqb (code e) "JsonWebTokenError"); discriminate. }
  cbn [Js.bind].
  destruct (QRTokenService.is_str ty "deep_link_scan") eqn:Hty;
    [|cbn; discriminate].
  cbn [negb].
  destruct (get_field decoded "customerId") as [cid|e]; cbn [Js.bind].
  2:{ destruct (String.eqb (code e) "TokenExpiredError");
        [discriminate|].
      destruct (String.eqb (code e) "JsonWebTokenError"); discriminate. }
  destruct (get_field decoded "messId") as [mid|e]; cbn [Js.bind].
  2:{ destruct (String.eqb (code e) "TokenExpiredError");
        [discriminate|].
      destruct (String.eqb (code e) "JsonWebTokenError"); discriminate. }
  destruct (get_field decoded "nonce") as [n|e] eqn:En; cbn [Js.bind].
  2:{ destruct (String.eqb (code e) "TokenExpiredError");
        [discriminate|].
      destruct (String.eqb (code e) "JsonWebTokenError"); discriminate. }
  destruct (negb (truthy cid) || negb (truthy mid) || negb (truthy n))
    eqn:Hf; [cbn; discriminate|].
  destruct (get_field decoded "iat") as [iat|e]; cbn [Js.bind].
  2:{ destruct (String.eqb (code e) "TokenExpiredError");
        [discriminate|].
      destruct (String.eqb (code e) "JsonWebTokenError"); discriminate. }
  intros H; inversion H; subst; clear H. cbn [nonce].
  apply orb_false_iff in Hf as [_ Hn]. apply negb_false_iff in Hn.
  exists decoded, ty. auto.
Qed.

Lemma verifyToken_rejects_other_types (P : Platform)
      (env_secret : option string) (token : string) (now : Date)
      (p : QRTokenService.Payload) :
  QRTokenService.verifyToken P env_secret token now = Return p ->
  exists s decoded ty,
    jwt_verify P token s now = Return decoded
    /\ get_field decoded "type" = Return ty
    /\ QRTokenService.is_str ty "qr_scan" = true.
Proof.
  unfold QRTokenService.verifyToken, try_catch.
  destruct (truthy_str env_secret); [destruct env_secret as [s|]|].
  2,3: cbn; discriminate.
  cbn [Js.bind].
  destruct (jwt_verify P token s now) as [decoded|e] eqn:Ev; cbn [Js.bind].
  2:{ destruct (String.eqb (code e) "TokenExpiredError");
        [discriminate|].
      destruct (String.eqb (code e) "JsonWebTokenError"); discriminate. }
  destruct (get_field decoded "type") as [ty|e] eqn:Ety; cbn [Js.bind].
  2:{ destruct (String.eqb (code e) "TokenExpiredError");
        [discriminate|].
      destruct (String.eqb (code e) "JsonWebTokenError"); discriminate. }
  destruct (QRTokenService.is_str ty "qr_scan") eqn:Hty;
    [|cbn; discriminate].
  intros _. exists s, decoded, ty. auto.
Qed.

Lemma is_str_exclusive (v : JsValue) :
  QRTokenService.is_str v "deep_link_scan" = true ->
  QRTokenService.is_str v "qr_scan" = true -> False.
Proof.
  destruct v; cbn; try discriminate.
  intros H1 H2. apply String.eqb_eq in H1, H2. congruence.
Qed.

(** The deep-link confirmation never deducts a meal.  The token it
    receives has to be a [deep_link_scan] token to pass
    [verifyDeepLink], and is then handed to the scan service, which
    accepts [qr_scan] tokens only: whatever the request and the store,
    the handler throws and the store is as it was.  When the link
    verified and its nonce was unused, the nonce is nonetheless marked
    used; in every other case the nonces are as they were. *)
Theorem deep_link_confirm_never_redeems
        (P : Platform) (verify_unkeyed : string -> Date -> Exc JsValue)
        (same : JsValue -> JsValue -> bool)
        (secret env_secret : option string) (idx : bool)
        (body_token : option string) (req_messId : option Id)
        (user : option Id) (role : string) (now0 now1 now2 : Date)
        (usedNonces : Nonces) (db : DB) :
  (forall token, body_token = Some token ->
                 payload_from_token P verify_unkeyed secret token) ->
  exists e nonces',
    confirm P verify_unkeyed same secret env_secret idx body_token
            req_messId user role now0 now1 now2 usedNonces db
    = (Throw e, (nonces', db))
    /\ match body_token with
       | None | Some EmptyString => nonces' = usedNonces
       | Some token =>
           match verifyDeepLink P verify_unkeyed secret token now0 with
           | Return td =>
               if has same usedNonces (nonce td)
               then nonces' = usedNonces
               else nonces' = set same usedNonces (nonce td) now1
           | Throw _ => nonces' = usedNonces
           end
       end.
Proof.
  intros Hpay. unfold confirm.
  destruct body_token as [[|c token]|]; [eauto| |eauto].
  specialize (Hpay _ eq_refl). set (tok := String c token) in *.
  destruct (verifyDeepLink P verify_unkeyed secret tok now0) as [td|e']
    eqn:Hv; [|eauto].
  destruct (has same usedNonces (nonce td)); [eauto|].
  destruct req_messId as [m|]; [|eauto].
  destruct (negb _); [eauto|].
  destruct (ScanService.processScan P env_secret idx tok user
              (ScanService.mkMetadata (Some m) role false) now2 db)
    as [[r|e] db'] eqn:Hscan.
  - exfalso.
    unfold ScanService.processScan in Hscan.
    destruct (ScanService.processScan_try P env_secret idx tok user
                (ScanService.mkMetadata (Some m) role false) now2 db)
      as [[r0|e0] db0] eqn:Htry; [|discriminate].
    unfold ScanService.processScan_try in Htry.
    unfold SE.bind at 1 in Htry. unfold SE.lift at 1 in Htry.
    destruct (QRTokenService.verifyToken P env_secret tok now2) as [p|e1]
      eqn:Hq; [|discriminate].
    destruct (verifyToken_rejects_other_types _ _ _ _ _ Hq)
      as (s & d2 & ty2 & Hd2 & Hty2 & Hs2).
    destruct (verifyDeepLink_type _ _ _ _ _ _ Hv)
      as (d1 & ty1 & Hd1 & Hty1 & Hs1 & _).
    pose proof (Hpay s now0 now2 d1 d2 Hd1 Hd2) as ->.
    rewrite Hty1 in Hty2. inversion Hty2; subst.
    exact (is_str_exclusive _ Hs1 Hs2).
  - unfold ScanService.processScan in Hscan.
    destruct (ScanService.processScan_try P env_secret idx tok user
                (ScanService.mkMetadata (Some m) role false) now2 db)
      as [[r0|e0] db0]; inversion Hscan; subst. eauto.
Qed.

(** A well-formed link of customer 1, confirmed by staff of mess 7 on a
    store where the customer has 5 meals: the handler throws and the
    store is unchanged. *)
Lemma deep_link_confirm_witness :
  exists e nonces',
    confirm (Reference.platform
               [("link-token",
                 JObj [("customerId", JNum 1); ("messId", JNum 7);
                       ("nonce", JStr "a1b2"); ("type", JStr "deep_link_scan");
                       ("iat", JNum 1714600000)])])
            (fun _ _ => Throw (mkError "secret or public key must be provided"
                                       "JsonWebTokenError"))
            (fun a b => match a, b with
                        | JStr x, JStr y => String.eqb x y
                        | _, _ => false
                        end)
            (Some "jwt-secret") (Some "jwt-secret") true (Some "link-token")
            (Some 7%nat) SampleScanner.staff "staff"
            (SampleScanner.at_hour 13) (SampleScanner.at_hour 13)
            (SampleScanner.at_hour 13) [] (SampleScanner.db_planned 5)
    = (Throw e, (nonces', SampleScanner.db_planned 5))
    /\ nonces' = [(JStr "a1b2", SampleScanner.at_hour 13)].
Proof.
  destruct (deep_link_confirm_never_redeems
              (Reference.platform
               [("link-token",
                 JObj [("customerId", JNum 1); ("messId", JNum 7);
                       ("nonce", JStr "a1b2"); ("type", JStr "deep_link_scan");
                       ("iat", JNum 1714600000)])])
              (fun _ _ => Throw (mkError "secret or public key must be provided"
                                         "JsonWebTokenError"))
              (fun a b => match a, b with
                          | JStr x, JStr y => String.eqb x y
                          | _, _ => false
                          end)
              (Some "jwt-secret") (Some "jwt-secret") true (Some "link-token")
              (Some 7%nat) SampleScanner.staff "staff"
              (SampleScanner.at_hour 13) (SampleScanner.at_hour 13)
              (SampleScanner.at_hour 13) [] (SampleScanner.db_planned 5))
    as (e & nonces' & Hc & Hn).
  - intros token Ht s t1 t2 d1 d2 H1 H2. inversion Ht; subst token.
    cbn in H1, H2. congruence.
  - exists e, nonces'. split; [exact Hc|]. exact Hn.
Defined.

End DeepLinkFacts.


(* ================================================================== *)
(** ** What follows the signature is not covered by it *)
(* ================================================================== *)

Section TrailingSegments.
Import Qr.
Local Open Scope list_scope.

Lemma split_dot_aux_app (a b : string) :
  forall cur : string -> string,
    split_dot_aux cur (a ++ String "." b)%string
    = split_dot_aux cur a ++ split_dot b.
Proof.
  induction a as [|c a IH]; intros cur; cbn.
  - reflexivity.
  - destruct (Ascii.eqb c "."); [cbn; f_equal|]; apply IH.
Qed.

Lemma split_dot_aux_two (t : string) :
  forall cur : string -> string,
    has_dot t = true ->
    exists p s rest, split_dot_aux cur t = p :: s :: rest.
Proof.
  induction t as [|c t IH]; intros cur; cbn; [discriminate|].
  destruct (Ascii.eqb c "."); cbn; [|apply IH].
  intros _.
  destruct (split_dot_aux_nonempty (fun x => x) t) as (s & rest & E).
  rewrite E. eauto.
Qed.

(** [verifyQrToken] reads the first two segments of the token and
    nothing else: a token that has a payload and a signature segment
    gets the same verdict, after the same calls, with any text appended
    behind a further dot.  The signature does not cover what follows
    it. *)
Theorem verifyQrToken_ignores_trailing_segments
        (P : Platform) (t extra : string) (secret : option string)
        (tr : list Event) :
  has_dot t = true ->
  verifyQrToken P (JStr (t ++ "." ++ extra)) secret tr
  = verifyQrToken P (JStr t) secret tr.
Proof.
  intros Hdot.
  assert (H1 : truthy (JStr t) = true)
    by (destruct t; [discriminate|reflexivity]).
  assert (H2 : truthy (JStr (t ++ "." ++ extra)) = true)
    by (destruct t; [discriminate|reflexivity]).
  unfold verifyQrToken, mcatch, verifyQrToken_try.
  rewrite H1, H2. cbn [negb]. cbv zeta.
  unfold split_dot. change ("." ++ extra)%string with (String "." extra).
  rewrite split_dot_aux_app.
  destruct (split_dot_aux_two t (fun x => x) Hdot) as (p & s & rest & E).
  rewrite E. reflexivity.
Qed.

(** The sample credential with [.anything] appended verifies like the
    credential itself. *)
Lemma verifyQrToken_trailing_witness :
  verify ref_platform
         (sample_token ++ "." ++ "anything") sample_secret
  = verify ref_platform sample_token sample_secret.
Proof.
  unfold verify.
  rewrite (verifyQrToken_ignores_trailing_segments ref_platform
             sample_token "anything" (Some sample_secret) [] eq_refl).
  reflexivity.
Defined.

End TrailingSegments.


(* ================================================================== *)
(** ** The resolvers of the configured windows agree *)
(* ================================================================== *)

Section ResolverAgreementFacts.
Import SettingsModel ResolverAgreement.

Lemma helper_window_is_contains (ct s e : string) :
  s <> "" -> e <> "" ->
  MealTypeHelper.isTimeInWindow ct (Some s) (Some e)
  = contains (mkWin s e) ct.
Proof.
  intros Hs He. unfold MealTypeHelper.isTimeInWindow, contains, truthy_str.
  destruct s; [contradiction|]. destruct e; [contradiction|]. reflexivity.
Qed.

(** For one settings document whose window boundaries are all set, the
    three resolvers that read the configured windows give the same
    answer at every instant: [determineMealType] of the helper (used by
    the batch route and the scan core), [getCurrentMealType] of the
    scanner, and the [currentMealWindow] virtual of the settings model. *)
Theorem configured_resolvers_agree
        (ws : Wins) (doubleScan alert : option Z) (tz : option string)
        (P : Platform) (secret : option string) (idx : bool) (now : Date) :
  boundaries_set ws ->
  MealTypeHelper.determineMealType (settings_of ws doubleScan alert tz) now
  = currentMealWindow ws (MealTypeHelper.currentTime now)
  /\ MealScanner.getCurrentMealType
       (MealScanner.mkEnv P secret idx (settings_of ws doubleScan alert tz))
       now
     = Return (currentMealWindow ws (MealTypeHelper.currentTime now)).
Proof.
  intros (Hbs & Hbe & Hls & Hle & Hds & Hde).
  destruct ws as [[bs be] [ls le] [ds de]]. cbn in *.
  split.
  - unfold MealTypeHelper.determineMealType, currentMealWindow.
    cbn [settings_of mealWindows mw_breakfast mw_lunch mw_dinner
         ws_breakfast ws_lunch ws_dinner win_start win_end
         MealTypeHelper.startOf MealTypeHelper.endOf window
         w_start w_end w_from w_to].
    assert (Hor : forall s, s <> "" -> or_str (Some s) None = Some s).
    { intros s Hs. unfold or_str, truthy_str. destruct s;
        [contradiction|reflexivity]. }
    rewrite !Hor by assumption.
    rewrite !helper_window_is_contains by assumption.
    reflexivity.
  - unfold MealScanner.getCurrentMealType, currentMealWindow, contains,
      MealScanner.within.
    cbn. 
    destruct (str_ge _ bs && str_le _ be); [reflexivity|].
    destruct (str_ge _ ls && str_le _ le); [reflexivity|].
    destruct (str_ge _ ds && str_le _ de); reflexivity.
Qed.

(** The default windows, at 13:05: all three resolvers say lunch. *)
Lemma configured_resolvers_witness :
  MealTypeHelper.determineMealType
    (settings_of (mkWins (mkWin "07:00" "10:00") (mkWin "12:00" "15:00")
                         (mkWin "19:00" "22:00")) None None None)
    (SampleScanner.at_hour 13 + 300000)
  = Some Lunch.
Proof.
  assert (Hb : boundaries_set
                 (mkWins (mkWin "07:00" "10:00") (mkWin "12:00" "15:00")
                         (mkWin "19:00" "22:00")))
    by (repeat split; discriminate).
  rewrite (proj1 (configured_resolvers_agree
                    (mkWins (mkWin "07:00" "10:00") (mkWin "12:00" "15:00")
                            (mkWin "19:00" "22:00")) None None None
                    ref_platform None true
                    (SampleScanner.at_hour 13 + 300000) Hb)).
  vm_compute. reflexivity.
Defined.

End ResolverAgreementFacts.
